(** * MayoDownload: the Media Shuttle upload path

    A shallow embedding of [mayo-uploader.service.ts] (the batch upload
    coordinator), [media-shuttle.service.ts] (the browser-driven transfer)
    and [media-shuttle.config.ts] (the configuration factory).

    The TypeScript code is effectful: it writes and removes files, drives a
    browser through Playwright, logs, throws and catches.  It is embedded in
    a state-and-exception monad over an explicit [World].  What the outside
    (the portal, the browser, the disk) answers is not decided by the code,
    so every external call consults an oracle; the theorems quantify over
    all oracles.  Every external call is also recorded in a trace, which is
    what a spy or mock would observe. *)

From Stdlib Require Import String Ascii List ZArith Lia Bool Permutation.
From stdpp Require Import gmap strings list fin_maps pretty.

Import ListNotations.
Local Open Scope string_scope.
Local Open Scope list_scope.

(* ===================================================================== *)
(** ** JavaScript strings *)
(* ===================================================================== *)

Module Js.

(** [String.prototype.endsWith] *)
Definition endsWith (s suffix : string) : bool :=
  let n := String.length s in
  let m := String.length suffix in
  (m <=? n)%nat && String.eqb (String.substring (n - m) m s) suffix.

(** [String.prototype.includes] *)
Fixpoint includes (s sub : string) : bool :=
  String.prefix sub s ||
  match s with
  | EmptyString => false
  | String _ rest => includes rest sub
  end.

(** [String.prototype.toLowerCase], on the ASCII letters. *)
Definition lowerAscii (c : ascii) : ascii :=
  let n := nat_of_ascii c in
  if ((65 <=? n) && (n <=? 90))%nat then ascii_of_nat (n + 32) else c.

Fixpoint toLowerCase (s : string) : string :=
  match s with
  | EmptyString => EmptyString
  | String c rest => String (lowerAscii c) (toLowerCase rest)
  end.

(** [Array.prototype.join] *)
Definition join (sep : string) (l : list string) : string := String.concat sep l.

(** [a || b] on a possibly-undefined string: the empty string is falsy. *)
Definition orElse (a : option string) (b : string) : string :=
  match a with
  | Some s => if String.eqb s "" then b else s
  | None => b
  end.

(** [s] between double quotes, as it stands inside a single-quoted
    JavaScript literal. *)
Definition quoted (s : string) : string :=
  String (ascii_of_nat 34) (s +:+ String (ascii_of_nat 34) EmptyString).

(** A thrown value: an [Error] object with its message, or anything else. *)
Inductive Exn : Type :=
| Error (message : string)
| Thrown (value : string).

(** [error instanceof Error ? error.message : 'Unknown error'] *)
Definition messageOf (e : Exn) : string :=
  match e with
  | Error m => m
  | Thrown _ => "Unknown error"
  end.

(** [`${error}`] *)
Definition toString (e : Exn) : string :=
  match e with
  | Error m => "Error: " +:+ m
  | Thrown v => v
  end.

(** The completion of a call: a value or a thrown exception. *)
Inductive Result (A : Type) : Type :=
| Normal (a : A)
| Throw (e : Exn).
Arguments Normal {A} a.
Arguments Throw {A} e.

End Js.

Import Js.

(* ===================================================================== *)
(** ** The world: disk, service fields, trace *)
(* ===================================================================== *)

Definition Buffer := list Byte.byte.

Inductive FsNode : Type :=
| File (data : Buffer)
| Dir.

Record Browser := { browser_id : nat }.
Record BrowserContext := { context_id : nat }.
Record Page := { page_id : nat }.
Record FileChooser := { chooser_id : nat }.

Inductive Locator : Type :=
| Css (selector : string)
| Role (role : string) (name : string)
| First (l : Locator).

Inductive Level : Type := LLog | LWarn | LError.

(** chromium.launch({ headless, args }) *)
Record LaunchOptions := { launch_headless : bool; launch_args : list string }.

(** browser.newContext({ viewport: { width, height }, userAgent }) *)
Record ContextOptions := { viewport_width : Z; viewport_height : Z; userAgent : string }.

(** page.waitForSelector(_, { state, timeout }) *)
Record WaitOptions := { wait_state : option string; wait_timeout : option Z }.

(** The private methods of MediaShuttleService, for the call markers. *)
Inductive Method : Type :=
| MInitializeBrowser | MLogin | MPerformUpload | MWaitForUploadCompletion
| MMonitorTransferProgress | MCaptureErrorScreenshot | MCleanup.

(** What the DOM shows for [#topText] at one evaluation of the predicate
    given to [page.waitForFunction]: no such element, or its textContent. *)
Inductive TopText : Type :=
| NoTopText
| TopTextContent (text : option string).

Inductive Event : Type :=
| EvLog (lvl : Level) (msg : list string)
| EvEnter (m : Method)
| EvWriteFile (path : string) (data : Buffer)
| EvUnlink (path : string)
| EvMkdir (path : string)
| EvLaunch (opts : LaunchOptions)
| EvNewContext (opts : ContextOptions)
| EvNewPage
| EvSetDefaultTimeout (ms : Z)
| EvGoto (url : option string)
| EvWaitForLoadState (state : string)
| EvFill (loc : Locator) (value : option string)
| EvClick (loc : Locator)
| EvWaitForSelector (selector : string) (opts : WaitOptions)
| EvIsVisible (loc : Locator)
| EvWaitForEvent (name : string)
| EvSetFiles (paths : list string)
| EvWaitForFunction (arg : Z) (timeout : option Z)
| EvPoll (seen : TopText)
| EvTextContent (loc : Locator)
| EvScreenshot (path : string) (fullPage : bool)
| EvContextClose
| EvBrowserClose.

Record World := {
  fs : gmap string FsNode;
  this_browser : option Browser;          (* MediaShuttleService.browser *)
  this_context : option BrowserContext;   (* MediaShuttleService.context *)
  trace : list Event
}.

Definition record (e : Event) (w : World) : World :=
  {| fs := fs w; this_browser := this_browser w;
     this_context := this_context w; trace := trace w ++ [e] |}.

Definition set_fs (f : gmap string FsNode) (w : World) : World :=
  {| fs := f; this_browser := this_browser w;
     this_context := this_context w; trace := trace w |}.

Definition set_browser (b : option Browser) (w : World) : World :=
  {| fs := fs w; this_browser := b;
     this_context := this_context w; trace := trace w |}.

Definition set_context (c : option BrowserContext) (w : World) : World :=
  {| fs := fs w; this_browser := this_browser w;
     this_context := c; trace := trace w |}.

(** What the Node runtime answers. *)
Record Host := {
  os_tmpdir : string;
  process_cwd : string;
  path_join : list string -> string;
  path_basename : string -> string;
  path_dirname : string -> string;
  Date_now : World -> Z;
  writeFileSync_error : World -> string -> option Exn;
  unlinkSync_error : World -> string -> option Exn;
  mkdirSync_error : World -> string -> option Exn
}.

(** What Playwright, the browser and the portal answer. *)
Record Playwright := {
  pw_launch : World -> LaunchOptions -> Result Browser;
  pw_newContext : World -> Browser -> ContextOptions -> Result BrowserContext;
  pw_newPage : World -> BrowserContext -> Result Page;
  pw_goto : World -> Page -> option string -> Result unit;
  pw_waitForLoadState : World -> Page -> string -> Result unit;
  pw_fill : World -> Page -> Locator -> option string -> Result unit;
  pw_click : World -> Page -> Locator -> Result unit;
  pw_waitForSelector : World -> Page -> string -> WaitOptions -> Result unit;
  pw_url : World -> Page -> string;
  pw_isVisible : World -> Page -> Locator -> Result bool;
  pw_waitForEvent : World -> Page -> string -> Result FileChooser;
  pw_setFiles : World -> FileChooser -> list string -> Result unit;
  (* page.waitForFunction, called with the timeout option given (None: the
     call gives no options, and the wait is bounded by the default timeout
     of the page): the successive states of #topText seen by the polls
     that fit in the bound, the error raised when the bound elapses, and
     the error reported when evaluating the predicate in the page throws *)
  pw_polls : World -> Page -> option Z -> list TopText;
  pw_timeout : World -> Page -> option Z -> Exn;
  pw_pageError : World -> Page -> Exn;
  pw_textContent : World -> Page -> Locator -> Result (option string);
  pw_screenshot : World -> Page -> string -> bool -> Result Buffer;
  pw_closeContext : World -> BrowserContext -> Result unit;
  pw_closeBrowser : World -> Browser -> Result unit
}.

(* ===================================================================== *)
(** ** The monad: locals, world, exceptions *)
(* ===================================================================== *)

(** The outcome of running a piece of code: how it completed, the locals
    of the enclosing function, and the world. A throw keeps the updates
    made before it, as in JavaScript. *)
Record Out (L A : Type) := mkOut { res : Result A; loc : L; wld : World }.
Arguments mkOut {L A} res loc wld.
Arguments res {L A} o.
Arguments loc {L A} o.
Arguments wld {L A} o.

Definition M (L A : Type) : Type := L -> World -> Out L A.

Section Monad.
Context {L : Type}.

Definition ret {A} (a : A) : M L A := fun l w => mkOut (Normal a) l w.

Definition throw {A} (e : Exn) : M L A := fun l w => mkOut (Throw e) l w.

Definition bind {A B} (m : M L A) (k : A -> M L B) : M L B :=
  fun l w =>
    let o := m l w in
    match res o with
    | Normal a => k a (loc o) (wld o)
    | Throw e => mkOut (Throw e) (loc o) (wld o)
    end.

(** try { m } catch (e) { h e } *)
Definition tryCatch {A} (m : M L A) (h : Exn -> M L A) : M L A :=
  fun l w =>
    let o := m l w in
    match res o with
    | Normal a => mkOut (Normal a) (loc o) (wld o)
    | Throw e => h e (loc o) (wld o)
    end.

(** try { m } finally { f }: [f] always runs; its throw replaces the
    completion of [m]. *)
Definition tryFinally {A} (m : M L A) (f : M L unit) : M L A :=
  fun l w =>
    let o := m l w in
    let o' := f (loc o) (wld o) in
    match res o' with
    | Normal _ => mkOut (res o) (loc o') (wld o')
    | Throw e => mkOut (Throw e) (loc o') (wld o')
    end.

Definition getWorld : M L World := fun l w => mkOut (Normal w) l w.
Definition modifyWorld (f : World -> World) : M L unit :=
  fun l w => mkOut (Normal tt) l (f w).
Definition getLocals : M L L := fun l w => mkOut (Normal l) l w.
Definition modifyLocals (f : L -> L) : M L unit :=
  fun l w => mkOut (Normal tt) (f l) w.

(** An external call: recorded in the trace, then answered by [oracle]. *)
Definition external {A} (e : Event) (oracle : World -> Result A) : M L A :=
  fun l w => let w' := record e w in mkOut (oracle w') l w'.

(** Awaiting an answer with nothing new to record. *)
Definition await {A} (oracle : World -> Result A) : M L A :=
  fun l w => mkOut (oracle w) l w.

Definition emit (e : Event) : M L unit := modifyWorld (record e).

(** this.logger.log / warn / error *)
Definition log (lvl : Level) (msg : list string) : M L unit := emit (EvLog lvl msg).

(** Running a method of another frame: its locals are its own. *)
Definition call {L' A} (m : M L' A) (init : L') : M L A :=
  fun l w => let o := m init w in mkOut (res o) l (wld o).
End Monad.

Arguments ret {L A} a l w /.
Arguments throw {L A} e l w /.
Arguments bind {L A B} m k l w /.
Arguments tryCatch {L A} m h l w /.
Arguments tryFinally {L A} m f l w /.
Arguments getWorld {L} l w /.
Arguments modifyWorld {L} f l w /.
Arguments getLocals {L} l w /.
Arguments modifyLocals {L} f l w /.
Arguments external {L A} e oracle l w /.
Arguments await {L A} oracle l w /.
Arguments emit {L} e l w /.
Arguments log {L} lvl msg l w /.
Arguments call {L L' A} m init l w /.

Declare Scope js_scope.
Delimit Scope js_scope with js.
Notation "x <- m ;; k" := (bind m (fun x => k))
  (at level 100, m at next level, right associativity) : js_scope.
Notation "m ;; k" := (bind m (fun _ => k))
  (at level 100, right associativity) : js_scope.
Local Open Scope js_scope.

(** for (const x of xs) { body x } *)
Fixpoint forOf {L A} (xs : list A) (body : A -> M L unit) : M L unit :=
  match xs with
  | [] => ret tt
  | x :: rest => body x ;; forOf rest body
  end.

Definition when {L} (b : bool) (m : M L unit) : M L unit :=
  if b then m else ret tt.

(* ===================================================================== *)
(** ** fs *)
(* ===================================================================== *)

Section Fs.
Variable H : Host.
Context {L : Type}.

(** fs.existsSync: never throws. *)
Definition existsSync (path : string) : M L bool :=
  w <- getWorld ;;
  ret (bool_decide (is_Some (fs w !! path))).

(** fs.writeFileSync(path, data) *)
Definition writeFileSync (path : string) (data : Buffer) : M L unit :=
  external (EvWriteFile path data)
           (fun w => match writeFileSync_error H w path with
                     | Some e => Throw e
                     | None => Normal tt
                     end) ;;
  modifyWorld (fun w => set_fs (<[path := File data]> (fs w)) w).

(** fs.unlinkSync(path): fails on a path that does not exist. *)
Definition unlinkSync (path : string) : M L unit :=
  external (EvUnlink path)
           (fun w => match fs w !! path with
                     | None =>
                         Throw (Error ("ENOENT: no such file or directory, unlink '"
                                       +:+ path +:+ "'"))
                     | Some _ =>
                         match unlinkSync_error H w path with
                         | Some e => Throw e
                         | None => Normal tt
                         end
                     end) ;;
  modifyWorld (fun w => set_fs (delete path (fs w)) w).

(** fs.mkdirSync(path, { recursive: true }) *)
Definition mkdirSync (path : string) : M L unit :=
  external (EvMkdir path)
           (fun w => match mkdirSync_error H w path with
                     | Some e => Throw e
                     | None => Normal tt
                     end) ;;
  modifyWorld (fun w => set_fs (match fs w !! path with
                                | Some _ => fs w
                                | None => <[path := Dir]> (fs w)
                                end) w).
End Fs.

(* ===================================================================== *)
(** ** media-shuttle.service.ts *)
(* ===================================================================== *)

Module MediaShuttleService.

(** interface MediaShuttleConfig. The four strings come from process.env
    and are undefined when the variable is not set. *)
Record MediaShuttleConfig := {
  url : option string;
  username : option string;
  password : option string;
  recipientEmail : option string;
  headless : option bool;
  timeout : option Z
}.

(** interface UploadResult *)
Record UploadResult := {
  success : bool;
  message : string;
  uploadedFiles : option (list string);
  error : option string
}.

Section Service.
Variable H : Host.
Variable P : Playwright.

(** *** Playwright calls *)
Section Calls.
Context {L : Type}.
Variable page : Page.

Definition waitForLoadState (state : string) : M L unit :=
  external (EvWaitForLoadState state) (fun w => pw_waitForLoadState P w page state).
Definition fill (l : Locator) (value : option string) : M L unit :=
  external (EvFill l value) (fun w => pw_fill P w page l value).
Definition click (l : Locator) : M L unit :=
  external (EvClick l) (fun w => pw_click P w page l).
Definition waitForSelector (selector : string) (opts : WaitOptions) : M L unit :=
  external (EvWaitForSelector selector opts)
           (fun w => pw_waitForSelector P w page selector opts).
Definition isVisible (l : Locator) : M L bool :=
  external (EvIsVisible l) (fun w => pw_isVisible P w page l).
Definition textContent (l : Locator) : M L (option string) :=
  external (EvTextContent l) (fun w => pw_textContent P w page l).

(** page.url() *)
Definition pageUrl : M L string :=
  w <- getWorld ;; ret (pw_url P w page).

(** page.screenshot({ path, fullPage }) writes the image at [path]. *)
Definition screenshot (path : string) (fullPage : bool) : M L unit :=
  image <- external (EvScreenshot path fullPage)
                    (fun w => pw_screenshot P w page path fullPage) ;;
  modifyWorld (fun w => set_fs (<[path := File image]> (fs w)) w).
End Calls.

Definition launchOptions : LaunchOptions :=
  {| launch_headless := false;
     launch_args := [ "--no-sandbox";
                      "--disable-setuid-sandbox";
                      "--disable-dev-shm-usage";
                      "--disable-web-security";
                      "--allow-running-insecure-content" ] |}.

Definition contextOptions : ContextOptions :=
  {| viewport_width := 1280;
     viewport_height := 720;
     userAgent := "Mozilla/5.0 (Windows NT 10.0; Win64; x64) AppleWebKit/537.36 (KHTML, like Gecko) Chrome/120.0.0.0 Safari/537.36" |}.

Definition initializeBrowser (config : MediaShuttleConfig) : M unit Page :=
  emit (EvEnter MInitializeBrowser) ;;
  log LLog ["Initializing browser..."] ;;
  b <- external (EvLaunch launchOptions) (fun w => pw_launch P w launchOptions) ;;
  modifyWorld (set_browser (Some b)) ;;
  c <- external (EvNewContext contextOptions)
                (fun w => pw_newContext P w b contextOptions) ;;
  modifyWorld (set_context (Some c)) ;;
  page <- external EvNewPage (fun w => pw_newPage P w c) ;;
  emit (EvSetDefaultTimeout (default 30000%Z (timeout config))) ;;
  external (EvGoto (url config)) (fun w => pw_goto P w page (url config)) ;;
  ret page.

Definition login (page : Page) (config : MediaShuttleConfig) : M unit unit :=
  emit (EvEnter MLogin) ;;
  log LLog ["Attempting to login to Media Shuttle..."] ;;
  tryCatch
    (waitForLoadState page "domcontentloaded" ;;
     fill page (Css "#login-form-email") (username config) ;;
     click page (Role "button" "/next/i") ;;
     waitForSelector page "#login-form-password"
                     {| wait_state := Some "visible"; wait_timeout := None |} ;;
     fill page (Css "#login-form-password") (password config) ;;
     click page (Role "button" "/login|sign in|submit/i") ;;
     waitForLoadState page "networkidle" ;;
     currentUrl <- pageUrl page ;;
     (if includes currentUrl "login" || includes currentUrl "signin"
      then throw (Error "Login failed - still on login page")
      else ret tt) ;;
     log LLog ["Successfully logged in to Media Shuttle"])
    (fun error =>
       log LError ["Login failed:"; toString error] ;;
       throw (Error ("Login failed: " +:+ messageOf error))).

(** The predicate handed to page.waitForFunction, at one evaluation. *)
Definition isCompleted (topTextContent : string) : bool :=
  includes topTextContent "completed" ||
  includes topTextContent "success" ||
  includes topTextContent "finished".

(** this.logger.log(...) inside the arrow function. The function is
    serialised and evaluated in the page, where [this] is not the service
    and has no logger: the call throws, and nothing is logged. *)
Definition loggerInPage (thrown : Exn) : M unit unit := throw thrown.

(** The arrow function itself, at one evaluation in the page; [thrown] is
    what evaluating this.logger.log raises there. *)
Definition pageFunction (thrown : Exn) (seen : TopText) : M unit bool :=
  emit (EvPoll seen) ;;
  match seen with
  | NoTopText => ret false
  | TopTextContent text =>
      let topTextContent := orElse (option_map toLowerCase text) "" in
      if isCompleted topTextContent
      then loggerInPage thrown ;;
           ret true
      else ret false
  end.

(** page.waitForFunction(f, arg): [f] is evaluated at each poll that fits
    in the bound of the wait; the first truthy value resolves the wait, an
    evaluation that throws rejects it, and so does the bound elapsing. *)
Fixpoint waitForFunction (thrown : Exn) (polls : list TopText) (onTimeout : Exn)
  : M unit unit :=
  match polls with
  | [] => throw onTimeout
  | seen :: rest =>
      done <- pageFunction thrown seen ;;
      if done then ret tt else waitForFunction thrown rest onTimeout
  end.

(** The object { timeout: 300000 } is the second argument of
    page.waitForFunction, which is the argument handed to the predicate;
    the options, third, are not given. *)
Definition monitorTransferProgress (page : Page) : M unit unit :=
  emit (EvEnter MMonitorTransferProgress) ;;
  emit (EvWaitForFunction 300000 None) ;;
  w <- getWorld ;;
  waitForFunction (pw_pageError P w page) (pw_polls P w page None)
                  (pw_timeout P w page None).

Definition errorLocator : Locator :=
  First (Css (".error, .upload-error, [data-testid*=" +:+ quoted "error"
              +:+ "], #transferStatus")).

Definition waitForUploadCompletion (page : Page) : M unit unit :=
  emit (EvEnter MWaitForUploadCompletion) ;;
  log LLog ["Waiting for Media Shuttle transfer completion..."] ;;
  tryCatch
    (waitForSelector page "#transferProgressDetails"
                     {| wait_state := None; wait_timeout := Some 10000%Z |} ;;
     log LLog ["Transfer progress details found, monitoring completion..."] ;;
     monitorTransferProgress page ;;
     log LLog ["Media Shuttle transfer completed successfully"])
    (fun _ =>
       log LWarn ["Could not detect transfer completion, checking for error messages..."] ;;
       errorMessage <- tryCatch (textContent page errorLocator) (fun _ => ret None) ;;
       match errorMessage with
       | Some text =>
           if negb (String.eqb text "") && includes (toLowerCase text) "error"
           then throw (Error ("Transfer failed: " +:+ text))
           else ret tt
       | None => ret tt
       end ;;
       log LLog ["No error detected, assuming transfer completed"]).

(** locator.isVisible().catch(() => false) *)
Definition isVisibleOrFalse (page : Page) (l : Locator) : M unit bool :=
  tryCatch (isVisible page l) (fun _ => ret false).

Definition performUpload (page : Page) (filePaths : list string)
           (config : MediaShuttleConfig) : M unit unit :=
  emit (EvEnter MPerformUpload) ;;
  log LLog ["Starting file upload process..."] ;;
  tryCatch
    (let transferWithoutAppButton := Css "#mst-no-software-btn" in
     v1 <- isVisibleOrFalse page transferWithoutAppButton ;;
     when v1 (log LLog ["Found " +:+ quoted "Transfer Without App"
                        +:+ " button, clicking it..."] ;;
              click page transferWithoutAppButton) ;;
     let recipientEmailInput := Css ("input[title=" +:+ quoted "To" +:+ "]") in
     v2 <- isVisibleOrFalse page recipientEmailInput ;;
     when v2 (fill page recipientEmailInput (recipientEmail config)) ;;
     let addFilesButton := Css "#addFilesButton" in
     v3 <- isVisibleOrFalse page addFilesButton ;;
     when v3 (emit (EvWaitForEvent "filechooser") ;;
              click page addFilesButton ;;
              fileChooser <- await (fun w => pw_waitForEvent P w page "filechooser") ;;
              external (EvSetFiles filePaths)
                       (fun w => pw_setFiles P w fileChooser filePaths) ;;
              let sendButton := Css "#transferButton" in
              v4 <- isVisibleOrFalse page sendButton ;;
              when v4 (click page sendButton)) ;;
     waitForUploadCompletion page)
    (fun error =>
       log LError ["Upload process failed:"; toString error] ;;
       throw (Error ("Upload failed: " +:+ messageOf error))).

(** The try block of captureErrorScreenshot. *)
Definition takeScreenshot (page : Page) : M unit unit :=
  w <- getWorld ;;
  let screenshotPath :=
    path_join H [process_cwd H; "logs";
                 "media-shuttle-error-" +:+ pretty (Date_now H w) +:+ ".png"] in
  present <- existsSync (path_dirname H screenshotPath) ;;
  when (negb present) (mkdirSync H (path_dirname H screenshotPath)) ;;
  screenshot page screenshotPath true ;;
  log LLog ["Error screenshot saved: " +:+ screenshotPath].

Definition captureErrorScreenshot (page : Page) : M unit unit :=
  emit (EvEnter MCaptureErrorScreenshot) ;;
  tryCatch
    (takeScreenshot page)
    (fun screenshotError =>
       log LError ["Failed to capture error screenshot:"; toString screenshotError]).

(** The try block of cleanup. *)
Definition closeSession : M unit unit :=
  w <- getWorld ;;
  match this_context w with
  | Some c =>
      external EvContextClose (fun w => pw_closeContext P w c) ;;
      modifyWorld (set_context None)
  | None => ret tt
  end ;;
  w <- getWorld ;;
  match this_browser w with
  | Some b =>
      external EvBrowserClose (fun w => pw_closeBrowser P w b) ;;
      modifyWorld (set_browser None)
  | None => ret tt
  end.

Definition cleanup : M unit unit :=
  emit (EvEnter MCleanup) ;;
  tryCatch
    closeSession
    (fun error => log LError ["Error during cleanup:"; toString error]).

(** The try block of uploadToMediaShuttle; the local [page] is the
    frame's local. *)
Definition uploadAttempt (filePaths : list string) (config : MediaShuttleConfig)
  : M (option Page) UploadResult :=
  w <- getWorld ;;
  (if negb (forallb (fun filePath => bool_decide (is_Some (fs w !! filePath))) filePaths)
   then throw (Error ("Files not found: " +:+ join ", " filePaths))
   else ret tt) ;;
  log LLog ["Starting Media Shuttle upload for files: " +:+ join ", " filePaths] ;;
  p <- call (initializeBrowser config) tt ;;
  modifyLocals (fun _ => Some p) ;;
  call (login p config) tt ;;
  call (performUpload p filePaths config) tt ;;
  log LLog ["Media Shuttle upload completed successfully"] ;;
  ret {| success := true;
         message := "File uploaded to Media Shuttle successfully";
         uploadedFiles := Some (map (path_basename H) filePaths);
         error := None |}.

(** The catch block of uploadToMediaShuttle. *)
Definition uploadFailed (error : Exn) : M (option Page) UploadResult :=
  log LError ["Media Shuttle upload failed:"; toString error] ;;
  page <- getLocals ;;
  match page with
  | Some p => call (captureErrorScreenshot p) tt
  | None => ret tt
  end ;;
  ret {| success := false;
         message := "Failed to upload to Media Shuttle";
         uploadedFiles := None;
         error := Some (messageOf error) |}.

Definition uploadToMediaShuttle (filePaths : list string) (config : MediaShuttleConfig)
  : M (option Page) UploadResult :=
  tryFinally
    (tryCatch (uploadAttempt filePaths config) uploadFailed)
    (call cleanup tt).

Definition testConnection (config : MediaShuttleConfig) : M (option Page) bool :=
  tryFinally
    (tryCatch
       (p <- call (initializeBrowser config) tt ;;
        modifyLocals (fun _ => Some p) ;;
        call (login p config) tt ;;
        ret true)
       (fun error =>
          log LError ["Connection test failed:"; toString error] ;;
          ret false))
    (call cleanup tt).
End Service.

End MediaShuttleService.

(* ===================================================================== *)
(** ** media-shuttle.config.ts and the module wiring *)
(* ===================================================================== *)

Module MediaShuttleConfigFactory.

(** The object registered under the key [mediaShuttle]. *)
Record Settings := {
  url : option string;
  username : option string;
  password : option string;
  recipientEmail : option string;
  timeout : Z;
  headless : bool;
  maxRetries : Z;
  screenshotOnError : bool
}.

(** process.env, and JavaScript's Number(): [None] stands for NaN, which
    Number gives for an unset variable and for text that is no number. *)
Record Process := {
  env : string -> option string;
  Number : option string -> option Z
}.

(** [Number(x) || d]: NaN and 0 are falsy. *)
Definition numberOr (n : option Z) (d : Z) : Z :=
  match n with
  | Some v => if Z.eqb v 0 then d else v
  | None => d
  end.

(** [x === "true"] *)
Definition isTrue (x : option string) : bool :=
  match x with
  | Some s => String.eqb s "true"
  | None => false
  end.

Definition factory (p : Process) : Settings :=
  {| url := env p "MEDIA_SHUTTLE_URL";
     username := env p "MEDIA_SHUTTLE_USERNAME";
     password := env p "MEDIA_SHUTTLE_PASSWORD";
     recipientEmail := env p "MEDIA_SHUTTLE_RECIPIENT_EMAIL";
     timeout := numberOr (Number p (env p "MEDIA_SHUTTLE_TIMEOUT")) 30000;
     headless := isTrue (env p "MEDIA_SHUTTLE_HEADLESS");
     maxRetries := numberOr (Number p (env p "MEDIA_SHUTTLE_MAX_RETRIES")) 3;
     screenshotOnError := isTrue (env p "MEDIA_SHUTTLE_SCREENSHOT_ON_ERROR") |}.

(** ConfigService.get(key), for the one key the services read. *)
Definition ConfigService := string -> option Settings.

(** ConfigModule.forRoot({ load: [mediaShuttleConfig] }) *)
Definition forRoot (p : Process) : ConfigService :=
  fun key => if String.eqb key "mediaShuttle" then Some (factory p) else None.

End MediaShuttleConfigFactory.

(* ===================================================================== *)
(** ** mayo-uploader.service.ts *)
(* ===================================================================== *)

Module MayoUploaderService.

Import MediaShuttleConfigFactory.

(** interface FileData (file-downloader.interface); [data] may be absent. *)
Record FileData := {
  fileName : string;
  filePath : string;
  type : string;
  data : option Buffer;
  updatedAt : Z
}.

(** interface UploadResult (file-uploader.interface); an absent optional
    field is [None]. *)
Record UploadResult := {
  ur_fileName : string;
  success : bool;
  skipped : option bool;
  errorMessage : option string
}.

(** The locals of [upload] that its try, catch and finally blocks share. *)
Record Locals := {
  results : list UploadResult;
  tempFilePaths : list string
}.

Definition noLocals : Locals := {| results := []; tempFilePaths := [] |}.

Definition push_result (r : UploadResult) (l : Locals) : Locals :=
  {| results := results l ++ [r]; tempFilePaths := tempFilePaths l |}.

Definition push_tempFilePath (p : string) (l : Locals) : Locals :=
  {| results := results l; tempFilePaths := tempFilePaths l ++ [p] |}.

Definition isReport (file : FileData) : bool :=
  endsWith (fileName file) "_Report.docx".

Definition skippedResult (file : FileData) : UploadResult :=
  {| ur_fileName := fileName file; success := true;
     skipped := Some true; errorMessage := None |}.

Definition uploadedResult (file : FileData) : UploadResult :=
  {| ur_fileName := fileName file; success := true;
     skipped := None; errorMessage := None |}.

Definition failedResult (errorMessage : string) (file : FileData) : UploadResult :=
  {| ur_fileName := fileName file; success := false;
     skipped := None; errorMessage := Some errorMessage |}.

Section Service.
Variable H : Host.
Variable P : Playwright.
Variable configService : ConfigService.

(** The object literal returned by getMediaShuttleConfig. *)
Definition pickConfig (config : Settings) : MediaShuttleService.MediaShuttleConfig :=
  {| MediaShuttleService.url := url config;
     MediaShuttleService.username := username config;
     MediaShuttleService.password := password config;
     MediaShuttleService.headless := Some (headless config);
     MediaShuttleService.timeout := Some (timeout config);
     MediaShuttleService.recipientEmail := recipientEmail config |}.

Definition getMediaShuttleConfig {L} : M L MediaShuttleService.MediaShuttleConfig :=
  match configService "mediaShuttle" with
  | None => throw (Error "Media Shuttle configuration not found")
  | Some config => ret (pickConfig config)
  end.

(** One turn of the staging loop. *)
Definition stage (file : FileData) : M Locals unit :=
  match data file with
  | None => throw (Error ("File data is missing for " +:+ fileName file))
  | Some bytes =>
      let tempDir := os_tmpdir H in
      let tempFilePath := path_join H [tempDir; fileName file] in
      writeFileSync H tempFilePath bytes ;;
      modifyLocals (push_tempFilePath tempFilePath) ;;
      log LLog ["[MAYO] Created temp file: " +:+ fileName file]
  end.

(** One turn of the clean-up loop. *)
Definition unstage (tempFilePath : string) : M Locals unit :=
  tryCatch
    (present <- existsSync tempFilePath ;;
     when present
          (unlinkSync H tempFilePath ;;
           log LLog ["[MAYO] Cleaned up temp file: " +:+ path_basename H tempFilePath]))
    (fun cleanupError =>
       log LWarn ["[MAYO] Failed to cleanup temp file " +:+ path_basename H tempFilePath
                  +:+ ": " +:+ toString cleanupError]).

Definition reportFiles (files : list FileData) : list FileData :=
  List.filter isReport files.

Definition skippedFiles (files : list FileData) : list FileData :=
  List.filter (fun file => negb (isReport file)) files.

(** Lines 26 to 40: the two opening log lines. *)
Definition announce (files : list FileData) : M Locals unit :=
  log LLog ["[MAYO] Uploading " +:+ pretty (length files) +:+ " files via Media Shuttle"] ;;
  when (0 <? length (skippedFiles files))%nat
       (log LLog ["[MAYO] Skipping " +:+ pretty (length (skippedFiles files))
                  +:+ " non-report files: "
                  +:+ join ", " (map fileName (skippedFiles files))]).

(** Lines 53 to 55. *)
Definition announceReports (files : list FileData) : M Locals unit :=
  log LLog ["[MAYO] Uploading " +:+ pretty (length (reportFiles files))
            +:+ " report files (filtered from " +:+ pretty (length files)
            +:+ " total files)"].

(** Lines 64 to 80: the staging loop and the log line after it. *)
Definition stageReports (files : list FileData) : M Locals unit :=
  forOf (reportFiles files) stage ;;
  l <- getLocals ;;
  log LLog ["[MAYO] Starting batch upload of "
            +:+ pretty (length (tempFilePaths l)) +:+ " files"].

(** Lines 86 to 106: one result per report file, from the one answer. *)
Definition spread (files : list FileData)
           (uploadResult : MediaShuttleService.UploadResult) : M Locals unit :=
  if MediaShuttleService.success uploadResult then
    forOf (reportFiles files)
          (fun file => modifyLocals (push_result (uploadedResult file))) ;;
    log LLog ["[MAYO] Successfully uploaded all "
              +:+ pretty (length (reportFiles files)) +:+ " report files"]
  else
    let errorMessage :=
      orElse (MediaShuttleService.error uploadResult) "Batch upload failed" in
    forOf (reportFiles files)
          (fun file => modifyLocals (push_result (failedResult errorMessage file))) ;;
    log LError ["[MAYO] Batch upload failed: " +:+ errorMessage].

(** The try block of upload. *)
Definition uploadReports (files : list FileData)
           (mediaShuttleConfig : MediaShuttleService.MediaShuttleConfig) : M Locals unit :=
  stageReports files ;;
  l <- getLocals ;;
  uploadResult <- call (MediaShuttleService.uploadToMediaShuttle
                          H P (tempFilePaths l) mediaShuttleConfig) None ;;
  spread files uploadResult.

(** The catch block of upload. *)
Definition reportsFailed (files : list FileData) (error : Exn) : M Locals unit :=
  let errorMessage := messageOf error in
  log LError ["[MAYO] Failed to upload files: " +:+ errorMessage] ;;
  forOf (reportFiles files)
        (fun file => modifyLocals (push_result (failedResult errorMessage file))).

(** The finally block of upload. *)
Definition removeStaged : M Locals unit :=
  l <- getLocals ;;
  forOf (tempFilePaths l) unstage.

Definition upload (files : list FileData) : M Locals (list UploadResult) :=
  announce files ;;
  if (length (reportFiles files) =? 0)%nat then
    log LLog ["[MAYO] No files ending with '_Report.docx' found. Skipping upload."] ;;
    ret (map skippedResult (skippedFiles files))
  else
    announceReports files ;;
    mediaShuttleConfig <- getMediaShuttleConfig ;;
    tryFinally
      (tryCatch (uploadReports files mediaShuttleConfig) (reportsFailed files))
      removeStaged ;;
    forOf (skippedFiles files)
          (fun file => modifyLocals (push_result (skippedResult file))) ;;
    l <- getLocals ;;
    let successCount := length (List.filter success (results l)) in
    log LLog ["[MAYO] Upload completed: " +:+ pretty successCount +:+ "/"
              +:+ pretty (length files) +:+ " files succeeded ("
              +:+ pretty (length (reportFiles files)) +:+ " uploaded, "
              +:+ pretty (length (skippedFiles files)) +:+ " skipped)"] ;;
    ret (results l).
End Service.

End MayoUploaderService.

(* ===================================================================== *)
(** ** mayo-downloader.service.ts *)
(* ===================================================================== *)

Module MayoDownloaderService.

Import MayoUploaderService.

(** A JavaScript Date: its time value in milliseconds, or [None] for an
    Invalid Date. *)
Definition JsDate := option Z.

Section Service.
Variable H : Host.

(** Date.prototype.toISOString: the text is the runtime's business, the
    RangeError on an Invalid Date is the code's. *)
Variable isoText : Z -> string.

Definition toISOString {L} (d : JsDate) : M L string :=
  match d with
  | Some t => ret (isoText t)
  | None => throw (Error "Invalid time value")
  end.

(** The mock list built inside the try block; [now] is new Date(). *)
Definition mockFiles (now : Z) : list FileData :=
  [ {| fileName := "mayo_file_01.txt";
       filePath := "mayo/input/mayo_file_01.txt";
       type := "MAYO";
       data := Some (list_byte_of_string "Mock MAYO file content");
       updatedAt := (now - 1000 * 60 * 60)%Z |} ].

Definition download (lastSyncTime : JsDate) : M unit (list FileData) :=
  iso <- toISOString lastSyncTime ;;
  log LLog ["[MAYO] Downloading files updated after " +:+ iso] ;;
  tryCatch
    (w <- getWorld ;;
     let now := Date_now H w in
     let files := mockFiles now in
     log LLog ["[MAYO] Downloaded " +:+ pretty (length files) +:+ " files"] ;;
     ret files)
    (fun error =>
       let errorMessage := messageOf error in
       log LError ["[MAYO] Download failed: " +:+ errorMessage] ;;
       throw error).
End Service.

End MayoDownloaderService.

(* ===================================================================== *)
(** ** Concrete hosts, portals and batches *)
(* ===================================================================== *)

Module Scenario.

Import MayoUploaderService.

(** path.basename and path.dirname on POSIX paths without a trailing slash. *)
Fixpoint basename (s : string) : string :=
  match s with
  | EmptyString => EmptyString
  | String _ rest => if includes s "/" then basename rest else s
  end.

Fixpoint dirname (s : string) : string :=
  match s with
  | EmptyString => EmptyString
  | String c rest => if includes rest "/" then String c (dirname rest) else EmptyString
  end.

(** A POSIX host with a healthy disk; path.join of normalised segments. *)
Definition posix : Host :=
  {| os_tmpdir := "/tmp";
     process_cwd := "/app";
     path_join := join "/";
     path_basename := basename;
     path_dirname := dirname;
     Date_now := fun _ => 1700000000000%Z;
     writeFileSync_error := fun _ _ => None;
     unlinkSync_error := fun _ _ => None;
     mkdirSync_error := fun _ _ => None |}.

(** The same host with a disk that refuses to take screenshots' directory. *)
Definition readOnlyLogs : Host :=
  {| os_tmpdir := "/tmp";
     process_cwd := "/app";
     path_join := join "/";
     path_basename := basename;
     path_dirname := dirname;
     Date_now := fun _ => 1700000000000%Z;
     writeFileSync_error := fun _ _ => None;
     unlinkSync_error := fun _ _ => None;
     mkdirSync_error := fun _ _ => Some (Error "EACCES: permission denied, mkdir '/app/logs'") |}.

(** A portal on which every step succeeds and the status text reaches
    "Transfer Completed" at the third poll. *)
Definition portalUp : Playwright :=
  {| pw_launch := fun _ _ => Normal {| browser_id := 1 |};
     pw_newContext := fun _ _ _ => Normal {| context_id := 1 |};
     pw_newPage := fun _ _ => Normal {| page_id := 1 |};
     pw_goto := fun _ _ _ => Normal tt;
     pw_waitForLoadState := fun _ _ _ => Normal tt;
     pw_fill := fun _ _ _ _ => Normal tt;
     pw_click := fun _ _ _ => Normal tt;
     pw_waitForSelector := fun _ _ _ _ => Normal tt;
     pw_url := fun _ _ => "https://portal.example/send";
     pw_isVisible := fun _ _ _ => Normal true;
     pw_waitForEvent := fun _ _ _ => Normal {| chooser_id := 1 |};
     pw_setFiles := fun _ _ _ => Normal tt;
     pw_polls := fun _ _ _ => [NoTopText;
                               TopTextContent (Some "Uploading 40%");
                               TopTextContent (Some "Transfer Completed");
                               TopTextContent (Some "Transfer Completed")];
     pw_timeout := fun _ _ _ => Error "page.waitForFunction: Timeout 30000ms exceeded.";
     pw_pageError := fun _ _ =>
       Error "page.waitForFunction: TypeError: Cannot read properties of undefined (reading 'log')";
     pw_textContent := fun _ _ _ => Normal None;
     pw_screenshot := fun _ _ _ _ => Normal [];
     pw_closeContext := fun _ _ => Normal tt;
     pw_closeBrowser := fun _ _ => Normal tt |}.

(** A machine on which the browser cannot be launched. *)
Definition noBrowser : Playwright :=
  {| pw_launch := fun _ _ => Throw (Error "browserType.launch: Executable doesn't exist");
     pw_newContext := pw_newContext portalUp;
     pw_newPage := pw_newPage portalUp;
     pw_goto := pw_goto portalUp;
     pw_waitForLoadState := pw_waitForLoadState portalUp;
     pw_fill := pw_fill portalUp;
     pw_click := pw_click portalUp;
     pw_waitForSelector := pw_waitForSelector portalUp;
     pw_url := pw_url portalUp;
     pw_isVisible := pw_isVisible portalUp;
     pw_waitForEvent := pw_waitForEvent portalUp;
     pw_setFiles := pw_setFiles portalUp;
     pw_polls := pw_polls portalUp;
     pw_timeout := pw_timeout portalUp;
     pw_pageError := pw_pageError portalUp;
     pw_textContent := pw_textContent portalUp;
     pw_screenshot := pw_screenshot portalUp;
     pw_closeContext := pw_closeContext portalUp;
     pw_closeBrowser := pw_closeBrowser portalUp |}.

(** A portal that keeps the user on the sign-in page. *)
Definition loginRefused : Playwright :=
  {| pw_launch := pw_launch portalUp;
     pw_newContext := pw_newContext portalUp;
     pw_newPage := pw_newPage portalUp;
     pw_goto := pw_goto portalUp;
     pw_waitForLoadState := pw_waitForLoadState portalUp;
     pw_fill := pw_fill portalUp;
     pw_click := pw_click portalUp;
     pw_waitForSelector := pw_waitForSelector portalUp;
     pw_url := fun _ _ => "https://portal.example/login?retry=1";
     pw_isVisible := pw_isVisible portalUp;
     pw_waitForEvent := pw_waitForEvent portalUp;
     pw_setFiles := pw_setFiles portalUp;
     pw_polls := pw_polls portalUp;
     pw_timeout := pw_timeout portalUp;
     pw_pageError := pw_pageError portalUp;
     pw_textContent := pw_textContent portalUp;
     pw_screenshot := pw_screenshot portalUp;
     pw_closeContext := pw_closeContext portalUp;
     pw_closeBrowser := pw_closeBrowser portalUp |}.

(** A portal whose progress panel never shows, with the given error text. *)
Definition noProgress (errorText : Result (option string)) : Playwright :=
  {| pw_launch := pw_launch portalUp;
     pw_newContext := pw_newContext portalUp;
     pw_newPage := pw_newPage portalUp;
     pw_goto := pw_goto portalUp;
     pw_waitForLoadState := pw_waitForLoadState portalUp;
     pw_fill := pw_fill portalUp;
     pw_click := pw_click portalUp;
     pw_waitForSelector := fun _ _ selector _ =>
       if String.eqb selector "#transferProgressDetails"
       then Throw (Error "page.waitForSelector: Timeout 10000ms exceeded.")
       else Normal tt;
     pw_url := pw_url portalUp;
     pw_isVisible := pw_isVisible portalUp;
     pw_waitForEvent := pw_waitForEvent portalUp;
     pw_setFiles := pw_setFiles portalUp;
     pw_polls := pw_polls portalUp;
     pw_timeout := pw_timeout portalUp;
     pw_pageError := pw_pageError portalUp;
     pw_textContent := fun _ _ _ => errorText;
     pw_screenshot := pw_screenshot portalUp;
     pw_closeContext := pw_closeContext portalUp;
     pw_closeBrowser := pw_closeBrowser portalUp |}.

Definition emptyWorld : World :=
  {| fs := ∅; this_browser := None; this_context := None; trace := [] |}.

(** The disk once the report has been staged. *)
Definition stagedWorld : World :=
  {| fs := {[ "/tmp/x_Report.docx" := File [Byte.x50; Byte.x4b] ]};
     this_browser := None; this_context := None; trace := [] |}.

Definition process : MediaShuttleConfigFactory.Process :=
  {| MediaShuttleConfigFactory.env := fun name =>
       if String.eqb name "MEDIA_SHUTTLE_URL" then Some "https://portal.example"
       else if String.eqb name "MEDIA_SHUTTLE_HEADLESS" then Some "true"
       else None;
     MediaShuttleConfigFactory.Number := fun _ => None |}.

Definition configured : MediaShuttleConfigFactory.ConfigService :=
  MediaShuttleConfigFactory.forRoot process.

Definition unconfigured : MediaShuttleConfigFactory.ConfigService := fun _ => None.

Definition config : MediaShuttleService.MediaShuttleConfig :=
  {| MediaShuttleService.url := Some "https://portal.example";
     MediaShuttleService.username := Some "user";
     MediaShuttleService.password := Some "secret";
     MediaShuttleService.recipientEmail := Some "to@example.org";
     MediaShuttleService.headless := Some true;
     MediaShuttleService.timeout := None |}.

Definition file (name : string) (bytes : option Buffer) : FileData :=
  {| fileName := name; filePath := "mayo/input/" +:+ name; type := "MAYO";
     data := bytes; updatedAt := 0 |}.

Definition report : FileData := file "x_Report.docx" (Some [Byte.x50; Byte.x4b]).
Definition notes : FileData := file "notes.txt" (Some [Byte.x68; Byte.x69]).
Definition emptyReport : FileData := file "y_Report.docx" None.

(** Another file of the same name, from another folder. *)
Definition reportAgain : FileData :=
  {| fileName := "x_Report.docx"; filePath := "mayo/archive/x_Report.docx";
     type := "MAYO"; data := Some [Byte.x00]; updatedAt := 1 |}.

End Scenario.

(* ===================================================================== *)
(** ** Observations on traces *)
(* ===================================================================== *)

#[global] Instance Method_eq_dec : EqDecision Method.
Proof. solve_decision. Defined.

(** The marker left when method [m] of MediaShuttleService is entered. *)
Definition isEnter (m : Method) (e : Event) : bool :=
  match e with
  | EvEnter m' => bool_decide (m = m')
  | _ => false
  end.

(** How many times [m] was invoked in a stretch of trace. *)
Definition calls (m : Method) (evs : list Event) : nat :=
  length (List.filter (isEnter m) evs).

Definition isLog (e : Event) : bool :=
  match e with
  | EvLog _ _ => true
  | _ => false
  end.

(** Log lines and disk operations: nothing of the browser session. *)
Definition isLogOrDisk (e : Event) : bool :=
  match e with
  | EvLog _ _ | EvWriteFile _ _ | EvUnlink _ | EvMkdir _ => true
  | _ => false
  end.

(** Every launch recorded asks for a headful browser. *)
Definition launchesHeadful (e : Event) : bool :=
  match e with
  | EvLaunch opts => negb (launch_headless opts)
  | _ => true
  end.

Definition isLaunch (e : Event) : bool :=
  match e with
  | EvLaunch _ => true
  | _ => false
  end.


(* ===================================================================== *)
(** ** Vocabulary of the statements *)
(* ===================================================================== *)

Section OrchestratorVocabulary.
Import MediaShuttleService.

(** The two answers uploadToMediaShuttle can give. *)
Definition succeeded (H : Host) (filePaths : list string) : UploadResult :=
  {| success := true;
     message := "File uploaded to Media Shuttle successfully";
     uploadedFiles := Some (map (path_basename H) filePaths);
     error := None |}.

Definition failed (e : Exn) : UploadResult :=
  {| success := false;
     message := "Failed to upload to Media Shuttle";
     uploadedFiles := None;
     error := Some (messageOf e) |}.

(** The configuration with its headless flag replaced. *)
Definition withHeadless (h : option bool) (config : MediaShuttleConfig) : MediaShuttleConfig :=
  {| url := url config; username := username config; password := password config;
     recipientEmail := recipientEmail config; headless := h; timeout := timeout config |}.


(** Whether uploadToMediaShuttle got its page: every file path exists, and
    initializeBrowser, entered after the opening log line, returned one. *)
Definition pageAcquired (H : Host) (P : Playwright) (filePaths : list string)
           (config : MediaShuttleConfig) (w : World) : option Page :=
  if forallb (fun filePath => bool_decide (is_Some (fs w !! filePath))) filePaths
  then match res (initializeBrowser P config tt
                    (record (EvLog LLog ["Starting Media Shuttle upload for files: "
                                         +:+ join ", " filePaths]) w)) with
       | Normal page => Some page
       | Throw _ => None
       end
  else None.
End OrchestratorVocabulary.

(** process.env with one variable set (or unset, with [None]). *)
Definition withEnv (name : string) (value : option string)
           (p : MediaShuttleConfigFactory.Process) : MediaShuttleConfigFactory.Process :=
  {| MediaShuttleConfigFactory.env :=
       fun n => if String.eqb n name then value else MediaShuttleConfigFactory.env p n;
     MediaShuttleConfigFactory.Number := MediaShuttleConfigFactory.Number p |}.

(** The value a call completed with, if it completed normally. *)
Definition res_value {A} (r : Result A) : option A :=
  match r with
  | Normal a => Some a
  | Throw _ => None
  end.

(** The world after the events [evs] have been recorded. *)
Definition after (evs : list Event) (w : World) : World :=
  fold_left (fun w e => record e w) evs w.

(** [text] mentions [marker], whatever the case of its letters. *)
Definition mentions (text marker : string) : bool :=
  includes (toLowerCase text) marker.

(** The status text shows a terminal marker. *)
Definition isTerminal (seen : TopText) : bool :=
  match seen with
  | TopTextContent (Some text) =>
      mentions text "completed" || mentions text "success" || mentions text "finished"
  | _ => false
  end.

(** What polling records: every poll up to the first terminal one. *)
Fixpoint pollEvents (polls : list TopText) : list Event :=
  match polls with
  | [] => []
  | seen :: rest =>
      EvPoll seen :: if isTerminal seen then [] else pollEvents rest
  end.

(** The second tier: fail with the error text when it mentions "error",
    otherwise assume the transfer completed. *)
Definition fallback (errorText : Result (option string)) : Result unit :=
  match errorText with
  | Normal (Some text) =>
      if mentions text "error"
      then Throw (Error ("Transfer failed: " +:+ text))
      else Normal tt
  | _ => Normal tt
  end.

Import MayoUploaderService.

(** What the batch means for each report file: uploaded, or failed with a
    message. *)
Definition resultFor (verdict : option string) (file : FileData) : UploadResult :=
  match verdict with
  | None => uploadedResult file
  | Some errorMessage => failedResult errorMessage file
  end.

(** The temporary path of a report file. *)
Definition stagedPath (H : Host) (file : FileData) : string :=
  path_join H [os_tmpdir H; fileName file].

Definition missing (file : FileData) : bool :=
  match data file with
  | Some _ => false
  | None => true
  end.

(** The world in which the try block of [upload] starts. *)
Definition atStaging (files : list FileData) (w : World) : World :=
  wld ((announce files ;; announceReports files) noLocals w).

(** The verdict on the batch, from the state in which the try block starts:
    the message of what staging threw, or what uploadToMediaShuttle
    answered for the staged paths. *)
Definition verdict (H : Host) (P : Playwright) (files : list FileData)
           (config : MediaShuttleService.MediaShuttleConfig)
           (l : Locals) (w : World) : option string :=
  let staged := stageReports H files l w in
  match res staged with
  | Throw e => Some (messageOf e)
  | Normal _ =>
      match res (MediaShuttleService.uploadToMediaShuttle
                   H P (tempFilePaths (loc staged)) config None (wld staged)) with
      | Normal answer =>
          if MediaShuttleService.success answer then None
          else Some (orElse (MediaShuttleService.error answer) "Batch upload failed")
      | Throw e => Some (messageOf e)
      end
  end.

(** The try/catch/finally statement of [upload]. *)
Definition batch (H : Host) (P : Playwright) (files : list FileData)
           (config : MediaShuttleService.MediaShuttleConfig) : M Locals unit :=
  tryFinally (tryCatch (uploadReports H P files config) (reportsFailed files))
             (removeStaged H).

Definition isWrite (e : Event) : bool :=
  match e with
  | EvWriteFile _ _ => true
  | _ => false
  end.

Definition missingMessage (file : FileData) : string :=
  "File data is missing for " +:+ fileName file.

(* ===================================================================== *)
(** ** Further observations and scenarios *)
(* ===================================================================== *)

(** How many browser launches a stretch of trace records. *)
Definition launches (evs : list Event) : nat := length (List.filter isLaunch evs).

(** Every file-chooser answer recorded carries exactly [paths]. *)
Definition attaches (paths : list string) (e : Event) : bool :=
  match e with
  | EvSetFiles given => bool_decide (given = paths)
  | _ => true
  end.

(** Every default timeout recorded is [ms]. *)
Definition setsTimeout (ms : Z) (e : Event) : bool :=
  match e with
  | EvSetDefaultTimeout given => Z.eqb given ms
  | _ => true
  end.

(** No screenshot is attempted. *)
Definition noScreenshot (e : Event) : bool :=
  match e with
  | EvScreenshot _ _ | EvEnter MCaptureErrorScreenshot => false
  | _ => true
  end.

(** Whether every staged path is on the disk, as uploadToMediaShuttle
    checks it. *)
Definition allExist (w : World) (filePaths : list string) : bool :=
  forallb (fun filePath => bool_decide (is_Some (fs w !! filePath))) filePaths.


(** What performUpload records when none of its controls is visible. *)
Definition visibilityChecks : list Event :=
  [ EvEnter MPerformUpload;
    EvLog LLog ["Starting file upload process..."];
    EvIsVisible (Css "#mst-no-software-btn");
    EvIsVisible (Css ("input[title=" +:+ quoted "To" +:+ "]"));
    EvIsVisible (Css "#addFilesButton") ].

(** The catch block of performUpload. *)
Definition uploadProcessFailed (error : Exn) : M unit unit :=
  log LError ["Upload process failed:"; toString error] ;;
  throw (Error ("Upload failed: " +:+ messageOf error)).

(** What uploadToMediaShuttle has recorded when it asks for the browser. *)
Definition launchSteps (filePaths : list string) : list Event :=
  [ EvLog LLog ["Starting Media Shuttle upload for files: " +:+ join ", " filePaths];
    EvEnter MInitializeBrowser;
    EvLog LLog ["Initializing browser..."];
    EvLaunch MediaShuttleService.launchOptions ].

(** The page default timeout the configuration factory leads to. *)
Definition factoryTimeout (p : MediaShuttleConfigFactory.Process) : Z :=
  MediaShuttleConfigFactory.numberOr
    (MediaShuttleConfigFactory.Number p
       (MediaShuttleConfigFactory.env p "MEDIA_SHUTTLE_TIMEOUT"))
    30000.

(** What the user does on the upload form: clicks, text typed, files given. *)
Definition isFormInput (e : Event) : bool :=
  match e with
  | EvClick _ | EvFill _ _ | EvWaitForEvent _ | EvSetFiles _ => true
  | _ => false
  end.

Definition isSetFiles (e : Event) : bool :=
  match e with
  | EvSetFiles _ => true
  | _ => false
  end.

(** What cleanup records after its marker: the two closes, and the error
    it logs. *)
Definition isClosing (e : Event) : bool :=
  match e with
  | EvContextClose | EvBrowserClose | EvLog LError _ => true
  | _ => false
  end.

(** How many times a browser was asked to close. *)
Definition browserCloses (evs : list Event) : nat :=
  length (List.filter (fun e => match e with EvBrowserClose => true | _ => false end) evs).

(** The browser uploadToMediaShuttle gets when it is called in world [w]:
    none if a file path is missing or the launch fails. *)
Definition launched (P : Playwright) (filePaths : list string) (w : World)
  : option Browser :=
  if allExist w filePaths
  then res_value (pw_launch P (after (launchSteps filePaths) w)
                            MediaShuttleService.launchOptions)
  else None.

(** The browser handle of the service is as it was. *)
Definition sameBrowser (w w' : World) : Prop := this_browser w' = this_browser w.

(** Where captureErrorScreenshot puts its image, asked at world [w]. *)
Definition screenshotPath (H : Host) (w : World) : string :=
  path_join H [process_cwd H; "logs";
               "media-shuttle-error-" +:+ pretty (Date_now H w) +:+ ".png"].

(** [m] takes every world to one related to it by [R]. *)
Definition keeps {L A} (R : World -> World -> Prop) (m : M L A) : Prop :=
  forall l w, R w (wld (m l w)).

(** The disk and the two handles of the service are as they were. *)
Definition sameState (w w' : World) : Prop :=
  fs w' = fs w /\ this_browser w' = this_browser w /\ this_context w' = this_context w.

(** Whatever was on the disk is still there (possibly with new content). *)
Definition noFileLost (w w' : World) : Prop :=
  forall p, is_Some (fs w !! p) -> is_Some (fs w' !! p).

(** The path [p] is still on the disk if it was. *)
Definition stillThere (p : string) (w w' : World) : Prop :=
  is_Some (fs w !! p) -> is_Some (fs w' !! p).

(** The report file whose content is at path [p] once [files] have been
    staged in order: the last one staged there. *)
Definition lastStaged (H : Host) (p : string) (files : list FileData) : option FileData :=
  List.find (fun file => String.eqb (stagedPath H file) p) (rev files).

(** The try block of performUpload. *)
Definition uploadSteps (P : Playwright) (page : Page) (filePaths : list string)
           (config : MediaShuttleService.MediaShuttleConfig) : M unit unit :=
  let transferWithoutAppButton := Css "#mst-no-software-btn" in
  v1 <- MediaShuttleService.isVisibleOrFalse P page transferWithoutAppButton ;;
  when v1 (log LLog ["Found " +:+ quoted "Transfer Without App"
                     +:+ " button, clicking it..."] ;;
           MediaShuttleService.click P page transferWithoutAppButton) ;;
  let recipientEmailInput := Css ("input[title=" +:+ quoted "To" +:+ "]") in
  v2 <- MediaShuttleService.isVisibleOrFalse P page recipientEmailInput ;;
  when v2 (MediaShuttleService.fill P page recipientEmailInput
                                    (MediaShuttleService.recipientEmail config)) ;;
  let addFilesButton := Css "#addFilesButton" in
  v3 <- MediaShuttleService.isVisibleOrFalse P page addFilesButton ;;
  when v3 (emit (EvWaitForEvent "filechooser") ;;
           MediaShuttleService.click P page addFilesButton ;;
           fileChooser <- await (fun w => pw_waitForEvent P w page "filechooser") ;;
           external (EvSetFiles filePaths)
                    (fun w => pw_setFiles P w fileChooser filePaths) ;;
           let sendButton := Css "#transferButton" in
           v4 <- MediaShuttleService.isVisibleOrFalse P page sendButton ;;
           when v4 (MediaShuttleService.click P page sendButton)) ;;
  MediaShuttleService.waitForUploadCompletion P page.

(** The try block of testConnection. *)
Definition connectionAttempt (P : Playwright)
           (config : MediaShuttleService.MediaShuttleConfig) : M (option Page) bool :=
  p <- call (MediaShuttleService.initializeBrowser P config) tt ;;
  modifyLocals (fun _ => Some p) ;;
  call (MediaShuttleService.login P p config) tt ;;
  ret true.

Module MoreScenarios.

Import Scenario.

(** A portal on which no control of the upload form is there. *)
Definition bareForm : Playwright :=
  {| pw_launch := pw_launch portalUp;
     pw_newContext := pw_newContext portalUp;
     pw_newPage := pw_newPage portalUp;
     pw_goto := pw_goto portalUp;
     pw_waitForLoadState := pw_waitForLoadState portalUp;
     pw_fill := pw_fill portalUp;
     pw_click := pw_click portalUp;
     pw_waitForSelector := pw_waitForSelector (noProgress (Normal None));
     pw_url := pw_url portalUp;
     pw_isVisible := fun _ _ _ => Normal false;
     pw_waitForEvent := pw_waitForEvent portalUp;
     pw_setFiles := pw_setFiles portalUp;
     pw_polls := pw_polls portalUp;
     pw_timeout := pw_timeout portalUp;
     pw_pageError := pw_pageError portalUp;
     pw_textContent := fun _ _ _ => Normal None;
     pw_screenshot := pw_screenshot portalUp;
     pw_closeContext := pw_closeContext portalUp;
     pw_closeBrowser := pw_closeBrowser portalUp |}.

(** A browser whose context refuses to close. *)
Definition contextStuck : Playwright :=
  {| pw_launch := pw_launch portalUp;
     pw_newContext := pw_newContext portalUp;
     pw_newPage := pw_newPage portalUp;
     pw_goto := pw_goto portalUp;
     pw_waitForLoadState := pw_waitForLoadState portalUp;
     pw_fill := pw_fill portalUp;
     pw_click := pw_click portalUp;
     pw_waitForSelector := pw_waitForSelector portalUp;
     pw_url := pw_url portalUp;
     pw_isVisible := pw_isVisible portalUp;
     pw_waitForEvent := pw_waitForEvent portalUp;
     pw_setFiles := pw_setFiles portalUp;
     pw_polls := pw_polls portalUp;
     pw_timeout := pw_timeout portalUp;
     pw_pageError := pw_pageError portalUp;
     pw_textContent := pw_textContent portalUp;
     pw_screenshot := pw_screenshot portalUp;
     pw_closeContext := fun _ _ => Throw (Error "browserContext.close: Target closed");
     pw_closeBrowser := pw_closeBrowser portalUp |}.

(** A world in which a session is open. *)
Definition openSession : World :=
  {| fs := ∅;
     this_browser := Some {| browser_id := 1 |};
     this_context := Some {| context_id := 1 |};
     trace := [] |}.

(** A disk that refuses every write. *)
Definition diskFull : Host :=
  {| os_tmpdir := "/tmp";
     process_cwd := "/app";
     path_join := join "/";
     path_basename := basename;
     path_dirname := dirname;
     Date_now := fun _ => 1700000000000%Z;
     writeFileSync_error := fun _ _ => Some (Error "ENOSPC: no space left on device, write");
     unlinkSync_error := fun _ _ => None;
     mkdirSync_error := fun _ _ => None |}.

(** A portal whose status text reaches "Transfer Completed" at the second
    poll, and whose status element then reads "Transfer Completed, 0
    errors". *)
Definition statusDone : Playwright :=
  {| pw_launch := pw_launch portalUp;
     pw_newContext := pw_newContext portalUp;
     pw_newPage := pw_newPage portalUp;
     pw_goto := pw_goto portalUp;
     pw_waitForLoadState := pw_waitForLoadState portalUp;
     pw_fill := pw_fill portalUp;
     pw_click := pw_click portalUp;
     pw_waitForSelector := pw_waitForSelector portalUp;
     pw_url := pw_url portalUp;
     pw_isVisible := pw_isVisible portalUp;
     pw_waitForEvent := pw_waitForEvent portalUp;
     pw_setFiles := pw_setFiles portalUp;
     pw_polls := fun _ _ _ => [TopTextContent (Some "Uploading 40%");
                               TopTextContent (Some "Transfer Completed")];
     pw_timeout := pw_timeout portalUp;
     pw_pageError := pw_pageError portalUp;
     pw_textContent := fun _ _ _ => Normal (Some "Transfer Completed, 0 errors");
     pw_screenshot := pw_screenshot portalUp;
     pw_closeContext := pw_closeContext portalUp;
     pw_closeBrowser := pw_closeBrowser portalUp |}.

End MoreScenarios.

(* ===================================================================== *)
(** ** Reasoning about the monad *)
(* ===================================================================== *)

(** Symbolic execution of the combinators. *)
Ltac run :=
  cbn [bind ret throw tryCatch tryFinally getWorld modifyWorld getLocals
       modifyLocals external await emit log call when
       res loc wld record set_fs set_browser set_context
       trace fs this_browser this_context] in *.

(** Case analysis on the innermost pending answer of the outside world. *)
Ltac case_answer :=
  match goal with
  | |- context [match ?x with Normal _ => _ | Throw _ => _ end] =>
      lazymatch x with
      | context [match _ with _ => _ end] => fail
      | _ => destruct x as [?|?] eqn:?
      end
  end; run.

Section Emits.
Context {L : Type}.
Variable q : Event -> bool.

(** [m] only adds to the trace, and only events that satisfy [q]. *)
Definition emits {A} (m : M L A) : Prop :=
  forall l w, exists evs,
    trace (wld (m l w)) = trace w ++ evs /\ forallb q evs = true.

Lemma emits_nothing {A} (m : M L A) :
  (forall l w, trace (wld (m l w)) = trace w) -> emits m.
Proof.
    intros Hm l w. exists []. rewrite Hm, app_nil_r. auto.
Qed.

Lemma emits_ret {A} (a : A) : emits (ret a).
Proof. apply emits_nothing; reflexivity. Qed.

Lemma emits_throw {A} e : emits (throw (A := A) e).
Proof. apply emits_nothing; reflexivity. Qed.

Lemma emits_getWorld : emits getWorld.
Proof. apply emits_nothing; reflexivity. Qed.

Lemma emits_getLocals : emits getLocals.
Proof. apply emits_nothing; reflexivity. Qed.

Lemma emits_modifyLocals f : emits (modifyLocals f).
Proof. apply emits_nothing; reflexivity. Qed.

Lemma emits_await {A} (o : World -> Result A) : emits (await o).
Proof. apply emits_nothing; reflexivity. Qed.

Lemma emits_modifyWorld f :
  (forall w, trace (f w) = trace w) -> emits (modifyWorld f).
Proof. intros Hf. apply emits_nothing. intros; apply Hf. Qed.

Lemma emits_external {A} e (o : World -> Result A) :
  q e = true -> emits (external e o).
Proof.
    intros He l w. exists [e]. run. split; [reflexivity|].
    simpl. rewrite He. reflexivity.
Qed.

Lemma emits_emit e : q e = true -> emits (emit e).
Proof.
    intros He l w. exists [e]. run. split; [reflexivity|].
    simpl. rewrite He. reflexivity.
Qed.

Lemma emits_log lvl msg : q (EvLog lvl msg) = true -> emits (log lvl msg).
Proof. apply emits_emit. Qed.

Lemma emits_bind {A B} (m : M L A) (k : A -> M L B) :
  emits m -> (forall a, emits (k a)) -> emits (bind m k).
Proof.
    intros Hm Hk l w. unfold bind.
    destruct (Hm l w) as (evs1 & E1 & F1).
    destruct (res (m l w)) as [a|e].
    - destruct (Hk a (loc (m l w)) (wld (m l w))) as (evs2 & E2 & F2).
      exists (evs1 ++ evs2). rewrite E2, E1, app_assoc, forallb_app, F1, F2. auto.
    - exists evs1. auto.
Qed.

Lemma emits_tryCatch {A} (m : M L A) (h : Exn -> M L A) :
  emits m -> (forall e, emits (h e)) -> emits (tryCatch m h).
Proof.
    intros Hm Hh l w. unfold tryCatch.
    destruct (Hm l w) as (evs1 & E1 & F1).
    destruct (res (m l w)) as [a|e].
    - exists evs1. auto.
    - destruct (Hh e (loc (m l w)) (wld (m l w))) as (evs2 & E2 & F2).
      exists (evs1 ++ evs2). rewrite E2, E1, app_assoc, forallb_app, F1, F2. auto.
Qed.

Lemma emits_tryFinally {A} (m : M L A) (f : M L unit) :
  emits m -> emits f -> emits (tryFinally m f).
Proof.
    intros Hm Hf l w. unfold tryFinally.
    destruct (Hm l w) as (evs1 & E1 & F1).
    destruct (Hf (loc (m l w)) (wld (m l w))) as (evs2 & E2 & F2).
    exists (evs1 ++ evs2).
    destruct (res (f (loc (m l w)) (wld (m l w)))); run;
      rewrite E2, E1, app_assoc, forallb_app, F1, F2; auto.
Qed.

Lemma emits_when b (m : M L unit) : emits m -> emits (when b m).
Proof. intros Hm. destruct b; [exact Hm | apply emits_ret]. Qed.

Lemma emits_forOf {A} (xs : list A) (body : A -> M L unit) :
  (forall x, emits (body x)) -> emits (forOf xs body).
Proof.
    intros Hb. induction xs as [|x xs IH]; simpl.
    - apply emits_ret.
    - apply emits_bind; [apply Hb | intros _; exact IH].
Qed.
End Emits.

Lemma emits_call {L L' A} q (m : M L' A) (init : L') :
  emits q m -> emits (L := L) q (call m init).
Proof.
  intros Hm l w. destruct (Hm init w) as (evs & E & F).
  exists evs. run. auto.
Qed.

(** Structural proof of [emits q m]: follow the code, and check [q] by
    evaluation at every event the code records. *)
Ltac emits_leaf :=
  first
    [ apply emits_ret | apply emits_throw | apply emits_getWorld
    | apply emits_getLocals | apply emits_modifyLocals | apply emits_await
    | apply emits_modifyWorld; intros; reflexivity
    | apply emits_external; reflexivity
    | apply emits_emit; reflexivity
    | apply emits_log; reflexivity ].

Ltac emits_go :=
  repeat
    match goal with
    | |- emits _ (bind _ _) => apply emits_bind; [| intros ?]
    | |- emits _ (tryCatch _ _) => apply emits_tryCatch; [| intros ?]
    | |- emits _ (tryFinally _ _) => apply emits_tryFinally
    | |- emits _ (call _ _) => apply emits_call
    | |- emits _ (when _ _) => apply emits_when
    | |- emits _ (forOf _ _) => apply emits_forOf; intros ?
    | |- emits _ (match ?x with _ => _ end) => destruct x
    | |- emits _ _ => emits_leaf
    end.

Lemma bind_Normal {L A B} (m : M L A) (k : A -> M L B) l w b :
  res (bind m k l w) = Normal b ->
  exists a, res (m l w) = Normal a /\ res (k a (loc (m l w)) (wld (m l w))) = Normal b.
Proof.
  unfold bind. destruct (res (m l w)) as [a|e]; run; [eauto | discriminate].
Qed.

Lemma bind_run_Normal {L A B} (m : M L A) (k : A -> M L B) l w a :
  res (m l w) = Normal a -> bind m k l w = k a (loc (m l w)) (wld (m l w)).
Proof. unfold bind. intros ->. reflexivity. Qed.

Lemma bind_unfold {L A B} (m : M L A) (k : A -> M L B) l w :
  bind m k l w =
  match res (m l w) with
  | Normal a => k a (loc (m l w)) (wld (m l w))
  | Throw e => mkOut (Throw e) (loc (m l w)) (wld (m l w))
  end.
Proof. reflexivity. Qed.

Lemma tryCatch_unfold {L A} (m : M L A) (h : Exn -> M L A) l w :
  tryCatch m h l w =
  match res (m l w) with
  | Normal a => mkOut (Normal a) (loc (m l w)) (wld (m l w))
  | Throw e => h e (loc (m l w)) (wld (m l w))
  end.
Proof. reflexivity. Qed.

(** One step of symbolic execution: open the outermost sequencing or
    try/catch, evaluate the statement at its head, and split on the answer
    of the outside world if the statement asked for one. *)
Ltac leaf :=
  cbn [ret throw getWorld modifyWorld getLocals modifyLocals external await
       emit log call when res loc wld].

Ltac case_pending :=
  match goal with
  | |- context [match ?x with Normal _ => _ | Throw _ => _ end] =>
      lazymatch x with
      | Normal _ => fail
      | Throw _ => fail
      | context [match _ with _ => _ end] => fail
      | context [res] => fail
      | _ => first [ match goal with Hx : x = _ |- _ => rewrite Hx end
                   | destruct x as [?|?] eqn:? ]
      end
  end.

Ltac case_option :=
  match goal with
  | |- context [match ?x with Some _ => _ | None => _ end] =>
      lazymatch x with
      | Some _ => fail
      | None => fail
      | context [match _ with _ => _ end] => fail
      | context [res] => fail
      | _ => first [ match goal with Hx : x = _ |- _ => rewrite Hx end
                   | destruct x eqn:? ]
      end
  end.

Ltac step :=
  first [ rewrite bind_unfold | rewrite tryCatch_unfold ]; leaf;
  repeat (first [ case_pending | case_option ]; leaf).

Lemma bind_getLocals {L B} (k : L -> M L B) l w : bind getLocals k l w = k l l w.
Proof. reflexivity. Qed.

Lemma bind_call {L L' A B} (m : M L' A) init (k : A -> M L B) l w a :
  res (m init w) = Normal a -> bind (call m init) k l w = k a l (wld (m init w)).
Proof. intros E. unfold bind, call. cbn [res loc wld]. rewrite E. reflexivity. Qed.

Lemma tryCatch_res {L A} (m : M L A) (h : Exn -> M L A) l w :
  res (tryCatch m h l w) =
  match res (m l w) with
  | Normal a => Normal a
  | Throw e => res (h e (loc (m l w)) (wld (m l w)))
  end.
Proof. unfold tryCatch. destruct (res (m l w)); reflexivity. Qed.

Lemma tryCatch_wld {L A} (m : M L A) (h : Exn -> M L A) l w :
  wld (tryCatch m h l w) =
  match res (m l w) with
  | Normal a => wld (m l w)
  | Throw e => wld (h e (loc (m l w)) (wld (m l w)))
  end.
Proof. unfold tryCatch. destruct (res (m l w)); reflexivity. Qed.

Lemma tryCatch_loc {L A} (m : M L A) (h : Exn -> M L A) l w :
  loc (tryCatch m h l w) =
  match res (m l w) with
  | Normal a => loc (m l w)
  | Throw e => loc (h e (loc (m l w)) (wld (m l w)))
  end.
Proof. unfold tryCatch. destruct (res (m l w)); reflexivity. Qed.

Lemma tryFinally_res {L A} (m : M L A) (f : M L unit) l w :
  res (f (loc (m l w)) (wld (m l w))) = Normal tt ->
  res (tryFinally m f l w) = res (m l w).
Proof. unfold tryFinally. intros ->. reflexivity. Qed.

Lemma tryFinally_wld {L A} (m : M L A) (f : M L unit) l w :
  wld (tryFinally m f l w) = wld (f (loc (m l w)) (wld (m l w))).
Proof. unfold tryFinally. destruct (res (f _ _)); reflexivity. Qed.

Lemma tryFinally_loc {L A} (m : M L A) (f : M L unit) l w :
  loc (tryFinally m f l w) = loc (f (loc (m l w)) (wld (m l w))).
Proof. unfold tryFinally. destruct (res (f _ _)); reflexivity. Qed.

Lemma call_res {L L' A} (m : M L' A) init (l : L) w :
  res (call m init l w) = res (m init w).
Proof. reflexivity. Qed.

Lemma call_wld {L L' A} (m : M L' A) init (l : L) w :
  wld (call m init l w) = wld (m init w).
Proof. reflexivity. Qed.

Lemma call_loc {L L' A} (m : M L' A) init (l : L) w :
  loc (call m init l w) = l.
Proof. reflexivity. Qed.

Lemma bind_call_loc {L L' A B} (m : M L' A) init (k : A -> M L B) (l : L) w :
  (forall a w', loc (k a l w') = l) -> loc (bind (call m init) k l w) = l.
Proof.
  intros Hk. rewrite bind_unfold, call_res, call_loc, call_wld.
  destruct (res (m init w)); [apply Hk | reflexivity].
Qed.

(* ===================================================================== *)
(** ** The transfer orchestrator *)
(* ===================================================================== *)

Section Orchestrator.
Import MediaShuttleService.
Variable H : Host.
Variable P : Playwright.

Lemma cleanup_Normal l w : res (cleanup P l w) = Normal tt.
Proof.
  unfold cleanup. run. unfold closeSession. run.
  destruct (this_context w); run; repeat case_answer;
    destruct (this_browser w); run; repeat case_answer; reflexivity.
Qed.

Lemma captureErrorScreenshot_Normal page l w :
  res (captureErrorScreenshot H P page l w) = Normal tt.
Proof.
  unfold captureErrorScreenshot. run. case_answer; [destruct a|]; reflexivity.
Qed.

Lemma uploadFailed_res e l w : res (uploadFailed H P e l w) = Normal (failed e).
Proof.
  unfold uploadFailed. run. destruct l as [p|]; run; [|reflexivity].
  rewrite captureErrorScreenshot_Normal. reflexivity.
Qed.

Lemma uploadAttempt_Normal filePaths config l w r :
  res (uploadAttempt H P filePaths config l w) = Normal r -> r = succeeded H filePaths.
Proof.
  unfold uploadAttempt. intros Hr.
  repeat (apply bind_Normal in Hr; destruct Hr as (? & _ & Hr)).
  run. unfold succeeded. congruence.
Qed.

(** *** What the orchestrator leaves in the trace *)

Lemma emits_waitForFunction q thrown polls onTimeout :
  (forall seen, q (EvPoll seen) = true) ->
  emits q (waitForFunction thrown polls onTimeout).
Proof.
  intros Hpoll. induction polls as [|seen rest IH]; simpl.
  - apply emits_throw.
  - apply emits_bind.
    + unfold pageFunction. apply emits_bind; [apply emits_emit, Hpoll | intros _].
      destruct seen; [apply emits_ret|].
      destruct (isCompleted _); [|apply emits_ret].
      apply emits_bind; [apply emits_throw | intros _; apply emits_ret].
    + intros [|]; [apply emits_ret | exact IH].
Qed.
End Orchestrator.

(** Unfold the methods of MediaShuttleService down to the combinators. *)
Ltac unfold_service :=
  unfold MediaShuttleService.uploadToMediaShuttle, MediaShuttleService.uploadAttempt,
    MediaShuttleService.uploadFailed, MediaShuttleService.initializeBrowser,
    MediaShuttleService.login, MediaShuttleService.performUpload,
    MediaShuttleService.waitForUploadCompletion,
    MediaShuttleService.monitorTransferProgress,
    MediaShuttleService.captureErrorScreenshot, MediaShuttleService.takeScreenshot,
    MediaShuttleService.cleanup, MediaShuttleService.closeSession,
    MediaShuttleService.isVisibleOrFalse, MediaShuttleService.waitForLoadState,
    MediaShuttleService.fill, MediaShuttleService.click,
    MediaShuttleService.waitForSelector, MediaShuttleService.isVisible,
    MediaShuttleService.textContent, MediaShuttleService.pageUrl,
    MediaShuttleService.screenshot, existsSync, mkdirSync, writeFileSync, unlinkSync.

Ltac emits_service :=
  unfold_service; emits_go;
  try (apply emits_waitForFunction; intros; reflexivity).


Section OrchestratorTraces.
Import MediaShuttleService.
Variable H : Host.
Variable P : Playwright.

Lemma uploadToMediaShuttle_headful filePaths config :
  emits launchesHeadful (uploadToMediaShuttle H P filePaths config).
Proof. emits_service. Qed.

Lemma attempt_without_cleanup filePaths config :
  emits (fun e => negb (isEnter MCleanup e))
        (tryCatch (uploadAttempt H P filePaths config) (uploadFailed H P)).
Proof. emits_service. Qed.

Lemma takeScreenshot_without_capture page :
  emits (L := unit) (fun e => negb (isEnter MCaptureErrorScreenshot e))
        (takeScreenshot H P page).
Proof. emits_service. Qed.

Lemma attempt_without_capture filePaths config :
  emits (fun e => negb (isEnter MCaptureErrorScreenshot e))
        (uploadAttempt H P filePaths config).
Proof. emits_service. Qed.
End OrchestratorTraces.

Lemma calls_app m evs1 evs2 : calls m (evs1 ++ evs2) = calls m evs1 + calls m evs2.
Proof. unfold calls. rewrite List.filter_app, length_app. reflexivity. Qed.

Lemma calls_none m evs :
  forallb (fun e => negb (isEnter m e)) evs = true -> calls m evs = 0.
Proof.
  unfold calls. induction evs as [|e evs IH]; simpl; [reflexivity|].
  intros Hq. apply andb_prop in Hq as [He Hevs].
  destruct (isEnter m e); [discriminate | auto].
Qed.

Section OrchestratorClaims.
Import MediaShuttleService.
Variable H : Host.
Variable P : Playwright.

Lemma cleanup_trace l w :
  exists evs,
    trace (wld (cleanup P l w)) = trace w ++ EvEnter MCleanup :: evs /\
    calls MCleanup evs = 0 /\ calls MCaptureErrorScreenshot evs = 0.
Proof.
  assert (Hq : emits (L := unit)
                 (fun e => negb (isEnter MCleanup e) && negb (isEnter MCaptureErrorScreenshot e))
                 (tryCatch (closeSession P)
                    (fun error => log LError ["Error during cleanup:"; toString error])))
    by emits_service.
  destruct (Hq l (record (EvEnter MCleanup) w)) as (evs & E & F).
  exists evs. unfold cleanup. run. run.
  rewrite E. run. rewrite <- app_assoc. split; [reflexivity|].
  split; apply calls_none; rewrite forallb_forall in *; intros e He;
    specialize (F e He); apply andb_prop in F; tauto.
Qed.

Lemma uploadToMediaShuttle_wld filePaths config l w :
  wld (uploadToMediaShuttle H P filePaths config l w) =
  wld (cleanup P tt
         (wld (tryCatch (uploadAttempt H P filePaths config) (uploadFailed H P) l w))).
Proof.
  unfold uploadToMediaShuttle. rewrite tryFinally_wld, call_wld. reflexivity.
Qed.

Lemma uploadToMediaShuttle_res filePaths config l w :
  res (uploadToMediaShuttle H P filePaths config l w) =
  Normal (match res (uploadAttempt H P filePaths config l w) with
          | Normal _ => succeeded H filePaths
          | Throw e => failed e
          end).
Proof.
  unfold uploadToMediaShuttle.
  rewrite tryFinally_res by (rewrite call_res; apply cleanup_Normal).
  rewrite tryCatch_res.
  destruct (res (uploadAttempt H P filePaths config l w)) as [r|e] eqn:E.
  - apply uploadAttempt_Normal in E. congruence.
  - rewrite uploadFailed_res. reflexivity.
Qed.
End OrchestratorClaims.

Section OrchestratorShape.
Import MediaShuttleService.
Variable H : Host.
Variable P : Playwright.

Lemma captureErrorScreenshot_eq page l w :
  captureErrorScreenshot H P page l w =
  let t := takeScreenshot H P page l (record (EvEnter MCaptureErrorScreenshot) w) in
  mkOut (Normal tt) (loc t)
        (match res t with
         | Normal _ => wld t
         | Throw e => record (EvLog LError ["Failed to capture error screenshot:"; toString e])
                             (wld t)
         end).
Proof.
  unfold captureErrorScreenshot. run.
  destruct (res (takeScreenshot H P page l _)) as [[]|e]; reflexivity.
Qed.

Lemma captureErrorScreenshot_trace page l w :
  exists shots,
    trace (wld (captureErrorScreenshot H P page l w)) =
      trace w ++ EvEnter MCaptureErrorScreenshot :: shots /\
    calls MCaptureErrorScreenshot shots = 0.
Proof.
  rewrite captureErrorScreenshot_eq. cbv zeta. cbn [wld].
  destruct (takeScreenshot_without_capture H P page l
              (record (EvEnter MCaptureErrorScreenshot) w)) as (evs & E & F).
  destruct (res (takeScreenshot H P page l _)) as [[]|e].
  - exists evs. rewrite E. cbn [record trace]. rewrite <- app_assoc.
    split; [reflexivity | apply calls_none, F].
  - exists (evs ++ [EvLog LError ["Failed to capture error screenshot:"; toString e]]).
    cbn [record trace]. rewrite E. cbn [record trace]. rewrite <- !app_assoc.
    split; [reflexivity|].
    rewrite calls_app, (calls_none _ _ F). reflexivity.
Qed.

(** The local [page] when the try block ends: assigned exactly when
    initializeBrowser was reached and returned. *)
Lemma uploadAttempt_page filePaths config w :
  loc (uploadAttempt H P filePaths config None w) = pageAcquired H P filePaths config w.
Proof.
  unfold uploadAttempt, pageAcquired. rewrite bind_unfold. cbn [getWorld res loc wld].
  destruct (forallb _ filePaths); cbn [negb].
  - rewrite bind_unfold. cbn [ret res loc wld].
    rewrite bind_unfold. cbn [log emit modifyWorld res loc wld].
    rewrite bind_unfold, call_res, call_loc, call_wld.
    destruct (res (initializeBrowser P config tt _)) as [page|e]; [|reflexivity].
    rewrite bind_unfold. cbn [modifyLocals res loc wld].
    apply bind_call_loc. intros _ w1. apply bind_call_loc. intros _ w2. reflexivity.
  - reflexivity.
Qed.

Lemma uploadFailed_wld e l w :
  wld (uploadFailed H P e l w) =
  let w' := record (EvLog LError ["Media Shuttle upload failed:"; toString e]) w in
  match l with
  | Some page => wld (captureErrorScreenshot H P page tt w')
  | None => w'
  end.
Proof.
  unfold uploadFailed. run. destruct l as [page|]; run.
  - rewrite captureErrorScreenshot_Normal. reflexivity.
  - reflexivity.
Qed.
End OrchestratorShape.

(* ===================================================================== *)
(** ** Claims about the transfer orchestrator *)
(* ===================================================================== *)

Section OrchestratorTheorems.
Import MediaShuttleService.
Variable H : Host.
Variable P : Playwright.

(** C4. uploadToMediaShuttle never throws. Whatever the host and the portal
    answer, it completes normally with one UploadResult: when its try block
    throws [e], at whichever step, the result is success:false with
    error = the message of [e] ('Unknown error' when [e] is no Error); when
    the try block completes, the result is success:true with the base names
    of the file paths as uploadedFiles. *)
Theorem uploadToMediaShuttle_never_throws filePaths config w :
  res (uploadToMediaShuttle H P filePaths config None w) =
  Normal (match res (uploadAttempt H P filePaths config None w) with
          | Normal _ =>
              {| success := true;
                 message := "File uploaded to Media Shuttle successfully";
                 uploadedFiles := Some (map (path_basename H) filePaths);
                 error := None |}
          | Throw e =>
              {| success := false;
                 message := "Failed to upload to Media Shuttle";
                 uploadedFiles := None;
                 error := Some (messageOf e) |}
          end).
Proof. apply uploadToMediaShuttle_res. Qed.

(** C6. In every run of uploadToMediaShuttle (failing before the browser
    is there, failing at a later step, or succeeding) cleanup is entered
    exactly once. cleanup itself always completes normally; with both
    handles null it closes nothing; with only the browser handle set it
    closes the browser and not the context. *)
Theorem cleanup_exactly_once filePaths config w :
  (exists evs,
      trace (wld (uploadToMediaShuttle H P filePaths config None w)) = trace w ++ evs /\
      calls MCleanup evs = 1) /\
  (forall l w', res (cleanup P l w') = Normal tt) /\
  (forall l disk tr,
      cleanup P l {| fs := disk; this_browser := None; this_context := None; trace := tr |} =
      mkOut (Normal tt) l
            {| fs := disk; this_browser := None; this_context := None;
               trace := tr ++ [EvEnter MCleanup] |}) /\
  (forall l disk tr b,
      exists logs,
        trace (wld (cleanup P l {| fs := disk; this_browser := Some b;
                                   this_context := None; trace := tr |})) =
          tr ++ EvEnter MCleanup :: EvBrowserClose :: logs /\
        forallb isLog logs = true).
Proof.
  split; [|split; [|split]].
  - rewrite uploadToMediaShuttle_wld.
    destruct (attempt_without_cleanup H P filePaths config None w) as (evs1 & E1 & F1).
    destruct (cleanup_trace P tt
                (wld (tryCatch (uploadAttempt H P filePaths config) (uploadFailed H P) None w)))
      as (evs2 & E2 & F2 & _).
    exists (evs1 ++ EvEnter MCleanup :: evs2).
    rewrite E2, E1, <- app_assoc. split; [reflexivity|].
    rewrite calls_app, (calls_none _ _ F1).
    change (calls MCleanup (EvEnter MCleanup :: evs2)) with (S (calls MCleanup evs2)).
    rewrite F2. reflexivity.
  - intros. apply cleanup_Normal.
  - intros. reflexivity.
  - intros. unfold cleanup, closeSession. run.
    case_answer.
    + exists []. rewrite <- app_assoc. auto.
    + eexists [_]. rewrite <- !app_assoc. split; reflexivity.
Qed.

(** C9, as the code has it. When the try block of uploadToMediaShuttle
    throws [e], the result is the failure built from [e], whatever happens
    during the capture. captureErrorScreenshot is entered exactly when the
    page had been acquired (every file path exists and initializeBrowser
    returned, so the failure is one of login, interaction or monitoring):
    then once, after the failure is logged and before cleanup; otherwise
    not at all. A throw inside captureErrorScreenshot is caught and logged,
    and the method completes normally. *)
Theorem capture_after_failure filePaths config w e :
  let attempt := uploadAttempt H P filePaths config None w in
  let o := uploadToMediaShuttle H P filePaths config None w in
  res attempt = Throw e ->
  res o = Normal {| success := false;
                    message := "Failed to upload to Media Shuttle";
                    uploadedFiles := None;
                    error := Some (messageOf e) |} /\
  (exists before shots closing,
      trace (wld attempt) = trace w ++ before /\
      trace (wld o) =
        trace (wld attempt)
          ++ EvLog LError ["Media Shuttle upload failed:"; toString e]
          :: match pageAcquired H P filePaths config w with
             | Some _ => EvEnter MCaptureErrorScreenshot :: shots
             | None => []
             end
          ++ EvEnter MCleanup :: closing /\
      calls MCaptureErrorScreenshot before = 0 /\
      calls MCaptureErrorScreenshot shots = 0 /\
      calls MCaptureErrorScreenshot closing = 0) /\
  (forall page l w',
      let shot := takeScreenshot H P page l (record (EvEnter MCaptureErrorScreenshot) w') in
      captureErrorScreenshot H P page l w' =
      mkOut (Normal tt) (loc shot)
            (match res shot with
             | Normal _ => wld shot
             | Throw e' =>
                 record (EvLog LError ["Failed to capture error screenshot:"; toString e'])
                        (wld shot)
             end)).
Proof.
  intros attempt o He. split; [|split].
  - unfold o. rewrite uploadToMediaShuttle_res. fold attempt. rewrite He. reflexivity.
  - destruct (attempt_without_capture H P filePaths config None w) as (before & E0 & F0).
    fold attempt in E0.
    unfold o. rewrite uploadToMediaShuttle_wld, tryCatch_wld. fold attempt. rewrite He.
    rewrite uploadFailed_wld. cbv zeta.
    pose proof (uploadAttempt_page H P filePaths config w) as Hpage.
    fold attempt in Hpage. rewrite Hpage.
    destruct (pageAcquired H P filePaths config w) as [page|].
    + destruct (captureErrorScreenshot_trace H P page tt
                  (record (EvLog LError ["Media Shuttle upload failed:"; toString e])
                          (wld attempt))) as (shots & E1 & F1).
      destruct (cleanup_trace P tt
                  (wld (captureErrorScreenshot H P page tt
                          (record (EvLog LError ["Media Shuttle upload failed:"; toString e])
                                  (wld attempt))))) as (closing & E2 & _ & F2).
      exists before, shots, closing.
      rewrite E2, E1. cbn [record trace]. rewrite <- !app_assoc.
      repeat split; try assumption; try reflexivity. apply calls_none, F0.
    + destruct (cleanup_trace P tt
                  (record (EvLog LError ["Media Shuttle upload failed:"; toString e])
                          (wld attempt))) as (closing & E2 & _ & F2).
      exists before, [], closing.
      rewrite E2. cbn [record trace]. rewrite <- !app_assoc.
      repeat split; try assumption; try reflexivity. apply calls_none, F0.
  - intros. apply captureErrorScreenshot_eq.
Qed.

End OrchestratorTheorems.

(* ===================================================================== *)
(** ** The completion monitor *)
(* ===================================================================== *)

Lemma after_app evs1 evs2 w : after (evs1 ++ evs2) w = after evs2 (after evs1 w).
Proof. unfold after. apply fold_left_app. Qed.

Section Monitor.
Import MediaShuttleService.
Variable P : Playwright.

Lemma isTerminal_pageFunction seen :
  isTerminal seen =
  match seen with
  | NoTopText => false
  | TopTextContent text => isCompleted (orElse (option_map toLowerCase text) "")
  end.
Proof.
  destruct seen as [|[text|]]; try reflexivity.
  unfold isTerminal, mentions, isCompleted. cbn [option_map orElse].
  destruct (String.eqb (toLowerCase text) "") eqn:E; [|reflexivity].
  apply String.eqb_eq in E. rewrite E. reflexivity.
Qed.

Lemma pageFunction_run thrown seen l w :
  pageFunction thrown seen l w =
  mkOut (if isTerminal seen then Throw thrown else Normal false) l (record (EvPoll seen) w).
Proof.
  rewrite isTerminal_pageFunction. unfold pageFunction, loggerInPage.
  rewrite bind_unfold. leaf. destruct seen as [|text]; [reflexivity|]. cbv zeta.
  destruct (isCompleted _); [|reflexivity]. rewrite bind_unfold. leaf. reflexivity.
Qed.

Lemma waitForFunction_run thrown polls onTimeout l w :
  waitForFunction thrown polls onTimeout l w =
  mkOut (Throw (if existsb isTerminal polls then thrown else onTimeout)) l
        (after (pollEvents polls) w).
Proof.
  revert l w. induction polls as [|seen rest IH]; intros l w; [reflexivity|].
  cbn [waitForFunction existsb pollEvents].
  unfold bind at 1. rewrite pageFunction_run. cbn [res loc wld].
  destruct (isTerminal seen); cbn [orb].
  - reflexivity.
  - rewrite IH. reflexivity.
Qed.

Lemma monitorTransferProgress_run page l w :
  let polling := after [EvEnter MMonitorTransferProgress; EvWaitForFunction 300000 None] w in
  let polls := pw_polls P polling page None in
  monitorTransferProgress P page l w =
  mkOut (Throw (if existsb isTerminal polls
                then pw_pageError P polling page
                else pw_timeout P polling page None))
        l (after (pollEvents polls) polling).
Proof.
  cbv zeta. cbn [after fold_left]. unfold monitorTransferProgress.
  do 3 step. apply waitForFunction_run.
Qed.

(** The end of the catch block of waitForUploadCompletion, by the text read. *)
Lemma fallback_text text (l : unit) w :
  bind (if negb (String.eqb text "") && includes (toLowerCase text) "error"
        then throw (Error ("Transfer failed: " +:+ text))
        else ret tt)
       (fun _ => log LLog ["No error detected, assuming transfer completed"]) l w =
  mkOut (fallback (Normal (Some text))) l
        match fallback (Normal (Some text)) with
        | Normal _ => record (EvLog LLog ["No error detected, assuming transfer completed"]) w
        | Throw _ => w
        end.
Proof.
  unfold fallback, mentions. rewrite bind_unfold.
  destruct (String.eqb text "") eqn:E; cbn [negb andb].
  - apply String.eqb_eq in E. subst text. reflexivity.
  - destruct (includes (toLowerCase text) "error"); reflexivity.
Qed.

End Monitor.

Section MonitorTheorems.
Import MediaShuttleService.
Variable P : Playwright.

(** X23. The polling wait of monitorTransferProgress is never fulfilled:
    the wait is rejected at the first poll whose status text shows
    "completed", "success" or "finished" (the predicate throws there, at
    its logger call), and by the bound elapsing when there is no such
    poll. waitForUploadCompletion is therefore always decided by its catch
    block, reached right after the wait for the progress panel failed or
    after the polls up to the first terminal one: it reads the error
    element, throws 'Transfer failed: <text>' when that text mentions
    "error" (in any case), and otherwise logs that it assumes completion
    and returns. *)
Theorem waitForUploadCompletion_by_fallback page w :
  let opts := {| wait_state := None; wait_timeout := Some 10000%Z |} in
  let asked :=
    after [EvEnter MWaitForUploadCompletion;
           EvLog LLog ["Waiting for Media Shuttle transfer completion..."];
           EvWaitForSelector "#transferProgressDetails" opts] w in
  let polling :=
    after [EvLog LLog ["Transfer progress details found, monitoring completion..."];
           EvEnter MMonitorTransferProgress;
           EvWaitForFunction 300000 None] asked in
  let polls := pw_polls P polling page None in
  let reached :=
    match pw_waitForSelector P asked page "#transferProgressDetails" opts with
    | Normal _ => after (pollEvents polls) polling
    | Throw _ => asked
    end in
  let reading :=
    after [EvLog LWarn ["Could not detect transfer completion, checking for error messages..."];
           EvTextContent errorLocator] reached in
  let verdict := fallback (pw_textContent P reading page errorLocator) in
  (forall w', exists e, res (monitorTransferProgress P page tt w') = Throw e) /\
  waitForUploadCompletion P page tt w =
  mkOut verdict tt
        match verdict with
        | Normal _ =>
            record (EvLog LLog ["No error detected, assuming transfer completed"]) reading
        | Throw _ => reading
        end.
Proof.
  cbv zeta. split.
  - intros w'. rewrite monitorTransferProgress_run. cbv zeta. eexists. reflexivity.
  - cbn [after fold_left].
    unfold waitForUploadCompletion, waitForSelector, textContent.
    do 2 (rewrite bind_unfold; leaf). rewrite tryCatch_unfold.
    rewrite bind_unfold. leaf.
    destruct (pw_waitForSelector P _ page "#transferProgressDetails" _) as [[]|e0].
    + do 2 (rewrite bind_unfold; leaf).
      rewrite monitorTransferProgress_run. cbv zeta. cbn [after fold_left]. leaf.
      do 2 (rewrite bind_unfold; leaf). rewrite tryCatch_unfold. leaf.
      destruct (pw_textContent P _ page errorLocator) as [[text|]|e]; leaf;
        [apply fallback_text | reflexivity | reflexivity].
    + do 2 (rewrite bind_unfold; leaf). rewrite tryCatch_unfold. leaf.
      destruct (pw_textContent P _ page errorLocator) as [[text|]|e]; leaf;
        [apply fallback_text | reflexivity | reflexivity].
Qed.
End MonitorTheorems.

(* ===================================================================== *)
(** ** The batch upload coordinator *)
(* ===================================================================== *)

Ltac unfold_uploader :=
  unfold upload, announce, announceReports, uploadReports, stageReports, spread,
    reportsFailed, removeStaged, stage, unstage, getMediaShuttleConfig.

Section Coordinator.
Variable H : Host.
Variable P : Playwright.

Lemma forOf_push (g : FileData -> UploadResult) xs l w :
  forOf xs (fun file => modifyLocals (push_result (g file))) l w =
  mkOut (Normal tt)
        {| results := results l ++ map g xs; tempFilePaths := tempFilePaths l |} w.
Proof.
  revert l. induction xs as [|x xs IH]; intros l.
  - destruct l. cbn. rewrite app_nil_r. reflexivity.
  - cbn [forOf map]. rewrite bind_unfold. leaf. rewrite IH.
    unfold push_result. cbn [results tempFilePaths]. rewrite <- app_assoc. reflexivity.
Qed.

Lemma spread_run files answer l w :
  exists e,
    isLog e = true /\
    spread files answer l w =
    mkOut (Normal tt)
          {| results :=
               results l ++
               map (resultFor (if MediaShuttleService.success answer then None
                               else Some (orElse (MediaShuttleService.error answer)
                                                 "Batch upload failed")))
                   (reportFiles files);
             tempFilePaths := tempFilePaths l |}
          (record e w).
Proof.
  unfold spread. destruct (MediaShuttleService.success answer);
    rewrite bind_unfold, forOf_push; leaf; eexists; (split; [|reflexivity]); reflexivity.
Qed.

Lemma reportsFailed_run files e l w :
  reportsFailed files e l w =
  mkOut (Normal tt)
        {| results := results l ++ map (resultFor (Some (messageOf e))) (reportFiles files);
           tempFilePaths := tempFilePaths l |}
        (record (EvLog LError ["[MAYO] Failed to upload files: " +:+ messageOf e]) w).
Proof.
  unfold reportsFailed. rewrite bind_unfold. leaf. apply forOf_push.
Qed.

(** *** Staging *)

Lemma stage_results file l w : results (loc (stage H file l w)) = results l.
Proof.
  unfold stage, writeFileSync. destruct (data file); [|reflexivity].
  repeat step; reflexivity.
Qed.

Lemma stage_loop_results xs l w : results (loc (forOf xs (stage H) l w)) = results l.
Proof.
  revert l w. induction xs as [|x xs IH]; intros l w; [reflexivity|].
  cbn [forOf]. rewrite bind_unfold.
  destruct (res (stage H x l w)) eqn:E; cbn [loc].
  - rewrite IH. apply stage_results.
  - apply stage_results.
Qed.

Lemma stage_Normal file l w :
  res (stage H file l w) = Normal tt ->
  tempFilePaths (loc (stage H file l w)) = tempFilePaths l ++ [stagedPath H file].
Proof.
  unfold stage, writeFileSync, stagedPath. destruct (data file); [|discriminate].
  repeat step; try discriminate. reflexivity.
Qed.

Lemma stage_loop_Normal xs l w :
  res (forOf xs (stage H) l w) = Normal tt ->
  tempFilePaths (loc (forOf xs (stage H) l w)) = tempFilePaths l ++ map (stagedPath H) xs.
Proof.
  revert l w. induction xs as [|x xs IH]; intros l w.
  - intros _. cbn. rewrite app_nil_r. reflexivity.
  - cbn [forOf map]. rewrite bind_unfold.
    destruct (res (stage H x l w)) as [[]|e] eqn:E; [|discriminate].
    intros Hrest. rewrite (IH _ _ Hrest), (stage_Normal _ _ _ E), <- app_assoc.
    reflexivity.
Qed.

Lemma stageReports_results files l w :
  results (loc (stageReports H files l w)) = results l.
Proof.
  unfold stageReports. rewrite bind_unfold.
  destruct (res (forOf _ _ l w)) eqn:E; cbn [loc].
  - repeat step. apply stage_loop_results.
  - apply stage_loop_results.
Qed.

Lemma stageReports_Normal files l w :
  res (stageReports H files l w) = Normal tt ->
  tempFilePaths (loc (stageReports H files l w)) =
  tempFilePaths l ++ map (stagedPath H) (reportFiles files).
Proof.
  unfold stageReports. rewrite bind_unfold.
  destruct (res (forOf _ _ l w)) as [[]|e] eqn:E; [|discriminate].
  intros _. repeat step. apply stage_loop_Normal, E.
Qed.
End Coordinator.

Section CoordinatorCleanup.
Variable H : Host.

(** One turn of the clean-up loop, in closed form. *)
Lemma unstage_run p l w :
  unstage H p l w =
  mkOut (Normal tt) l
        (match fs w !! p with
         | None => w
         | Some _ =>
             let w1 := record (EvUnlink p) w in
             match unlinkSync_error H w1 p with
             | Some e =>
                 record (EvLog LWarn ["[MAYO] Failed to cleanup temp file "
                                      +:+ path_basename H p +:+ ": " +:+ toString e]) w1
             | None =>
                 record (EvLog LLog ["[MAYO] Cleaned up temp file: " +:+ path_basename H p])
                        (set_fs (delete p (fs w)) w1)
             end
         end).
Proof.
  unfold unstage, existsSync, unlinkSync. rewrite tryCatch_unfold, !bind_unfold. leaf.
  destruct (fs w !! p) as [node|] eqn:E.
  - rewrite bool_decide_true by eauto. cbn [when].
    rewrite !bind_unfold. leaf. cbn [record fs]. rewrite E.
    destruct (unlinkSync_error H _ p); reflexivity.
  - rewrite bool_decide_false by (apply is_Some_None). reflexivity.
Qed.

Lemma unstage_keeps_absent p q l w :
  fs w !! q = None -> fs (wld (unstage H p l w)) !! q = None.
Proof.
  intros Hq. rewrite unstage_run. cbn [wld].
  destruct (fs w !! p); [|exact Hq]. cbv zeta.
  destruct (unlinkSync_error H _ p); cbn [record set_fs fs]; [exact Hq|].
  rewrite lookup_delete. case_decide; [reflexivity | exact Hq].
Qed.

Lemma unstage_removes p l w :
  (forall w' p', unlinkSync_error H w' p' = None) ->
  fs (wld (unstage H p l w)) !! p = None.
Proof.
  intros Hdisk. rewrite unstage_run. cbn [wld].
  destruct (fs w !! p) eqn:E; [|exact E]. cbv zeta.
  rewrite Hdisk. cbn [record set_fs fs]. apply lookup_delete_eq.
Qed.

Lemma unstage_loop_run ps l w :
  res (forOf ps (unstage H) l w) = Normal tt /\ loc (forOf ps (unstage H) l w) = l.
Proof.
  revert w. induction ps as [|p ps IH]; intros w; [split; reflexivity|].
  cbn [forOf]. rewrite bind_unfold, unstage_run. cbn [res loc wld]. apply IH.
Qed.

Lemma unstage_loop_keeps_absent ps q l w :
  fs w !! q = None -> fs (wld (forOf ps (unstage H) l w)) !! q = None.
Proof.
  revert w. induction ps as [|p ps IH]; intros w Hq; [exact Hq|].
  cbn [forOf]. rewrite bind_unfold.
  pose proof (unstage_keeps_absent p q l w Hq) as Hq'.
  rewrite unstage_run in *. cbn [res loc wld] in *. apply IH, Hq'.
Qed.

Lemma unstage_loop_removes ps q l w :
  (forall w' p', unlinkSync_error H w' p' = None) ->
  In q ps -> fs (wld (forOf ps (unstage H) l w)) !! q = None.
Proof.
  intros Hdisk. revert w. induction ps as [|p ps IH]; intros w Hin; [destruct Hin|].
  cbn [forOf]. rewrite bind_unfold.
  pose proof (unstage_removes p l w Hdisk) as Hp.
  rewrite unstage_run in *. cbn [res loc wld] in *.
  destruct Hin as [->|Hin].
  - apply unstage_loop_keeps_absent, Hp.
  - apply IH, Hin.
Qed.

Lemma removeStaged_run l w :
  res (removeStaged H l w) = Normal tt /\ loc (removeStaged H l w) = l.
Proof. unfold removeStaged. rewrite bind_unfold. leaf. apply unstage_loop_run. Qed.

Lemma removeStaged_removes q l w :
  (forall w' p', unlinkSync_error H w' p' = None) ->
  In q (tempFilePaths l) -> fs (wld (removeStaged H l w)) !! q = None.
Proof.
  intros Hdisk Hin. unfold removeStaged. rewrite bind_unfold. leaf.
  apply unstage_loop_removes; assumption.
Qed.
End CoordinatorCleanup.

Section CoordinatorBatch.
Variable H : Host.
Variable P : Playwright.
Variable configService : MediaShuttleConfigFactory.ConfigService.

Lemma uploadReports_Throw files config l w e :
  res (stageReports H files l w) = Throw e ->
  uploadReports H P files config l w =
  mkOut (Throw e) (loc (stageReports H files l w)) (wld (stageReports H files l w)).
Proof. intros E. unfold uploadReports. rewrite bind_unfold, E. reflexivity. Qed.

Lemma uploadReports_Normal files config l w :
  res (stageReports H files l w) = Normal tt ->
  exists answer,
    let staged := stageReports H files l w in
    let attempt := MediaShuttleService.uploadToMediaShuttle
                     H P (tempFilePaths (loc staged)) config None (wld staged) in
    res attempt = Normal answer /\
    uploadReports H P files config l w = spread files answer (loc staged) (wld attempt).
Proof.
  intros E. eexists. cbv zeta. split.
  - apply uploadToMediaShuttle_res.
  - unfold uploadReports. rewrite (bind_run_Normal _ _ _ _ _ E), bind_getLocals.
    apply bind_call, uploadToMediaShuttle_res.
Qed.

Lemma batch_res files config l w : res (batch H P files config l w) = Normal tt.
Proof.
  unfold batch. rewrite tryFinally_res by apply removeStaged_run.
  rewrite tryCatch_res.
  destruct (res (stageReports H files l w)) as [[]|e] eqn:E.
  - destruct (uploadReports_Normal files config l w E) as (answer & _ & ->).
    destruct (spread_run files answer (loc (stageReports H files l w))
                (wld (MediaShuttleService.uploadToMediaShuttle H P
                        (tempFilePaths (loc (stageReports H files l w))) config None
                        (wld (stageReports H files l w))))) as (ev & _ & ->).
    reflexivity.
  - rewrite (uploadReports_Throw files config l w e E). cbn [res loc wld].
    rewrite reportsFailed_run. reflexivity.
Qed.

Lemma batch_results files config l w :
  results (loc (batch H P files config l w)) =
  results l ++ map (resultFor (verdict H P files config l w)) (reportFiles files).
Proof.
  unfold batch, verdict.
  rewrite tryFinally_loc. rewrite (proj2 (removeStaged_run H _ _)).
  rewrite tryCatch_loc.
  destruct (res (stageReports H files l w)) as [[]|e] eqn:E.
  - destruct (uploadReports_Normal files config l w E) as (answer & Ha & ->).
    cbv zeta in Ha. rewrite Ha.
    destruct (spread_run files answer (loc (stageReports H files l w))
                (wld (MediaShuttleService.uploadToMediaShuttle H P
                        (tempFilePaths (loc (stageReports H files l w))) config None
                        (wld (stageReports H files l w))))) as (ev & _ & ->).
    cbn [res loc results]. rewrite stageReports_results. reflexivity.
  - rewrite (uploadReports_Throw files config l w e E). cbn [res loc wld].
    rewrite reportsFailed_run. cbn [loc results].
    rewrite stageReports_results. reflexivity.
Qed.

Lemma announce_run files l w :
  res (announce files l w) = Normal tt /\ loc (announce files l w) = l.
Proof.
  unfold announce. rewrite bind_unfold. leaf.
  destruct (0 <? length (skippedFiles files))%nat; split; reflexivity.
Qed.

Lemma atStaging_eq files w :
  atStaging files w = wld (announceReports files noLocals (wld (announce files noLocals w))).
Proof.
  unfold atStaging. rewrite bind_unfold.
  destruct (announce_run files noLocals w) as [-> ->]. reflexivity.
Qed.

Lemma reportFiles_length files :
  (length (reportFiles files) =? 0)%nat = false <-> reportFiles files <> [].
Proof.
  destruct (reportFiles files); cbn; split; congruence.
Qed.

(** The results of [upload] when there is something to upload. *)
Lemma upload_results files w settings :
  configService "mediaShuttle" = Some settings ->
  reportFiles files <> [] ->
  res (upload H P configService files noLocals w) =
  Normal (map (resultFor (verdict H P files (pickConfig settings) noLocals
                                  (atStaging files w)))
              (reportFiles files)
          ++ map skippedResult (skippedFiles files)).
Proof.
  intros Hcfg Hne. apply reportFiles_length in Hne.
  rewrite atStaging_eq.
  unfold upload. rewrite bind_unfold.
  destruct (announce_run files noLocals w) as [-> ->]. rewrite Hne.
  rewrite bind_unfold. unfold announceReports at 1 2 3. leaf.
  unfold getMediaShuttleConfig. rewrite Hcfg. rewrite bind_unfold. leaf.
  fold (batch H P files (pickConfig settings)).
  rewrite bind_unfold, batch_res.
  rewrite bind_unfold, forOf_push. leaf.
  rewrite batch_results. cbn [results noLocals app].
  unfold announceReports. leaf. reflexivity.
Qed.

(** The world [upload] leaves when there is something to upload. *)
Lemma upload_wld files w settings :
  configService "mediaShuttle" = Some settings ->
  reportFiles files <> [] ->
  exists e,
    isLog e = true /\
    wld (upload H P configService files noLocals w) =
    record e (wld (batch H P files (pickConfig settings) noLocals (atStaging files w))).
Proof.
  intros Hcfg Hne. apply reportFiles_length in Hne.
  rewrite atStaging_eq.
  unfold upload. rewrite bind_unfold.
  destruct (announce_run files noLocals w) as [-> ->]. rewrite Hne.
  rewrite bind_unfold. unfold announceReports at 1 2 3. leaf.
  unfold getMediaShuttleConfig. rewrite Hcfg. rewrite bind_unfold. leaf.
  fold (batch H P files (pickConfig settings)).
  rewrite bind_unfold, batch_res.
  rewrite bind_unfold, forOf_push. leaf.
  unfold announceReports. leaf.
  eexists. split; [|reflexivity]. reflexivity.
Qed.
End CoordinatorBatch.

Section CoordinatorStaging.
Variable H : Host.

Lemma stage_missing file l w :
  data file = None ->
  stage H file l w = mkOut (Throw (Error (missingMessage file))) l w.
Proof. intros E. unfold stage. rewrite E. reflexivity. Qed.

Lemma stage_loop_throws xs l w :
  (exists file, In file xs /\ data file = None) ->
  exists e, res (forOf xs (stage H) l w) = Throw e.
Proof.
  revert l w. induction xs as [|x xs IH]; intros l w (file & Hin & Hdata).
  - destruct Hin.
  - cbn [forOf]. rewrite bind_unfold.
    destruct (res (stage H x l w)) as [a|e] eqn:E; [|eauto].
    destruct Hin as [->|Hin].
    + rewrite (stage_missing file l w Hdata) in E. discriminate.
    + apply IH. eauto.
Qed.

Lemma stageReports_throws files l w :
  (exists file, In file (reportFiles files) /\ data file = None) ->
  exists e, res (stageReports H files l w) = Throw e /\
            loc (stageReports H files l w) = loc (forOf (reportFiles files) (stage H) l w) /\
            wld (stageReports H files l w) = wld (forOf (reportFiles files) (stage H) l w) /\
            res (forOf (reportFiles files) (stage H) l w) = Throw e.
Proof.
  intros Hmiss. destruct (stage_loop_throws _ l w Hmiss) as (e & E).
  exists e. unfold stageReports. rewrite bind_unfold, E. auto.
Qed.

Lemma stage_written file bytes l w :
  (forall w' p, writeFileSync_error H w' p = None) ->
  data file = Some bytes ->
  stage H file l w =
  mkOut (Normal tt) (push_tempFilePath (stagedPath H file) l)
        (record (EvLog LLog ["[MAYO] Created temp file: " +:+ fileName file])
                (set_fs (<[stagedPath H file := File bytes]> (fs w))
                        (record (EvWriteFile (stagedPath H file) bytes) w))).
Proof.
  intros Hdisk E. unfold stage, writeFileSync, stagedPath. rewrite E.
  rewrite !bind_unfold. leaf. rewrite Hdisk. reflexivity.
Qed.

(** With a disk that takes every write, the staging loop stops at the first
    report file without data, having written exactly the files before it. *)
Lemma stage_loop_first_missing xs file l w :
  (forall w' p, writeFileSync_error H w' p = None) ->
  List.find missing xs = Some file ->
  exists staged evs,
    res (forOf xs (stage H) l w) = Throw (Error (missingMessage file)) /\
    tempFilePaths (loc (forOf xs (stage H) l w)) =
      tempFilePaths l ++ map (stagedPath H) staged /\
    trace (wld (forOf xs (stage H) l w)) = trace w ++ evs /\
    (forall p d, In (EvWriteFile p d) evs -> In p (map (stagedPath H) staged)).
Proof.
  intros Hdisk. revert l w. induction xs as [|x xs IH]; intros l w Hfind; [discriminate|].
  cbn [List.find] in Hfind. cbn [forOf]. rewrite bind_unfold.
  unfold missing in Hfind at 1. destruct (data x) as [bytes|] eqn:E.
  - rewrite (stage_written x bytes l w Hdisk E). cbn [res loc wld].
    destruct (IH (push_tempFilePath (stagedPath H x) l)
                 (record (EvLog LLog ["[MAYO] Created temp file: " +:+ fileName x])
                    (set_fs (<[stagedPath H x := File bytes]> (fs w))
                       (record (EvWriteFile (stagedPath H x) bytes) w))) Hfind)
      as (staged & evs & Hres & Hpaths & Htrace & Hwritten).
    exists (x :: staged),
           (EvWriteFile (stagedPath H x) bytes ::
            EvLog LLog ["[MAYO] Created temp file: " +:+ fileName x] :: evs).
    split; [exact Hres|]. split; [|split].
    + rewrite Hpaths. cbn [push_tempFilePath tempFilePaths map].
      rewrite <- app_assoc. reflexivity.
    + rewrite Htrace. cbn [record set_fs trace]. rewrite <- !app_assoc. reflexivity.
    + intros p d [Hin|[Hin|Hin]].
      * injection Hin as <- _. left. reflexivity.
      * discriminate.
      * right. eapply Hwritten, Hin.
  - injection Hfind as ->. rewrite (stage_missing file l w E).
    exists [], []. cbn [res loc wld map]. rewrite !app_nil_r.
    repeat split. intros p d [].
Qed.

Lemma find_missing xs :
  (exists file, In file xs /\ data file = None) ->
  exists file, List.find missing xs = Some file.
Proof.
  intros (file & Hin & Hdata).
  destruct (List.find missing xs) as [f|] eqn:E; [eauto|].
  apply (find_none _ _ E) in Hin. unfold missing in Hin. rewrite Hdata in Hin.
  discriminate.
Qed.

Lemma stageReports_quiet files :
  emits isLogOrDisk (stageReports H files).
Proof. unfold_uploader. unfold writeFileSync. emits_go. Qed.

Lemma removeStaged_quiet :
  emits (fun e => isLogOrDisk e && negb (isWrite e)) (removeStaged H).
Proof. unfold_uploader. unfold existsSync, unlinkSync. emits_go. Qed.

Lemma announcing_quiet files :
  emits (L := Locals) isLog (announce files ;; announceReports files).
Proof. unfold_uploader. emits_go. Qed.
End CoordinatorStaging.

Section CoordinatorShape.
Variable H : Host.
Variable P : Playwright.
Variable configService : MediaShuttleConfigFactory.ConfigService.

Lemma partition_Permutation {A} (p : A -> bool) (xs : list A) :
  Permutation xs (List.filter p xs ++ List.filter (fun x => negb (p x)) xs).
Proof.
  induction xs as [|x xs IH]; [constructor|].
  cbn [List.filter]. destruct (p x); cbn [negb].
  - cbn [app]. constructor. exact IH.
  - apply Permutation_cons_app. exact IH.
Qed.

Lemma nothing_reported_all_skipped files :
  reportFiles files = [] -> skippedFiles files = files.
Proof.
  unfold reportFiles, skippedFiles. induction files as [|x xs IH]; [reflexivity|].
  cbn [List.filter]. destruct (isReport x); [discriminate|].
  intros E. cbn [negb]. rewrite (IH E). reflexivity.
Qed.

Lemma resultFor_names v xs : map ur_fileName (map (resultFor v) xs) = map fileName xs.
Proof.
  rewrite map_map. apply map_ext. intros file. destruct v; reflexivity.
Qed.

Lemma resultFor_not_skipped v xs : Forall (fun r => skipped r = None) (map (resultFor v) xs).
Proof.
  induction xs as [|file xs IH]; cbn [map]; constructor; [|exact IH].
  destruct v; reflexivity.
Qed.

(** [upload] when no file is a report. *)
Lemma upload_nothing files l w :
  reportFiles files = [] ->
  upload H P configService files l w =
  mkOut (Normal (map skippedResult files)) l
        (record (EvLog LLog ["[MAYO] No files ending with '_Report.docx' found. Skipping upload."])
                (wld (announce files l w))).
Proof.
  intros E. unfold upload. rewrite bind_unfold.
  destruct (announce_run files l w) as [-> ->]. rewrite E. cbn [length Nat.eqb].
  rewrite bind_unfold. leaf. rewrite (nothing_reported_all_skipped files E). reflexivity.
Qed.

Lemma announce_world files (l : Locals) w :
  exists logs,
    wld (announce files l w) =
    {| fs := fs w; this_browser := this_browser w; this_context := this_context w;
       trace := trace w ++ logs |} /\
    forallb isLog logs = true.
Proof.
  unfold announce. rewrite bind_unfold. leaf.
  destruct (0 <? length (skippedFiles files))%nat; cbn [when]; leaf.
  - eexists [_; _]. unfold record. cbn [fs this_browser this_context trace].
    rewrite <- app_assoc. split; reflexivity.
  - eexists [_]. split; reflexivity.
Qed.

(** The shape of the result list, whenever [upload] can get its
    configuration or does not need it. *)
Lemma upload_shape files w :
  reportFiles files = [] \/ configService "mediaShuttle" <> None ->
  exists v,
    res (upload H P configService files noLocals w) =
    Normal (map (resultFor v) (reportFiles files) ++ map skippedResult (skippedFiles files)).
Proof.
  intros Hyp. destruct (reportFiles files) as [|x xs] eqn:E.
  - exists None. rewrite (upload_nothing files noLocals w E).
    rewrite (nothing_reported_all_skipped files E). reflexivity.
  - destruct Hyp as [?|Hcfg]; [discriminate|].
    destruct (configService "mediaShuttle") as [settings|] eqn:Hs; [|congruence].
    eexists. rewrite <- E. apply (upload_results H P configService files w settings Hs).
    rewrite E. discriminate.
Qed.
End CoordinatorShape.

(* ===================================================================== *)
(** ** Claims about the batch upload coordinator *)
(* ===================================================================== *)

Section CoordinatorTheorems.
Variable H : Host.
Variable P : Playwright.
Variable configService : MediaShuttleConfigFactory.ConfigService.

(** C1. Whenever [upload] can read its configuration (or has no report
    file, and so never reads it), it returns normally with one result per
    input file: as many results as files, the result names a permutation
    of the input names, the results of the report files first and the
    skipped files' results appended after them. *)
Theorem upload_one_result_per_file files w :
  reportFiles files = [] \/ configService "mediaShuttle" <> None ->
  exists results,
    res (upload H P configService files noLocals w) = Normal results /\
    length results = length files /\
    Permutation (map fileName files) (map ur_fileName results) /\
    exists reported,
      results = reported ++ map skippedResult (skippedFiles files) /\
      map ur_fileName reported = map fileName (reportFiles files) /\
      Forall (fun r => skipped r = None) reported.
Proof.
  intros Hyp. destruct (upload_shape H P configService files w Hyp) as (v & Hres).
  eexists. split; [exact Hres|].
  assert (Hnames :
    map ur_fileName (map (resultFor v) (reportFiles files)
                     ++ map skippedResult (skippedFiles files)) =
    map fileName (List.filter isReport files
                  ++ List.filter (fun file => negb (isReport file)) files)).
  { rewrite !map_app, resultFor_names, map_map. reflexivity. }
  split; [|split].
  - rewrite <- (length_map ur_fileName), Hnames, length_map.
    symmetry. apply Permutation_length, partition_Permutation.
  - rewrite Hnames. apply Permutation_map, partition_Permutation.
  - exists (map (resultFor v) (reportFiles files)).
    split; [reflexivity|]. split; [apply resultFor_names | apply resultFor_not_skipped].
Qed.

(** C2. Under the same condition, every input file whose name does not
    end in '_Report.docx' gets the result success:true, skipped:true,
    whatever the portal answers. When no input file is a report, [upload]
    returns that result for every input and does nothing but log: no
    browser, no disk operation, the service's handles untouched; this
    branch does not even read the configuration. *)
Theorem skipped_files_succeed_without_session files w :
  reportFiles files = [] \/ configService "mediaShuttle" <> None ->
  let o := upload H P configService files noLocals w in
  (exists reported,
      res o = Normal (reported ++ map skippedResult (skippedFiles files)) /\
      map ur_fileName reported = map fileName (reportFiles files) /\
      forall file, In file files -> isReport file = false ->
                   In (skippedResult file) (reported ++ map skippedResult (skippedFiles files))) /\
  match reportFiles files with
  | [] =>
      res o = Normal (map skippedResult files) /\
      exists logs,
        trace (wld o) = trace w ++ logs /\ forallb isLog logs = true /\
        this_browser (wld o) = this_browser w /\
        this_context (wld o) = this_context w /\
        fs (wld o) = fs w
  | _ :: _ => True
  end.
Proof.
  intros Hyp o. split.
  - destruct (upload_shape H P configService files w Hyp) as (v & Hres).
    exists (map (resultFor v) (reportFiles files)). split; [exact Hres|].
    split; [apply resultFor_names|].
    intros file Hin Hskip. apply in_or_app. right. apply in_map.
    apply filter_In. rewrite Hskip. auto.
  - destruct (reportFiles files) eqn:E; [|exact I].
    unfold o. rewrite (upload_nothing H P configService files noLocals w E).
    cbn [res wld]. split; [reflexivity|].
    destruct (announce_world files noLocals w) as (logs & -> & Hlogs).
    eexists (logs ++ [_]). cbn [record trace fs this_browser this_context].
    rewrite <- app_assoc, forallb_app, Hlogs. repeat split.
Qed.

(** C3. When staging succeeded and the try block of uploadToMediaShuttle
    throws [e] for the staged batch (at login, during the interaction or
    while monitoring, or anywhere else), [upload] gives every report file
    success:false with one and the same message, the message of [e]
    ('Batch upload failed' when that is empty), and every skipped file its
    success:true, skipped:true. *)
Theorem failed_attempt_fails_every_report files w settings e :
  configService "mediaShuttle" = Some settings ->
  reportFiles files <> [] ->
  let staged := stageReports H files noLocals (atStaging files w) in
  res staged = Normal tt ->
  res (MediaShuttleService.uploadAttempt
         H P (tempFilePaths (loc staged)) (pickConfig settings) None (wld staged)) = Throw e ->
  res (upload H P configService files noLocals w) =
  Normal (map (failedResult (orElse (Some (messageOf e)) "Batch upload failed"))
              (reportFiles files)
          ++ map skippedResult (skippedFiles files)).
Proof.
  intros Hcfg Hne staged Hstaged Hattempt.
  rewrite (upload_results H P configService files w settings Hcfg Hne).
  unfold verdict. fold staged. rewrite Hstaged.
  rewrite uploadToMediaShuttle_res, Hattempt. reflexivity.
Qed.
End CoordinatorTheorems.

Section StagingTheorems.
Variable H : Host.
Variable P : Playwright.
Variable configService : MediaShuttleConfigFactory.ConfigService.

Lemma forallb_weaken (q q' : Event -> bool) evs :
  (forall e, q e = true -> q' e = true) ->
  forallb q evs = true -> forallb q' evs = true.
Proof.
  intros Hq. rewrite !forallb_forall. auto.
Qed.

(** C7, as the code has it. When some report file has no data, [upload]
    does not throw: it returns the full list, in which every report file
    is failed with one message and every skipped file is skipped. Nothing
    of the browser happens: the call only logs and touches the disk. On a
    disk that takes every write, the message is 'File data is missing for
    <name>' for the first report file without data; if the disk also
    performs every removal, no path written by the call exists afterwards. *)
Theorem missing_data_fails_batch_before_session files w settings :
  configService "mediaShuttle" = Some settings ->
  (exists file, In file (reportFiles files) /\ data file = None) ->
  let o := upload H P configService files noLocals w in
  exists message evs,
    res o = Normal (map (failedResult message) (reportFiles files)
                    ++ map skippedResult (skippedFiles files)) /\
    trace (wld o) = trace w ++ evs /\
    forallb isLogOrDisk evs = true /\
    ((forall w' p, writeFileSync_error H w' p = None) ->
     exists file, List.find missing (reportFiles files) = Some file /\
                  message = "File data is missing for " +:+ fileName file) /\
    ((forall w' p, writeFileSync_error H w' p = None) ->
     (forall w' p, unlinkSync_error H w' p = None) ->
     forall p d, In (EvWriteFile p d) evs -> fs (wld o) !! p = None).
Proof.
  intros Hcfg Hmiss o.
  assert (Hne : reportFiles files <> []).
  { destruct Hmiss as (file & Hin & _). intros E. rewrite E in Hin. destruct Hin. }
  set (w0 := atStaging files w).
  destruct (stageReports_throws H files noLocals w0 Hmiss)
    as (e & Eres & Eloc & Ewld & Eloop).
  set (staged := stageReports H files noLocals w0) in *.
  set (l1 := {| results := results (loc staged)
                           ++ map (resultFor (Some (messageOf e))) (reportFiles files);
                tempFilePaths := tempFilePaths (loc staged) |}).
  set (w1 := record (EvLog LError ["[MAYO] Failed to upload files: " +:+ messageOf e])
                    (wld staged)).
  assert (Hbatch : wld (batch H P files (pickConfig settings) noLocals w0) =
                   wld (removeStaged H l1 w1)).
  { unfold batch. rewrite tryFinally_wld, tryCatch_wld, tryCatch_loc.
    rewrite (uploadReports_Throw H P files (pickConfig settings) noLocals w0 e Eres).
    cbn [res loc wld]. rewrite reportsFailed_run. reflexivity. }
  destruct (upload_wld H P configService files w settings Hcfg Hne) as (ev & Hev & Hwld).
  fold w0 in Hwld. rewrite Hbatch in Hwld.
  destruct (announcing_quiet files noLocals w) as (logs0 & T0 & Q0).
  change (wld ((announce files;; announceReports files) noLocals w)) with w0 in T0.
  destruct (stageReports_quiet H files noLocals w0) as (evsS & TS & QS).
  fold staged in TS.
  destruct (removeStaged_quiet H l1 w1) as (evsR & TR & QR).
  assert (Htrace : trace (wld o) =
                   trace w ++ logs0 ++ evsS
                     ++ [EvLog LError ["[MAYO] Failed to upload files: " +:+ messageOf e]]
                     ++ evsR ++ [ev]).
  { unfold o. rewrite Hwld. cbn [record trace]. rewrite TR. unfold w1.
    cbn [record trace]. rewrite TS, T0. rewrite <- !app_assoc. reflexivity. }
  exists (messageOf e), (logs0 ++ evsS
     ++ [EvLog LError ["[MAYO] Failed to upload files: " +:+ messageOf e]]
     ++ evsR ++ [ev]).
  split; [|split; [exact Htrace|split; [|split]]].
  - unfold o. rewrite (upload_results H P configService files w settings Hcfg Hne).
    unfold verdict. fold w0. fold staged. rewrite Eres. reflexivity.
  - assert (Q0' : forallb isLogOrDisk logs0 = true)
      by (eapply forallb_weaken; [|exact Q0]; intros []; cbn; congruence).
    assert (QR' : forallb isLogOrDisk evsR = true)
      by (eapply forallb_weaken; [|exact QR]; intros x Hx; apply andb_prop in Hx; tauto).
    rewrite !forallb_app, QS, Q0', QR'.
    cbn. destruct ev; try discriminate. reflexivity.
  - intros Hwrite. destruct (find_missing _ Hmiss) as (file & Hfind).
    exists file. split; [exact Hfind|].
    destruct (stage_loop_first_missing H _ file noLocals w0 Hwrite Hfind)
      as (_ & _ & Hthrow & _).
    rewrite Hthrow in Eloop. injection Eloop as <-. reflexivity.
  - intros Hwrite Hunlink p d Hin.
    destruct (find_missing _ Hmiss) as (file & Hfind).
    destruct (stage_loop_first_missing H _ file noLocals w0 Hwrite Hfind)
      as (done & evs' & _ & Hpaths & Htr & Hwritten).
    rewrite <- Ewld, TS in Htr. apply app_inv_head in Htr. subst evs'.
    unfold o. rewrite Hwld. cbn [record fs].
    apply removeStaged_removes; [exact Hunlink|].
    unfold l1. cbn [tempFilePaths]. rewrite Eloc, Hpaths. cbn [noLocals tempFilePaths app].
    apply in_app_or in Hin as [Hin|Hin].
    { rewrite forallb_forall in Q0. apply Q0 in Hin. discriminate. }
    apply in_app_or in Hin as [Hin|Hin]; [eapply Hwritten, Hin|].
    apply in_app_or in Hin as [Hin|Hin].
    { destruct Hin as [Hin|[]]. discriminate. }
    apply in_app_or in Hin as [Hin|Hin].
    { rewrite forallb_forall in QR. apply QR in Hin. discriminate. }
    destruct Hin as [Hin|[]]. subst ev. discriminate.
Qed.

Lemma NoDup_map_injective_on {A B} (f : A -> B) (xs : list A) :
  (forall x y, In x xs -> In y xs -> f x = f y -> x = y) ->
  List.NoDup xs -> List.NoDup (map f xs).
Proof.
  intros Hinj Hxs. induction Hxs as [|x xs Hx Hxs IH]; cbn [map]; constructor.
  - rewrite in_map_iff. intros (y & E & Hy).
    apply Hinj in E; [subst y; contradiction | right; exact Hy | left; reflexivity].
  - apply IH. intros y z Hy Hz. apply Hinj; right; assumption.
Qed.

Lemma find_app_first {A} (f : A -> bool) (xs ys : list A) :
  List.find f (xs ++ ys) =
  match List.find f xs with
  | Some x => Some x
  | None => List.find f ys
  end.
Proof.
  induction xs as [|x xs IH]; [reflexivity|].
  cbn [app List.find]. destruct (f x); [reflexivity | exact IH].
Qed.

(** One turn of the staging loop that completes has written the file. *)
Lemma stage_Normal_disk file l w :
  res (stage H file l w) = Normal tt ->
  exists bytes,
    data file = Some bytes /\
    fs (wld (stage H file l w)) = <[stagedPath H file := File bytes]> (fs w).
Proof.
  unfold stage, writeFileSync, stagedPath. destruct (data file) as [bytes|]; [|discriminate].
  intros Hres. exists bytes. split; [reflexivity|]. revert Hres.
  repeat step; try discriminate. reflexivity.
Qed.

(** After the staging loop each path holds what was written there last. *)
Lemma stage_loop_disk xs l w p :
  res (forOf xs (stage H) l w) = Normal tt ->
  fs (wld (forOf xs (stage H) l w)) !! p =
  match lastStaged H p xs with
  | Some file => File <$> data file
  | None => fs w !! p
  end.
Proof.
  revert l w. induction xs as [|x xs IH]; intros l w; [reflexivity|].
  cbn [forOf]. rewrite bind_unfold.
  destruct (res (stage H x l w)) as [[]|e] eqn:E; [|discriminate].
  intros Hrest. rewrite (IH _ _ Hrest).
  unfold lastStaged. cbn [rev]. rewrite find_app_first.
  destruct (List.find _ (rev xs)); [reflexivity|].
  destruct (stage_Normal_disk x l w E) as (bytes & Hdata & ->).
  cbn [List.find]. destruct (String.eqb (stagedPath H x) p) eqn:Ep.
  - apply String.eqb_eq in Ep. subst p. rewrite lookup_insert_eq, Hdata. reflexivity.
  - apply String.eqb_neq in Ep. rewrite lookup_insert_ne by exact Ep. reflexivity.
Qed.

Lemma stageReports_disk files l w p :
  res (stageReports H files l w) = Normal tt ->
  fs (wld (stageReports H files l w)) !! p =
  match lastStaged H p (reportFiles files) with
  | Some file => File <$> data file
  | None => fs w !! p
  end.
Proof.
  unfold stageReports. rewrite bind_unfold.
  destruct (res (forOf _ _ l w)) as [[]|e] eqn:E; [|discriminate].
  intros _. rewrite bind_unfold. leaf. cbn [record fs]. apply stage_loop_disk, E.
Qed.

(** C8, as the code has it. The temporary path of a report file is
    path.join(os.tmpdir(), fileName): when staging succeeds, the staged
    paths are those of the report files, in order, whatever the state of
    the world and whichever the invocation. Two report files of the same
    name share one path, and after staging every path holds the content of
    the report file staged there last (or what it held before, when none
    was): a later write replaces an earlier one, of this batch or of
    another invocation. The staged paths are pairwise distinct when the
    names of the report files are pairwise distinct and path.join keeps
    the names of this batch apart. *)
Theorem staged_paths_follow_names files w :
  let staged := stageReports H files noLocals w in
  res staged = Normal tt ->
  tempFilePaths (loc staged) =
    map (fun file => path_join H [os_tmpdir H; fileName file]) (reportFiles files) /\
  (forall file file', fileName file = fileName file' ->
                      stagedPath H file = stagedPath H file') /\
  (forall p, fs (wld staged) !! p =
             match lastStaged H p (reportFiles files) with
             | Some file => File <$> data file
             | None => fs w !! p
             end) /\
  ((forall file file',
       In file (reportFiles files) -> In file' (reportFiles files) ->
       stagedPath H file = stagedPath H file' -> fileName file = fileName file') ->
   List.NoDup (map fileName (reportFiles files)) ->
   List.NoDup (tempFilePaths (loc staged))).
Proof.
  intros staged Hstaged.
  pose proof (stageReports_Normal H files noLocals w Hstaged) as Hpaths.
  fold staged in Hpaths. cbn [noLocals tempFilePaths app] in Hpaths.
  split; [exact Hpaths|]. split; [|split].
  - intros file file' E. unfold stagedPath. rewrite E. reflexivity.
  - intros p. apply stageReports_disk, Hstaged.
  - intros Hinj Hnames. rewrite Hpaths.
    change (map (stagedPath H) (reportFiles files))
      with (map (fun file => (fun name => path_join H [os_tmpdir H; name]) (fileName file))
                (reportFiles files)).
    rewrite <- (map_map fileName (fun name => path_join H [os_tmpdir H; name])).
    apply NoDup_map_injective_on; [|exact Hnames].
    intros name name' Hin Hin' E.
    apply in_map_iff in Hin as (file & <- & Hfile).
    apply in_map_iff in Hin' as (file' & <- & Hfile').
    apply (Hinj file file' Hfile Hfile' E).
Qed.
End StagingTheorems.

Section HeadlessTheorem.
Import MediaShuttleService.
Variable H : Host.
Variable P : Playwright.

Lemma uploadToMediaShuttle_withHeadless h filePaths config :
  uploadToMediaShuttle H P filePaths (withHeadless h config) =
  uploadToMediaShuttle H P filePaths config.
Proof.
  unfold uploadToMediaShuttle, uploadAttempt, initializeBrowser, login, performUpload,
    withHeadless.
  cbn [url username password recipientEmail timeout]. reflexivity.
Qed.

Lemma pickConfig_withEnv p v :
  pickConfig (MediaShuttleConfigFactory.factory (withEnv "MEDIA_SHUTTLE_HEADLESS" v p)) =
  withHeadless (Some (MediaShuttleConfigFactory.isTrue v))
               (pickConfig (MediaShuttleConfigFactory.factory p)).
Proof. reflexivity. Qed.

Lemma uploadReports_withHeadless h files config l w :
  uploadReports H P files (withHeadless h config) l w = uploadReports H P files config l w.
Proof.
  unfold uploadReports. rewrite !(bind_unfold (stageReports H files)).
  destruct (res (stageReports H files l w)); [|reflexivity].
  rewrite !bind_getLocals, uploadToMediaShuttle_withHeadless. reflexivity.
Qed.

(** C10. Every browser launch recorded by uploadToMediaShuttle asks for
    headless = false. Replacing config.headless by any value changes
    nothing of what uploadToMediaShuttle does, and setting the variable
    MEDIA_SHUTTLE_HEADLESS to any value (or unsetting it) changes nothing
    of what [upload] does with the configuration loaded from process.env. *)
Theorem launch_ignores_headless filePaths config files p w :
  (exists evs,
      trace (wld (uploadToMediaShuttle H P filePaths config None w)) = trace w ++ evs /\
      forallb launchesHeadful evs = true) /\
  (forall h,
      uploadToMediaShuttle H P filePaths (withHeadless h config) None w =
      uploadToMediaShuttle H P filePaths config None w) /\
  (forall v,
      upload H P (MediaShuttleConfigFactory.forRoot (withEnv "MEDIA_SHUTTLE_HEADLESS" v p))
             files noLocals w =
      upload H P (MediaShuttleConfigFactory.forRoot p) files noLocals w).
Proof.
  split; [|split].
  - apply uploadToMediaShuttle_headful.
  - intros h. rewrite uploadToMediaShuttle_withHeadless. reflexivity.
  - intros v. unfold upload, getMediaShuttleConfig.
    change (MediaShuttleConfigFactory.forRoot (withEnv "MEDIA_SHUTTLE_HEADLESS" v p)
                                              "mediaShuttle")
      with (Some (MediaShuttleConfigFactory.factory (withEnv "MEDIA_SHUTTLE_HEADLESS" v p))).
    change (MediaShuttleConfigFactory.forRoot p "mediaShuttle")
      with (Some (MediaShuttleConfigFactory.factory p)).
    cbv iota. rewrite pickConfig_withEnv.
    rewrite !(bind_unfold (announce files)).
    destruct (res (announce files noLocals w)); [|reflexivity].
    destruct (length (reportFiles files) =? 0)%nat; [reflexivity|].
    rewrite !(bind_unfold (announceReports files)).
    destruct (res (announceReports files _ _)); [|reflexivity].
    rewrite !(bind_unfold (ret _)). cbn [ret res loc wld].
    rewrite !(bind_unfold (tryFinally _ _)). unfold tryFinally, tryCatch.
    rewrite uploadReports_withHeadless. reflexivity.
Qed.
End HeadlessTheorem.

(* ===================================================================== *)
(** ** Concrete runs *)
(* ===================================================================== *)

Import Scenario.

(** The scenario of the specification: one report and one other file, the
    portal succeeds. *)
Example upload_report_and_notes :
  res (upload posix portalUp configured [report; notes] noLocals emptyWorld) =
  Normal [ {| ur_fileName := "x_Report.docx"; success := true;
              skipped := None; errorMessage := None |};
           {| ur_fileName := "notes.txt"; success := true;
              skipped := Some true; errorMessage := None |} ].
Proof. vm_compute. reflexivity. Qed.

(** After that run the staged file is gone and the session is closed. *)
Example upload_report_and_notes_cleans_up :
  let w := wld (upload posix portalUp configured [report; notes] noLocals emptyWorld) in
  fs w !! "/tmp/x_Report.docx" = None /\ this_browser w = None /\ this_context w = None.
Proof. vm_compute. repeat split. Qed.

Example terminal_markers :
  isTerminal (TopTextContent (Some "Transfer Completed")) = true /\
  isTerminal (TopTextContent (Some "SUCCESS")) = true /\
  isTerminal (TopTextContent (Some "finished.")) = true /\
  isTerminal (TopTextContent (Some "Uploading 40%")) = false /\
  isTerminal (TopTextContent None) = false /\
  isTerminal NoTopText = false.
Proof. vm_compute. repeat split. Qed.

(** C5, where the code departs from it. On a page whose progress panel
    shows and whose status text reaches "Transfer Completed" at the second
    poll, waitForUploadCompletion does not return at that poll: the
    predicate throws there, the wait is rejected, and the catch block
    decides. With a status element that reads "Transfer Completed, 0
    errors" the call throws 'Transfer failed: ...'; with no such element
    it returns, but only through the fallback, whose log lines it leaves;
    the line 'Media Shuttle transfer completed successfully' is never
    logged. The wait is opened without a timeout option. *)
Theorem completed_status_is_not_detected :
  let page := {| page_id := 1 |} in
  let o := MediaShuttleService.waitForUploadCompletion
             MoreScenarios.statusDone page tt emptyWorld in
  let o' := MediaShuttleService.waitForUploadCompletion portalUp page tt emptyWorld in
  existsb isTerminal (pw_polls MoreScenarios.statusDone emptyWorld page None) = true /\
  res o = Throw (Error "Transfer failed: Transfer Completed, 0 errors") /\
  trace (wld o) =
    [ EvEnter MWaitForUploadCompletion;
      EvLog LLog ["Waiting for Media Shuttle transfer completion..."];
      EvWaitForSelector "#transferProgressDetails"
                        {| wait_state := None; wait_timeout := Some 10000%Z |};
      EvLog LLog ["Transfer progress details found, monitoring completion..."];
      EvEnter MMonitorTransferProgress;
      EvWaitForFunction 300000 None;
      EvPoll (TopTextContent (Some "Uploading 40%"));
      EvPoll (TopTextContent (Some "Transfer Completed"));
      EvLog LWarn ["Could not detect transfer completion, checking for error messages..."];
      EvTextContent MediaShuttleService.errorLocator ] /\
  res o' = Normal tt /\
  last (trace (wld o')) =
    Some (EvLog LLog ["No error detected, assuming transfer completed"]).
Proof. vm_compute. repeat split. Qed.

Example monitor_fallback_raises :
  res (MediaShuttleService.waitForUploadCompletion
         (noProgress (Normal (Some "Upload ERROR: quota exceeded"))) {| page_id := 1 |}
         tt emptyWorld) =
  Throw (Error "Transfer failed: Upload ERROR: quota exceeded").
Proof. vm_compute. reflexivity. Qed.

Example monitor_fallback_assumes_success :
  res (MediaShuttleService.waitForUploadCompletion
         (noProgress (Throw (Error "locator.textContent: Timeout 30000ms exceeded.")))
         {| page_id := 1 |} tt emptyWorld) =
  Normal tt.
Proof. vm_compute. reflexivity. Qed.

(** A failing screenshot is logged and the result still carries the
    failure of the login. *)
Example capture_failure_keeps_the_login_error :
  let o := MediaShuttleService.uploadToMediaShuttle
             readOnlyLogs loginRefused ["/tmp/x_Report.docx"] config None stagedWorld in
  MediaShuttleService.error <$> res_value (res o) =
    Some (Some "Login failed: Login failed - still on login page") /\
  In (EvLog LError ["Failed to capture error screenshot:";
                    "Error: EACCES: permission denied, mkdir '/app/logs'"])
     (trace (wld o)) /\
  calls MCaptureErrorScreenshot (trace (wld o)) = 1 /\
  calls MCleanup (trace (wld o)) = 1.
Proof.
  vm_compute. split; [reflexivity|]. split; [|split; reflexivity].
  repeat (first [left; reflexivity | right]).
Qed.

Lemma upload_one_result_per_file_witness :
  (reportFiles [report; notes] = [] \/ configured "mediaShuttle" <> None) /\
  exists results,
    res (upload posix portalUp configured [report; notes] noLocals emptyWorld) = Normal results /\
    length results = 2.
Proof.
  assert (Hyp : reportFiles [report; notes] = [] \/ configured "mediaShuttle" <> None)
    by (right; vm_compute; discriminate).
  split; [exact Hyp|].
  destruct (upload_one_result_per_file posix portalUp configured [report; notes] emptyWorld Hyp)
    as (results & Hres & Hlen & _).
  exists results. split; [exact Hres | exact Hlen].
Defined.

Lemma skipped_files_succeed_without_session_witness :
  (reportFiles [notes] = [] \/ unconfigured "mediaShuttle" <> None) /\
  res (upload posix noBrowser unconfigured [notes] noLocals emptyWorld) =
    Normal [skippedResult notes].
Proof.
  assert (Hyp : reportFiles [notes] = [] \/ unconfigured "mediaShuttle" <> None)
    by (left; vm_compute; reflexivity).
  split; [exact Hyp|].
  exact (proj1 (proj2 (skipped_files_succeed_without_session
                         posix noBrowser unconfigured [notes] emptyWorld Hyp))).
Defined.

Lemma failed_attempt_fails_every_report_witness :
  let settings := MediaShuttleConfigFactory.factory process in
  let staged := stageReports posix [report; notes] noLocals (atStaging [report; notes] emptyWorld) in
  let e := Error "Login failed: Login failed - still on login page" in
  configured "mediaShuttle" = Some settings /\
  reportFiles [report; notes] <> [] /\
  res staged = Normal tt /\
  res (MediaShuttleService.uploadAttempt posix loginRefused (tempFilePaths (loc staged))
         (pickConfig settings) None (wld staged)) = Throw e /\
  res (upload posix loginRefused configured [report; notes] noLocals emptyWorld) =
    Normal (map (failedResult (orElse (Some (messageOf e)) "Batch upload failed"))
                (reportFiles [report; notes])
            ++ map skippedResult (skippedFiles [report; notes])).
Proof.
  intros settings staged e.
  assert (H1 : configured "mediaShuttle" = Some settings) by reflexivity.
  assert (H2 : reportFiles [report; notes] <> []) by (vm_compute; discriminate).
  assert (H3 : res staged = Normal tt) by (vm_compute; reflexivity).
  assert (H4 : res (MediaShuttleService.uploadAttempt posix loginRefused
                      (tempFilePaths (loc staged)) (pickConfig settings) None (wld staged))
               = Throw e) by (vm_compute; reflexivity).
  split; [exact H1|]. split; [exact H2|]. split; [exact H3|]. split; [exact H4|].
  exact (failed_attempt_fails_every_report posix loginRefused configured [report; notes]
           emptyWorld settings e H1 H2 H3 H4).
Defined.

(** C7 as stated fails: with a report file that has no data, [upload] does
    not throw; it returns the result list. *)
Lemma missing_data_is_reported_not_thrown :
  (exists file, In file (reportFiles [report; emptyReport; notes]) /\ data file = None) /\
  res (upload posix portalUp configured [report; emptyReport; notes] noLocals emptyWorld) =
  Normal [ failedResult "File data is missing for y_Report.docx" report;
           failedResult "File data is missing for y_Report.docx" emptyReport;
           skippedResult notes ].
Proof.
  split.
  - exists emptyReport. split; [right; left; reflexivity | reflexivity].
  - vm_compute. reflexivity.
Qed.

Lemma missing_data_fails_batch_before_session_witness :
  let files := [report; emptyReport; notes] in
  let o := upload posix portalUp configured files noLocals emptyWorld in
  configured "mediaShuttle" = Some (MediaShuttleConfigFactory.factory process) /\
  (exists file, In file (reportFiles files) /\ data file = None) /\
  exists message,
    res o = Normal (map (failedResult message) (reportFiles files)
                    ++ map skippedResult (skippedFiles files)) /\
    message = "File data is missing for y_Report.docx" /\
    forallb isLogOrDisk (trace (wld o)) = true /\
    fs (wld o) !! "/tmp/x_Report.docx" = None.
Proof.
  intros files o.
  assert (H1 : configured "mediaShuttle" = Some (MediaShuttleConfigFactory.factory process))
    by reflexivity.
  assert (H2 : exists file, In file (reportFiles files) /\ data file = None)
    by (exists emptyReport; split; [right; left; reflexivity | reflexivity]).
  split; [exact H1|]. split; [exact H2|].
  destruct (missing_data_fails_batch_before_session posix portalUp configured files emptyWorld
              (MediaShuttleConfigFactory.factory process) H1 H2)
    as (message & evs & Hres & Htrace & Hquiet & Hmessage & Hremoved).
  exists message. split; [exact Hres|].
  change (trace emptyWorld ++ evs) with evs in Htrace.
  destruct (Hmessage (fun _ _ => eq_refl)) as (file & Hfind & ->).
  split.
  - vm_compute in Hfind. injection Hfind as <-. reflexivity.
  - split.
    + fold o in Htrace. rewrite Htrace. exact Hquiet.
    + apply (Hremoved (fun _ _ => eq_refl) (fun _ _ => eq_refl)
               "/tmp/x_Report.docx" [Byte.x50; Byte.x4b]).
      fold o in Htrace. rewrite <- Htrace. vm_compute. right. right. right. left. reflexivity.
Defined.

(** C8 as stated fails: two report files of one name are staged at one
    path, and the second write replaces the first. *)
Lemma same_name_same_staged_path :
  let staged := stageReports posix [report; reportAgain] noLocals emptyWorld in
  filePath report <> filePath reportAgain /\
  res staged = Normal tt /\
  tempFilePaths (loc staged) = ["/tmp/x_Report.docx"; "/tmp/x_Report.docx"] /\
  fs (wld staged) !! "/tmp/x_Report.docx" = Some (File [Byte.x00]).
Proof.
  cbv zeta. split; [vm_compute; discriminate|]. vm_compute. repeat split.
Qed.

Lemma staged_paths_follow_names_witness :
  let second := file "z_Report.docx" (Some [Byte.x51]) in
  let files := [report; notes; second] in
  let staged := stageReports posix files noLocals stagedWorld in
  res staged = Normal tt /\
  (forall file file',
      In file (reportFiles files) -> In file' (reportFiles files) ->
      stagedPath posix file = stagedPath posix file' -> fileName file = fileName file') /\
  List.NoDup (map fileName (reportFiles files)) /\
  tempFilePaths (loc staged) = ["/tmp/x_Report.docx"; "/tmp/z_Report.docx"] /\
  List.NoDup (tempFilePaths (loc staged)) /\
  fs (wld staged) !! "/tmp/z_Report.docx" = Some (File [Byte.x51]).
Proof.
  intros second files staged.
  assert (H1 : res staged = Normal tt) by (vm_compute; reflexivity).
  assert (H2 : forall file file',
             In file (reportFiles files) -> In file' (reportFiles files) ->
             stagedPath posix file = stagedPath posix file' -> fileName file = fileName file').
  { intros f f' [<-|[<-|[]]] [<-|[<-|[]]] E; try reflexivity; vm_compute in E; discriminate E. }
  assert (H3 : List.NoDup (map fileName (reportFiles files))).
  { change (List.NoDup ["x_Report.docx"; "z_Report.docx"]).
    constructor; [intros [E|[]]; discriminate E|].
    constructor; [intros []|]. constructor. }
  destruct (staged_paths_follow_names posix files stagedWorld H1)
    as (Hpaths & _ & Hdisk & Hdistinct).
  split; [exact H1|]. split; [exact H2|]. split; [exact H3|].
  split; [exact Hpaths|]. split; [exact (Hdistinct H2 H3)|].
  etransitivity; [exact (Hdisk "/tmp/z_Report.docx") | vm_compute; reflexivity].
Defined.

(** C9 as stated fails: when the browser cannot be launched the attempt
    fails and captureErrorScreenshot is never entered. *)
Lemma no_capture_without_page :
  let o := MediaShuttleService.uploadToMediaShuttle
             posix noBrowser ["/tmp/x_Report.docx"] config None stagedWorld in
  res o = Normal {| MediaShuttleService.success := false;
                    MediaShuttleService.message := "Failed to upload to Media Shuttle";
                    MediaShuttleService.uploadedFiles := None;
                    MediaShuttleService.error :=
                      Some "browserType.launch: Executable doesn't exist" |} /\
  calls MCaptureErrorScreenshot (trace (wld o)) = 0 /\
  calls MCleanup (trace (wld o)) = 1.
Proof. vm_compute. repeat split. Qed.

Lemma capture_after_failure_witness :
  let e := Error "Login failed: Login failed - still on login page" in
  let o := MediaShuttleService.uploadToMediaShuttle
             posix loginRefused ["/tmp/x_Report.docx"] config None stagedWorld in
  res (MediaShuttleService.uploadAttempt
         posix loginRefused ["/tmp/x_Report.docx"] config None stagedWorld) = Throw e /\
  res o = Normal {| MediaShuttleService.success := false;
                    MediaShuttleService.message := "Failed to upload to Media Shuttle";
                    MediaShuttleService.uploadedFiles := None;
                    MediaShuttleService.error := Some (messageOf e) |}.
Proof.
  intros e o.
  assert (H1 : res (MediaShuttleService.uploadAttempt
                      posix loginRefused ["/tmp/x_Report.docx"] config None stagedWorld)
               = Throw e) by (vm_compute; reflexivity).
  split; [exact H1|].
  exact (proj1 (capture_after_failure posix loginRefused ["/tmp/x_Report.docx"] config
                  stagedWorld e H1)).
Defined.

(* ===================================================================== *)
(** ** Further properties: the naming convention *)
(* ===================================================================== *)

Lemma append_cons c (s1 s2 : string) : String c s1 +:+ s2 = String c (s1 +:+ s2).
Proof. reflexivity. Qed.

Lemma length_append (s1 s2 : string) :
  String.length (s1 +:+ s2) = String.length s1 + String.length s2.
Proof.
  induction s1 as [|c s1 IH]; [reflexivity|].
  rewrite append_cons. cbn [String.length]. rewrite IH. reflexivity.
Qed.

Lemma substring_whole (s : string) : String.substring 0 (String.length s) s = s.
Proof. induction s as [|c s IH]; cbn; [reflexivity | f_equal; exact IH]. Qed.

Lemma substring_skip (pre s : string) m :
  String.substring (String.length pre) m (pre +:+ s) = String.substring 0 m s.
Proof.
  induction pre as [|c pre IH]; [reflexivity|].
  rewrite append_cons. cbn [String.length String.substring]. exact IH.
Qed.

Lemma substring_split (s : string) k :
  k <= String.length s ->
  s = String.substring 0 k s +:+ String.substring k (String.length s - k) s.
Proof.
  revert k. induction s as [|c s IH]; intros k Hk.
  - destruct k; [reflexivity | cbn in Hk; lia].
  - destruct k as [|k].
    + cbn [String.substring String.length Nat.sub].
      change (String c s = String c (String.substring 0 (String.length s) s)).
      rewrite substring_whole. reflexivity.
    + cbn in Hk. cbn [String.substring String.length Nat.sub].
      rewrite append_cons. f_equal. apply IH. lia.
Qed.

Lemma endsWith_spec (s suffix : string) :
  endsWith s suffix = true <-> exists stem, s = stem +:+ suffix.
Proof.
  unfold endsWith. cbv zeta. split.
  - intros E. apply andb_prop in E as [Hlen Hsub].
    apply Nat.leb_le in Hlen. apply String.eqb_eq in Hsub.
    exists (String.substring 0 (String.length s - String.length suffix) s).
    pose proof (substring_split s (String.length s - String.length suffix)) as Hs.
    replace (String.length s - (String.length s - String.length suffix))
      with (String.length suffix) in Hs by lia.
    rewrite Hsub in Hs. apply Hs. lia.
  - intros (stem & ->). rewrite length_append.
    replace (String.length stem + String.length suffix - String.length suffix)
      with (String.length stem) by lia.
    rewrite substring_skip, substring_whole, String.eqb_refl.
    replace (String.length suffix <=? String.length stem + String.length suffix)%nat
      with true by (symmetry; apply Nat.leb_le; lia).
    reflexivity.
Qed.

(** X1. A file is taken for upload exactly when its name is some stem
    followed by '_Report.docx', letter case included; every other file is
    on the skipped list, and no file is on both. *)
Theorem report_files_by_suffix (files : list FileData) (file : FileData) :
  (In file (reportFiles files) <->
   In file files /\ exists stem, fileName file = stem +:+ "_Report.docx") /\
  (In file (skippedFiles files) <->
   In file files /\ ~ exists stem, fileName file = stem +:+ "_Report.docx").
Proof.
  unfold reportFiles, skippedFiles. rewrite !filter_In. unfold isReport.
  pose proof (endsWith_spec (fileName file) "_Report.docx") as Hspec.
  destruct (endsWith (fileName file) "_Report.docx"); cbn [negb]; split; split.
  - intros [Hin _]. split; [exact Hin | apply Hspec; reflexivity].
  - intros [Hin _]. split; [exact Hin | reflexivity].
  - intros [_ Hf]. discriminate.
  - intros [_ Hno]. exfalso. apply Hno, Hspec. reflexivity.
  - intros [_ Hf]. discriminate.
  - intros [_ Hyes]. apply Hspec in Hyes. discriminate.
  - intros [Hin _]. split; [exact Hin|]. intros Hyes. apply Hspec in Hyes. discriminate.
  - intros [Hin _]. split; [exact Hin | reflexivity].
Qed.

(* ===================================================================== *)
(** ** Further properties: what a method leaves as it was *)
(* ===================================================================== *)

Section Keeps.
Context {L : Type}.
Variable R : World -> World -> Prop.
Hypothesis R_refl : forall w, R w w.
Hypothesis R_trans : forall w1 w2 w3, R w1 w2 -> R w2 w3 -> R w1 w3.
Hypothesis R_record : forall e w, R w (record e w).

Lemma keeps_ret {A} (a : A) : keeps (L := L) R (ret a).
Proof. intros l w. apply R_refl. Qed.

Lemma keeps_throw {A} e : keeps (L := L) R (throw (A := A) e).
Proof. intros l w. apply R_refl. Qed.

Lemma keeps_getWorld : keeps (L := L) R getWorld.
Proof. intros l w. apply R_refl. Qed.

Lemma keeps_getLocals : keeps (L := L) R getLocals.
Proof. intros l w. apply R_refl. Qed.

Lemma keeps_modifyLocals f : keeps (L := L) R (modifyLocals f).
Proof. intros l w. apply R_refl. Qed.

Lemma keeps_await {A} (o : World -> Result A) : keeps (L := L) R (await o).
Proof. intros l w. apply R_refl. Qed.

Lemma keeps_modifyWorld f : (forall w, R w (f w)) -> keeps (L := L) R (modifyWorld f).
Proof. intros Hf l w. apply Hf. Qed.

Lemma keeps_external {A} e (o : World -> Result A) : keeps (L := L) R (external e o).
Proof. intros l w. apply R_record. Qed.

Lemma keeps_emit e : keeps (L := L) R (emit e).
Proof. intros l w. apply R_record. Qed.

Lemma keeps_log lvl msg : keeps (L := L) R (log lvl msg).
Proof. intros l w. apply R_record. Qed.

Lemma keeps_bind {A B} (m : M L A) (k : A -> M L B) :
  keeps R m -> (forall a, keeps R (k a)) -> keeps R (bind m k).
Proof.
  intros Hm Hk l w. rewrite bind_unfold. specialize (Hm l w).
  destruct (res (m l w)) as [a|e]; [|exact Hm].
  eapply R_trans; [exact Hm | apply Hk].
Qed.

Lemma keeps_tryCatch {A} (m : M L A) (h : Exn -> M L A) :
  keeps R m -> (forall e, keeps R (h e)) -> keeps R (tryCatch m h).
Proof.
  intros Hm Hh l w. rewrite tryCatch_unfold. specialize (Hm l w).
  destruct (res (m l w)) as [a|e]; [exact Hm|].
  eapply R_trans; [exact Hm | apply Hh].
Qed.

Lemma keeps_tryFinally {A} (m : M L A) (f : M L unit) :
  keeps R m -> keeps R f -> keeps R (tryFinally m f).
Proof.
  intros Hm Hf l w. rewrite tryFinally_wld.
  eapply R_trans; [apply Hm | apply Hf].
Qed.

Lemma keeps_when b (m : M L unit) : keeps R m -> keeps R (when b m).
Proof. intros Hm. destruct b; [exact Hm | apply keeps_ret]. Qed.

Lemma keeps_forOf {A} (xs : list A) (body : A -> M L unit) :
  (forall x, keeps R (body x)) -> keeps R (forOf xs body).
Proof.
  intros Hb. induction xs as [|x xs IH]; cbn [forOf].
  - apply keeps_ret.
  - apply keeps_bind; [apply Hb | intros _; exact IH].
Qed.
End Keeps.

Lemma keeps_call {L L' A} R (m : M L' A) (init : L') :
  keeps R m -> keeps (L := L) R (call m init).
Proof. intros Hm l w. rewrite call_wld. apply Hm. Qed.

Lemma keeps_waitForFunction R thrown polls onTimeout :
  (forall w, R w w) -> (forall w1 w2 w3, R w1 w2 -> R w2 w3 -> R w1 w3) ->
  (forall e w, R w (record e w)) ->
  keeps R (MediaShuttleService.waitForFunction thrown polls onTimeout).
Proof.
  intros Hrefl Htrans Hrec l w. rewrite waitForFunction_run. cbn [wld].
  generalize (pollEvents polls). intros evs. revert w.
  induction evs as [|e evs IH]; intros w; cbn [after fold_left]; [apply Hrefl|].
  eapply Htrans; [apply Hrec | apply IH].
Qed.

(** Structural proof of [keeps R m]; [settle] deals with the changes of state. *)
Ltac keeps_go Hrefl Htrans Hrec settle :=
  repeat
    match goal with
    | |- keeps _ (bind _ _) => apply (keeps_bind _ Htrans); [| intros ?]
    | |- keeps _ (tryCatch _ _) => apply (keeps_tryCatch _ Htrans); [| intros ?]
    | |- keeps _ (tryFinally _ _) => apply (keeps_tryFinally _ Htrans)
    | |- keeps _ (call _ _) => apply keeps_call
    | |- keeps _ (when _ _) => apply (keeps_when _ Hrefl)
    | |- keeps _ (forOf _ _) => apply (keeps_forOf _ Hrefl Htrans); intros ?
    | |- keeps _ (MediaShuttleService.waitForFunction _ _ _) =>
        apply (keeps_waitForFunction _ _ _ _ Hrefl Htrans Hrec)
    | |- keeps _ (match ?x with _ => _ end) => destruct x
    | |- keeps _ _ =>
        first
          [ apply (keeps_ret _ Hrefl) | apply (keeps_throw _ Hrefl)
          | apply (keeps_getWorld _ Hrefl) | apply (keeps_getLocals _ Hrefl)
          | apply (keeps_modifyLocals _ Hrefl) | apply (keeps_await _ Hrefl)
          | apply (keeps_external _ Hrec) | apply (keeps_emit _ Hrec)
          | apply (keeps_log _ Hrec)
          | apply keeps_modifyWorld; intros ?; settle ]
    end.

Lemma sameState_refl w : sameState w w.
Proof. repeat split. Qed.

Lemma sameState_trans w1 w2 w3 : sameState w1 w2 -> sameState w2 w3 -> sameState w1 w3.
Proof. unfold sameState. intros (? & ? & ?) (? & ? & ?). repeat split; congruence. Qed.

Lemma sameState_record e w : sameState w (record e w).
Proof. repeat split. Qed.

Lemma noFileLost_refl w : noFileLost w w.
Proof. intros p Hp. exact Hp. Qed.

Lemma noFileLost_trans w1 w2 w3 : noFileLost w1 w2 -> noFileLost w2 w3 -> noFileLost w1 w3.
Proof. intros H12 H23 p Hp. apply H23, H12, Hp. Qed.

Lemma noFileLost_record e w : noFileLost w (record e w).
Proof. intros p Hp. exact Hp. Qed.

Lemma noFileLost_insert p node w : noFileLost w (set_fs (<[p := node]> (fs w)) w).
Proof.
  intros q Hq. cbn [set_fs fs]. destruct (decide (p = q)) as [->|Hne].
  - rewrite lookup_insert_eq. eauto.
  - rewrite lookup_insert_ne by exact Hne. exact Hq.
Qed.

Ltac noFileLost_leaf :=
  cbv beta;
  first
    [ apply noFileLost_insert
    | intros ? Hp; exact Hp
    | match goal with
      | |- noFileLost ?w (set_fs (match ?x with _ => _ end) ?w) =>
          destruct x; [intros ? Hp; exact Hp | apply noFileLost_insert]
      end ].

Section Frames.
Import MediaShuttleService.
Variable H : Host.
Variable P : Playwright.


Lemma waitForUploadCompletion_sameState page :
  keeps sameState (waitForUploadCompletion P page).
Proof.
  unfold_service. keeps_go sameState_refl sameState_trans sameState_record fail.
Qed.

Lemma performUpload_sameState page filePaths config :
  keeps sameState (performUpload P page filePaths config).
Proof.
  unfold_service. keeps_go sameState_refl sameState_trans sameState_record fail.
Qed.

Lemma uploadToMediaShuttle_noFileLost filePaths config :
  keeps noFileLost (uploadToMediaShuttle H P filePaths config).
Proof.
  unfold_service.
  keeps_go noFileLost_refl noFileLost_trans noFileLost_record noFileLost_leaf.
Qed.
End Frames.

(* ===================================================================== *)
(** ** Further properties: signing in and filling the form *)
(* ===================================================================== *)

Section SessionSteps.
Import MediaShuttleService.
Variable H : Host.
Variable P : Playwright.




Lemma trace_after evs w : trace (after evs w) = trace w ++ evs.
Proof.
  revert w. induction evs as [|e evs IH]; intros w; cbn [after fold_left].
  - rewrite app_nil_r. reflexivity.
  - change (fold_left (fun w e => record e w) evs (record e w)) with (after evs (record e w)).
    rewrite IH. cbn [record trace]. rewrite <- app_assoc. reflexivity.
Qed.

Lemma performUpload_bare page filePaths config l w :
  (forall w' target, pw_isVisible P w' page target <> Normal true) ->
  performUpload P page filePaths config l w =
  tryCatch (waitForUploadCompletion P page) uploadProcessFailed l (after visibilityChecks w).
Proof.
  intros Hvis.
  rewrite (tryCatch_unfold (waitForUploadCompletion P page)).
  unfold uploadProcessFailed, visibilityChecks. cbn [after fold_left].
  unfold performUpload, isVisibleOrFalse, isVisible.
  do 2 step. rewrite tryCatch_unfold.
  repeat (step;
          repeat match goal with
                 | Hx : pw_isVisible P _ page _ = Normal ?a |- _ =>
                     is_var a; destruct a; [exfalso; exact (Hvis _ _ Hx)|]; leaf
                 end).
  all: reflexivity.
Qed.

Lemma completion_without_input page :
  emits (L := unit) (fun e => negb (isFormInput e))
        (tryCatch (waitForUploadCompletion P page) uploadProcessFailed).
Proof. unfold uploadProcessFailed. emits_service. Qed.

(** X3. When none of the controls of the upload form is visible (each
    check answers false or fails), performUpload goes straight to waiting
    for the completion of a transfer it never started: nothing is clicked,
    typed or given to a file chooser, and its outcome is that of
    waitForUploadCompletion, a failure being wrapped as 'Upload failed:'. *)
Theorem performUpload_without_controls page filePaths config w :
  (forall w' target, pw_isVisible P w' page target <> Normal true) ->
  let o := performUpload P page filePaths config tt w in
  o = tryCatch (waitForUploadCompletion P page) uploadProcessFailed tt
               (after visibilityChecks w) /\
  exists evs,
    trace (wld o) = trace w ++ visibilityChecks ++ evs /\
    forallb (fun e => negb (isFormInput e)) (visibilityChecks ++ evs) = true.
Proof.
  intros Hvis o. unfold o. rewrite (performUpload_bare page filePaths config tt w Hvis).
  split; [reflexivity|].
  destruct (completion_without_input page tt (after visibilityChecks w)) as (evs & E & F).
  exists evs. rewrite E, trace_after, <- app_assoc. split; [reflexivity|].
  rewrite forallb_app, F. reflexivity.
Qed.

(** X4. performUpload touches nothing but the page: the disk and the
    browser handles of the service are as they were. It returns exactly
    when its try block completes; when the try block throws, at whichever
    step, performUpload logs that cause and throws an Error whose message
    is 'Upload failed: ' followed by the message of that cause ('Unknown
    error' when the cause is no Error). No failure is swallowed and
    nothing else is done after it. *)
Theorem performUpload_failure_is_wrapped page filePaths config w :
  let entered := after [EvEnter MPerformUpload;
                        EvLog LLog ["Starting file upload process..."]] w in
  let steps := uploadSteps P page filePaths config tt entered in
  let o := performUpload P page filePaths config tt w in
  sameState w (wld o) /\
  match res steps with
  | Normal _ => res o = Normal tt /\ wld o = wld steps
  | Throw cause =>
      res o = Throw (Error ("Upload failed: " +:+ messageOf cause)) /\
      wld o = record (EvLog LError ["Upload process failed:"; toString cause]) (wld steps)
  end.
Proof.
  intros entered steps o. split; [apply performUpload_sameState|].
  unfold o.
  change (performUpload P page filePaths config)
    with (emit (L := unit) (EvEnter MPerformUpload) ;;
          log LLog ["Starting file upload process..."] ;;
          tryCatch (uploadSteps P page filePaths config) uploadProcessFailed).
  do 2 (rewrite bind_unfold; leaf).
  rewrite tryCatch_res, tryCatch_wld.
  change (record (EvLog LLog ["Starting file upload process..."])
                 (record (EvEnter MPerformUpload) w)) with entered.
  fold steps.
  destruct (res steps) as [[]|cause]; [split; reflexivity|].
  unfold uploadProcessFailed. rewrite bind_unfold. leaf. split; reflexivity.
Qed.
End SessionSteps.

(* ===================================================================== *)
(** ** Further properties: the browser session *)
(* ===================================================================== *)

Lemma launches_app evs1 evs2 : launches (evs1 ++ evs2) = launches evs1 + launches evs2.
Proof. unfold launches. rewrite List.filter_app, length_app. reflexivity. Qed.

Lemma launches_none evs :
  forallb (fun e => negb (isLaunch e)) evs = true -> launches evs = 0.
Proof.
  unfold launches. induction evs as [|e evs IH]; cbn [forallb List.filter]; [reflexivity|].
  intros Hq. apply andb_prop in Hq as [He Hevs].
  destruct (isLaunch e); [discriminate | auto].
Qed.

Section Session.
Import MediaShuttleService.
Variable H : Host.
Variable P : Playwright.

Lemma initializeBrowser_launches config l w :
  exists evs,
    trace (wld (initializeBrowser P config l w)) =
      trace w ++ [EvEnter MInitializeBrowser; EvLog LLog ["Initializing browser..."];
                  EvLaunch launchOptions] ++ evs /\
    forallb (fun e => negb (isLaunch e)) evs = true.
Proof.
  unfold initializeBrowser. do 2 step. rewrite bind_unfold. leaf.
  destruct (pw_launch P _ launchOptions) as [b|e].
  - match goal with
    | |- context [wld (?m l ?w')] =>
        assert (Hk : emits (L := unit) (fun e => negb (isLaunch e)) m) by emits_go;
        destruct (Hk l w') as (evs & E & F)
    end.
    exists evs. rewrite E. cbn [record trace]. rewrite <- !app_assoc.
    split; [reflexivity | exact F].
  - exists []. cbn [wld record trace]. rewrite <- !app_assoc.
    split; reflexivity.
Qed.

Lemma uploadAttempt_launches filePaths config l w :
  exists evs,
    trace (wld (uploadAttempt H P filePaths config l w)) = trace w ++ evs /\
    launches evs = if allExist w filePaths then 1 else 0.
Proof.
  unfold uploadAttempt, allExist. step.
  destruct (forallb _ filePaths); cbn [negb].
  - do 2 step.
    rewrite bind_unfold, call_res, call_wld, call_loc.
    destruct (initializeBrowser_launches config tt
                (record (EvLog LLog ["Starting Media Shuttle upload for files: "
                                     +:+ join ", " filePaths]) w)) as (evs & E & F).
    destruct (res (initializeBrowser P config tt _)) as [page|e].
    + match goal with
      | |- context [wld (?m l ?w')] =>
          assert (Hk : emits (L := option Page) (fun e => negb (isLaunch e)) m)
            by emits_service;
          destruct (Hk l w') as (evs' & E' & F')
      end.
      eexists. rewrite E', E. cbn [record trace]. rewrite <- !app_assoc.
      split; [reflexivity|].
      rewrite !launches_app, (launches_none _ F), (launches_none _ F'). reflexivity.
    + eexists. cbn [wld]. rewrite E. cbn [record trace]. rewrite <- !app_assoc.
      split; [reflexivity|].
      rewrite !launches_app, (launches_none _ F). reflexivity.
  - step. exists []. rewrite app_nil_r. split; reflexivity.
Qed.

Lemma cleanup_closing l w :
  exists closing,
    trace (wld (cleanup P l w)) = trace w ++ EvEnter MCleanup :: closing /\
    forallb isClosing closing = true.
Proof.
  assert (Hq : emits (L := unit) isClosing
                 (tryCatch (closeSession P)
                    (fun error => log LError ["Error during cleanup:"; toString error])))
    by emits_service.
  destruct (Hq l (record (EvEnter MCleanup) w)) as (evs & E & F).
  exists evs. unfold cleanup. rewrite bind_unfold. leaf.
  rewrite E. cbn [record trace]. rewrite <- app_assoc. split; [reflexivity | exact F].
Qed.

Lemma uploadFailed_no_launch e :
  emits (L := option Page) (fun e => negb (isLaunch e)) (uploadFailed H P e).
Proof. emits_service. Qed.

Lemma closing_no_launch closing :
  forallb isClosing closing = true -> launches (EvEnter MCleanup :: closing) = 0.
Proof.
  intros F. apply launches_none. cbn [forallb isLaunch negb andb].
  eapply forallb_weaken; [|exact F]. intros [] E; try discriminate E; reflexivity.
Qed.

(** X5. uploadToMediaShuttle starts a browser exactly once when every
    file path exists on the disk, and never when one is missing: it then
    answers success:false with 'Files not found: ' followed by all the
    paths it was given (not only the missing ones), takes no screenshot,
    and does nothing but log the failure and run cleanup. *)
Theorem one_browser_when_files_exist filePaths config w :
  let o := uploadToMediaShuttle H P filePaths config None w in
  exists evs,
    trace (wld o) = trace w ++ evs /\
    launches evs = (if allExist w filePaths then 1 else 0) /\
    if allExist w filePaths then True
    else res o = Normal (failed (Error ("Files not found: " +:+ join ", " filePaths))) /\
         exists msg closing,
           evs = EvLog LError msg :: EvEnter MCleanup :: closing /\
           forallb isClosing closing = true.
Proof.
  intros o. unfold o.
  destruct (uploadAttempt_launches filePaths config None w) as (evs1 & E1 & F1).
  rewrite uploadToMediaShuttle_wld, tryCatch_wld, uploadToMediaShuttle_res.
  destruct (allExist w filePaths) eqn:Hall.
  - destruct (res (uploadAttempt H P filePaths config None w)) as [r|e].
    + destruct (cleanup_closing tt (wld (uploadAttempt H P filePaths config None w)))
        as (closing & E3 & F3).
      exists (evs1 ++ EvEnter MCleanup :: closing). rewrite E3, E1, <- app_assoc.
      split; [reflexivity|].
      rewrite launches_app, F1, (closing_no_launch _ F3). split; [reflexivity | exact I].
    + destruct (uploadFailed_no_launch e
                  (loc (uploadAttempt H P filePaths config None w))
                  (wld (uploadAttempt H P filePaths config None w))) as (evs2 & E2 & F2).
      destruct (cleanup_closing tt
                  (wld (uploadFailed H P e
                          (loc (uploadAttempt H P filePaths config None w))
                          (wld (uploadAttempt H P filePaths config None w)))))
        as (closing & E3 & F3).
      exists (evs1 ++ evs2 ++ EvEnter MCleanup :: closing).
      rewrite E3, E2, E1, <- !app_assoc. split; [reflexivity|].
      rewrite !launches_app, F1, (launches_none _ F2), (closing_no_launch _ F3).
      split; [reflexivity | exact I].
  - assert (Hattempt : uploadAttempt H P filePaths config None w =
                       mkOut (Throw (Error ("Files not found: " +:+ join ", " filePaths)))
                             None w).
    { unfold uploadAttempt. step. unfold allExist in Hall. rewrite Hall. cbn [negb].
      step. reflexivity. }
    rewrite Hattempt. cbn [res loc wld]. rewrite uploadFailed_wld. cbv zeta.
    destruct (cleanup_closing tt
                (record (EvLog LError ["Media Shuttle upload failed:";
                                       toString (Error ("Files not found: "
                                                        +:+ join ", " filePaths))]) w))
      as (closing & E3 & F3).
    eexists. split; [|split; [|split; [reflexivity|]]].
    + rewrite E3. cbn [record trace]. rewrite <- app_assoc. reflexivity.
    + change (launches (EvLog LError ["Media Shuttle upload failed:";
                                      toString (Error ("Files not found: "
                                                       +:+ join ", " filePaths))]
                        :: EvEnter MCleanup :: closing))
        with (launches (EvEnter MCleanup :: closing)).
      apply closing_no_launch, F3.
    + exists ["Media Shuttle upload failed:";
              toString (Error ("Files not found: " +:+ join ", " filePaths))], closing.
      split; [reflexivity | exact F3].
Qed.

Lemma cleanup_releases l w :
  (forall w' c, pw_closeContext P w' c = Normal tt) ->
  (forall w' b, pw_closeBrowser P w' b = Normal tt) ->
  this_browser (wld (cleanup P l w)) = None /\
  this_context (wld (cleanup P l w)) = None.
Proof.
  intros Hc Hb. unfold cleanup, closeSession. run.
  destruct (this_context w) as [c|] eqn:Ec; run; try (rewrite Hc; run);
    destruct (this_browser w) as [b|] eqn:Eb; run; try (rewrite Hb; run);
    rewrite ?Eb, ?Ec; split; reflexivity.
Qed.

(** X6. uploadToMediaShuttle leaves no session behind: when closing a
    context and closing a browser do not fail, both handles of the service
    are null after the call, whatever happened during it (no browser, a
    refused login, a failed transfer, a success) and whatever the handles
    held before it. *)
Theorem session_is_released filePaths config l w :
  (forall w' c, pw_closeContext P w' c = Normal tt) ->
  (forall w' b, pw_closeBrowser P w' b = Normal tt) ->
  let o := uploadToMediaShuttle H P filePaths config l w in
  this_browser (wld o) = None /\ this_context (wld o) = None.
Proof.
  intros Hc Hb o. unfold o. rewrite uploadToMediaShuttle_wld.
  apply cleanup_releases; assumption.
Qed.

(** X7. cleanup closes the context first, and one try block holds both
    closes: when closing the context throws, the browser is never asked to
    close and both handles keep their values, so the browser stays open;
    cleanup logs the error and still completes normally. *)
Theorem stuck_context_keeps_browser_open l w c e :
  this_context w = Some c ->
  pw_closeContext P (after [EvEnter MCleanup; EvContextClose] w) c = Throw e ->
  let o := cleanup P l w in
  res o = Normal tt /\
  trace (wld o) = trace w ++ [EvEnter MCleanup; EvContextClose;
                              EvLog LError ["Error during cleanup:"; toString e]] /\
  this_browser (wld o) = this_browser w /\
  this_context (wld o) = Some c.
Proof.
  intros Hctx Hclose o. cbn [after fold_left] in Hclose.
  unfold o, cleanup, closeSession. run.
  rewrite Hctx. run. rewrite Hclose. run. rewrite <- !app_assoc.
  split; [reflexivity|]. split; [reflexivity|]. split; [reflexivity | exact Hctx].
Qed.

Lemma connectionAttempt_quiet config :
  emits (fun e => noScreenshot e && negb (isEnter MCleanup e)
                  && negb (isEnter MPerformUpload e))
        (tryCatch (connectionAttempt P config)
           (fun error => log LError ["Connection test failed:"; toString error] ;;
                         ret false)).
Proof. unfold connectionAttempt. emits_service. Qed.

Lemma testConnection_disk config :
  keeps (fun w w' => fs w' = fs w) (testConnection P config).
Proof.
  unfold testConnection. unfold_service.
  keeps_go (fun w : World => eq_refl (fs w))
           (fun (w1 w2 w3 : World) (E1 : fs w2 = fs w1) (E2 : fs w3 = fs w2) =>
              eq_trans E2 E1)
           (fun (e : Event) (w : World) => eq_refl (fs w))
           ltac:(reflexivity).
Qed.

(** X8. testConnection never throws: it answers true exactly when
    initializeBrowser returns a page and login then returns, false in
    every other case. It runs cleanup once, never enters performUpload,
    never takes a screenshot, and leaves the disk as it was. *)
Theorem testConnection_answers_login config w :
  let o := testConnection P config None w in
  let init := initializeBrowser P config tt w in
  res o = Normal (match res init with
                  | Normal page =>
                      match res (login P page config tt (wld init)) with
                      | Normal _ => true
                      | Throw _ => false
                      end
                  | Throw _ => false
                  end) /\
  fs (wld o) = fs w /\
  exists evs,
    trace (wld o) = trace w ++ evs /\
    calls MCleanup evs = 1 /\
    calls MPerformUpload evs = 0 /\
    forallb noScreenshot evs = true.
Proof.
  intros o init.
  change (testConnection P config)
    with (tryFinally
            (tryCatch (connectionAttempt P config)
               (fun error => log LError ["Connection test failed:"; toString error] ;;
                             ret false))
            (call (L := option Page) (cleanup P) tt)) in o.
  split; [|split; [apply testConnection_disk|]].
  - unfold o. rewrite tryFinally_res by (rewrite call_res; apply cleanup_Normal).
    rewrite tryCatch_res. unfold connectionAttempt.
    rewrite bind_unfold, call_res, call_wld, call_loc. fold init.
    destruct (res init) as [page|e]; [|reflexivity].
    rewrite bind_unfold. leaf.
    rewrite bind_unfold, call_res, call_wld, call_loc.
    destruct (res (login P page config tt (wld init))) as [[]|e]; reflexivity.
  - unfold o. rewrite tryFinally_wld, call_wld.
    destruct (connectionAttempt_quiet config None w) as (evs1 & E1 & F1).
    match goal with
    | |- context [cleanup P tt ?w'] =>
        destruct (cleanup_closing tt w') as (closing & E2 & F2)
    end.
    exists (evs1 ++ EvEnter MCleanup :: closing). rewrite E2, E1, <- app_assoc.
    split; [reflexivity|].
    assert (Hquiet : forallb (fun e => noScreenshot e && negb (isEnter MCleanup e)
                                       && negb (isEnter MPerformUpload e)) closing = true).
    { eapply forallb_weaken; [|exact F2]. intros [] E; try discriminate E; reflexivity. }
    assert (Hparts : forall evs,
               forallb (fun e => noScreenshot e && negb (isEnter MCleanup e)
                                 && negb (isEnter MPerformUpload e)) evs = true ->
               calls MCleanup evs = 0 /\ calls MPerformUpload evs = 0 /\
               forallb noScreenshot evs = true).
    { intros evs F. split; [|split].
      - apply calls_none. eapply forallb_weaken; [|exact F]. intros ev Hev.
        apply andb_prop in Hev as [Hev _]. apply andb_prop in Hev as [_ Hev]. exact Hev.
      - apply calls_none. eapply forallb_weaken; [|exact F]. intros ev Hev.
        apply andb_prop in Hev as [_ Hev]. exact Hev.
      - eapply forallb_weaken; [|exact F]. intros ev Hev.
        apply andb_prop in Hev as [Hev _]. apply andb_prop in Hev as [Hev _]. exact Hev. }
    destruct (Hparts _ F1) as (A1 & B1 & C1).
    destruct (Hparts _ Hquiet) as (A2 & B2 & C2).
    split; [|split].
    + rewrite calls_app.
      change (calls MCleanup (EvEnter MCleanup :: closing)) with (S (calls MCleanup closing)).
      rewrite A1, A2. reflexivity.
    + rewrite calls_app.
      change (calls MPerformUpload (EvEnter MCleanup :: closing))
        with (calls MPerformUpload closing).
      rewrite B1, B2. reflexivity.
    + rewrite forallb_app. cbn [forallb noScreenshot andb]. rewrite C1, C2. reflexivity.
Qed.
End Session.

Section Screenshot.
Import MediaShuttleService.
Variable H : Host.
Variable P : Playwright.

(** X9. A screenshot that can be taken lands in the logs folder of the
    working directory: when creating the folder does not fail and the
    browser delivers the image, captureErrorScreenshot leaves the image at
    <cwd>/logs/media-shuttle-error-<time>.png (the time read on entering
    the method), with the folder present, and names the path in its last
    log line. *)
Theorem screenshot_lands_in_logs page w image :
  let shot := screenshotPath H (record (EvEnter MCaptureErrorScreenshot) w) in
  (forall w' p, mkdirSync_error H w' p = None) ->
  (forall w', pw_screenshot P w' page shot true = Normal image) ->
  let o := captureErrorScreenshot H P page tt w in
  fs (wld o) !! shot = Some (File image) /\
  is_Some (fs (wld o) !! path_dirname H shot) /\
  last (trace (wld o)) = Some (EvLog LLog ["Error screenshot saved: " +:+ shot]).
Proof.
  intros shot Hmk Hshot o. unfold o.
  rewrite captureErrorScreenshot_eq. cbv zeta.
  set (w0 := record (EvEnter MCaptureErrorScreenshot) w) in *.
  assert (Hrun :
    takeScreenshot H P page tt w0 =
    let w1 := match fs w !! path_dirname H shot with
              | Some _ => w0
              | None => set_fs (<[path_dirname H shot := Dir]> (fs w))
                               (record (EvMkdir (path_dirname H shot)) w0)
              end in
    mkOut (Normal tt) tt
          (record (EvLog LLog ["Error screenshot saved: " +:+ shot])
                  (set_fs (<[shot := File image]> (fs w1))
                          (record (EvScreenshot shot true) w1)))).
  { unfold takeScreenshot, existsSync, mkdirSync, screenshot. cbv zeta.
    rewrite bind_unfold. leaf. fold (screenshotPath H w0). fold shot.
    do 2 (rewrite bind_unfold; leaf). change (fs w0) with (fs w).
    destruct (fs w !! path_dirname H shot) as [node|] eqn:Edir.
    - rewrite bool_decide_true by eauto. cbn [negb when]. leaf.
      do 3 (rewrite bind_unfold; leaf). rewrite Hshot. leaf. reflexivity.
    - rewrite bool_decide_false by (apply is_Some_None). cbn [negb when].
      do 2 (rewrite bind_unfold; leaf). rewrite Hmk. leaf.
      do 2 (rewrite bind_unfold; leaf). rewrite Hshot. leaf.
      cbn [record fs]. change (fs w0) with (fs w). rewrite Edir. reflexivity. }
  rewrite Hrun. cbv zeta. cbn [res loc wld].
  split; [|split].
  - cbn [record set_fs fs]. apply lookup_insert_eq.
  - cbn [record set_fs fs]. destruct (decide (shot = path_dirname H shot)) as [<-|Hne].
    + rewrite lookup_insert_eq. eauto.
    + rewrite lookup_insert_ne by exact Hne.
      destruct (fs w !! path_dirname H shot) as [node|] eqn:Edir.
      * change (fs w0) with (fs w). rewrite Edir. eauto.
      * cbn [record set_fs fs]. rewrite lookup_insert_eq. eauto.
  - cbn [record trace]. apply last_snoc.
Qed.

Lemma attempt_keeps_disk filePaths config :
  keeps (fun w w' => fs w' = fs w) (uploadAttempt H P filePaths config) /\
  keeps (L := unit) (fun w w' => fs w' = fs w) (cleanup P).
Proof.
  split; unfold_service;
    keeps_go (fun w : World => eq_refl (fs w))
             (fun (w1 w2 w3 : World) (E1 : fs w2 = fs w1) (E2 : fs w3 = fs w2) =>
                eq_trans E2 E1)
             (fun (e : Event) (w : World) => eq_refl (fs w))
             ltac:(reflexivity).
Qed.

(** X10. uploadToMediaShuttle never removes a file: whatever was on the
    disk before the call is there after it, the files it was given
    included. When it answers success:true the disk is exactly as it
    was. *)
Theorem uploadToMediaShuttle_keeps_files filePaths config w :
  let o := uploadToMediaShuttle H P filePaths config None w in
  noFileLost w (wld o) /\
  match res o with
  | Normal answer => if success answer then fs (wld o) = fs w else True
  | Throw _ => True
  end.
Proof.
  intros o. split; [apply uploadToMediaShuttle_noFileLost|].
  unfold o. rewrite uploadToMediaShuttle_res, uploadToMediaShuttle_wld, tryCatch_wld.
  destruct (res (uploadAttempt H P filePaths config None w)) as [r|e]; [|exact I].
  cbn [succeeded success].
  rewrite (proj2 (attempt_keeps_disk filePaths config)).
  apply (proj1 (attempt_keeps_disk filePaths config)).
Qed.
End Screenshot.

(* ===================================================================== *)
(** ** Further properties: the batch upload coordinator *)
(* ===================================================================== *)

Section CoordinatorTraces.
Variable H : Host.
Variable P : Playwright.
Variable configService : MediaShuttleConfigFactory.ConfigService.

(** The try/catch of [upload], in closed form. *)
Lemma attempted_run files config l w :
  let staged := stageReports H files l w in
  exists v e,
    isLog e = true /\
    tryCatch (uploadReports H P files config) (reportsFailed files) l w =
    mkOut (Normal tt)
          {| results := results l ++ map (resultFor v) (reportFiles files);
             tempFilePaths := tempFilePaths (loc staged) |}
          (record e
             match res staged with
             | Normal _ =>
                 wld (MediaShuttleService.uploadToMediaShuttle
                        H P (tempFilePaths (loc staged)) config None (wld staged))
             | Throw _ => wld staged
             end).
Proof.
  intros staged. rewrite tryCatch_unfold.
  destruct (res staged) as [[]|e] eqn:E; unfold staged in E.
  - destruct (uploadReports_Normal H P files config l w E) as (answer & _ & ->).
    destruct (spread_run files answer (loc (stageReports H files l w))
                (wld (MediaShuttleService.uploadToMediaShuttle H P
                        (tempFilePaths (loc (stageReports H files l w))) config None
                        (wld (stageReports H files l w))))) as (ev & Hev & ->).
    cbn [res loc wld]. rewrite stageReports_results.
    eexists _, ev. split; [exact Hev | reflexivity].
  - rewrite (uploadReports_Throw H P files config l w e E). cbn [res loc wld].
    rewrite reportsFailed_run. rewrite stageReports_results.
    eexists (Some (messageOf e)), _. split; [|reflexivity]. reflexivity.
Qed.

Lemma batch_wld files config l w :
  let staged := stageReports H files l w in
  exists v e,
    isLog e = true /\
    wld (batch H P files config l w) =
    wld (removeStaged H
           {| results := results l ++ map (resultFor v) (reportFiles files);
              tempFilePaths := tempFilePaths (loc staged) |}
           (record e
              match res staged with
              | Normal _ =>
                  wld (MediaShuttleService.uploadToMediaShuttle
                         H P (tempFilePaths (loc staged)) config None (wld staged))
              | Throw _ => wld staged
              end)).
Proof.
  intros staged. destruct (attempted_run files config l w) as (v & e & He & Hrun).
  exists v, e. split; [exact He|].
  unfold batch. rewrite tryFinally_wld, Hrun. reflexivity.
Qed.

Lemma logOrDisk_of_log evs : forallb isLog evs = true -> forallb isLogOrDisk evs = true.
Proof. apply forallb_weaken. intros [] E; try discriminate E; reflexivity. Qed.

Lemma logOrDisk_of_removal evs :
  forallb (fun e => isLogOrDisk e && negb (isWrite e)) evs = true ->
  forallb isLogOrDisk evs = true.
Proof. apply forallb_weaken. intros ev E. apply andb_prop in E as [E _]. exact E. Qed.

(** What [upload] records when it has report files and its configuration:
    log lines and disk operations, around what uploadToMediaShuttle
    records for the staged paths if staging went through. *)
Lemma upload_trace files w settings :
  configService "mediaShuttle" = Some settings ->
  reportFiles files <> [] ->
  let staged := stageReports H files noLocals (atStaging files w) in
  exists evs1 evs2 evs3,
    trace (wld (upload H P configService files noLocals w)) =
      trace w ++ evs1 ++ evs2 ++ evs3 /\
    forallb isLogOrDisk evs1 = true /\
    forallb isLogOrDisk evs3 = true /\
    match res staged with
    | Normal _ =>
        trace (wld (MediaShuttleService.uploadToMediaShuttle
                      H P (map (stagedPath H) (reportFiles files)) (pickConfig settings)
                      None (wld staged))) = trace (wld staged) ++ evs2
    | Throw _ => evs2 = []
    end.
Proof.
  intros Hcfg Hne staged.
  destruct (upload_wld H P configService files w settings Hcfg Hne) as (last & Hlast & ->).
  destruct (batch_wld files (pickConfig settings) noLocals (atStaging files w))
    as (v & e & He & ->).
  fold staged.
  destruct (announcing_quiet files noLocals w) as (logs & E0 & F0).
  fold (atStaging files w) in E0.
  destruct (stageReports_quiet H files noLocals (atStaging files w)) as (evs1 & E1 & F1).
  fold staged in E1.
  match goal with
  | |- context [removeStaged H ?l' ?w'] =>
      destruct (removeStaged_quiet H l' w') as (evsR & ER & FR)
  end.
  cbn [record trace]. rewrite ER. cbn [record trace].
  apply logOrDisk_of_log in F0. apply logOrDisk_of_removal in FR.
  destruct (res staged) as [[]|e0] eqn:E.
  - pose proof (stageReports_Normal H files noLocals (atStaging files w) E) as Hpaths.
    fold staged in Hpaths. cbn [noLocals tempFilePaths app] in Hpaths. rewrite Hpaths.
    destruct (uploadToMediaShuttle_headful H P (map (stagedPath H) (reportFiles files))
                (pickConfig settings) None (wld staged)) as (evs2 & E2 & _).
    exists (logs ++ evs1), evs2, (e :: evsR ++ [last]).
    rewrite E2, E1, E0, <- !app_assoc. split; [reflexivity|].
    rewrite !forallb_app, F0, F1. split; [reflexivity|]. split; [|reflexivity].
    cbn [forallb]. rewrite forallb_app, FR. cbn [forallb].
    destruct e; try discriminate He. destruct last; try discriminate Hlast. reflexivity.
  - exists (logs ++ evs1), [], (e :: evsR ++ [last]).
    rewrite E1, E0, <- !app_assoc. split; [reflexivity|].
    rewrite !forallb_app, F0, F1. split; [reflexivity|]. split; [|reflexivity].
    cbn [forallb]. rewrite forallb_app, FR. cbn [forallb].
    destruct e; try discriminate He. destruct last; try discriminate Hlast. reflexivity.
Qed.

(** Every event of [upload] satisfies what holds of log lines, of disk
    operations and of what uploadToMediaShuttle records for the batch. *)
Lemma upload_emits (q : Event -> bool) files w settings :
  configService "mediaShuttle" = Some settings ->
  (forall e, isLogOrDisk e = true -> q e = true) ->
  emits q (MediaShuttleService.uploadToMediaShuttle
             H P (map (stagedPath H) (reportFiles files)) (pickConfig settings)) ->
  exists evs,
    trace (wld (upload H P configService files noLocals w)) = trace w ++ evs /\
    forallb q evs = true.
Proof.
  intros Hcfg Hq Hsession.
  destruct (reportFiles files) as [|x xs] eqn:Hreports.
  - rewrite (upload_nothing H P configService files noLocals w Hreports).
    destruct (announce_world files noLocals w) as (logs & -> & F).
    exists (logs ++ [EvLog LLog ["[MAYO] No files ending with '_Report.docx' found. Skipping upload."]]).
    cbn [wld record trace]. rewrite <- app_assoc. split; [reflexivity|].
    rewrite forallb_app. cbn [forallb].
    rewrite (forallb_weaken isLog q logs), (Hq (EvLog _ _)); [reflexivity..| |exact F].
    intros [] E; try discriminate E. apply Hq. reflexivity.
  - assert (Hne : reportFiles files <> []) by (rewrite Hreports; discriminate).
    rewrite <- Hreports in Hsession.
    destruct (upload_trace files w settings Hcfg Hne) as (evs1 & evs2 & evs3 & E & F1 & F3 & E2).
    exists (evs1 ++ evs2 ++ evs3). split; [exact E|].
    rewrite !forallb_app, (forallb_weaken _ q evs1 Hq F1), (forallb_weaken _ q evs3 Hq F3).
    cbn [andb]. rewrite andb_true_r.
    destruct (res (stageReports H files noLocals (atStaging files w))).
    + destruct (Hsession None (wld (stageReports H files noLocals (atStaging files w))))
        as (evs2' & E2' & F2).
      rewrite E2 in E2'. apply app_inv_head in E2'. subst evs2'. exact F2.
    + subst evs2. reflexivity.
Qed.
End CoordinatorTraces.

Section CoordinatorOutcomes.
Variable H : Host.
Variable P : Playwright.
Variable configService : MediaShuttleConfigFactory.ConfigService.

(** X11. With report files to upload and no 'mediaShuttle' entry in the
    configuration, [upload] throws 'Media Shuttle configuration not found'
    instead of answering with results: the check sits outside its try
    block. Until then it has only logged: nothing is staged, no browser is
    started, the disk and the handles are as they were. *)
Theorem upload_without_configuration files w :
  configService "mediaShuttle" = None ->
  reportFiles files <> [] ->
  let o := upload H P configService files noLocals w in
  res o = Throw (Error "Media Shuttle configuration not found") /\
  sameState w (wld o) /\
  exists logs, trace (wld o) = trace w ++ logs /\ forallb isLog logs = true.
Proof.
  intros Hcfg Hne o. apply reportFiles_length in Hne.
  assert (Hrun : o = mkOut (Throw (Error "Media Shuttle configuration not found")) noLocals
                           (atStaging files w)).
  { unfold o, upload. rewrite atStaging_eq. rewrite bind_unfold.
    destruct (announce_run files noLocals w) as [-> ->]. rewrite Hne.
    rewrite bind_unfold. unfold announceReports at 1 2 3. leaf.
    unfold getMediaShuttleConfig. rewrite Hcfg. rewrite bind_unfold. leaf.
    unfold announceReports. leaf. reflexivity. }
  rewrite Hrun. cbn [res wld]. split; [reflexivity|].
  rewrite atStaging_eq. unfold announceReports. leaf.
  destruct (announce_world files noLocals w) as (logs & -> & F).
  split; [repeat split|].
  eexists (logs ++ [_]). cbn [record trace]. rewrite <- app_assoc. split; [reflexivity|].
  rewrite forallb_app, F. reflexivity.
Qed.

(** X12. Nothing staged outlives the call: when removing a file does not
    fail, no path that [upload] staged exists after it, whether the
    transfer succeeded, failed, or staging itself stopped half way, and
    even if a file was at that path before the call. When staging went
    through, these are the temporary paths of all the report files. *)
Theorem staged_files_are_removed files w settings :
  configService "mediaShuttle" = Some settings ->
  reportFiles files <> [] ->
  (forall w' p, unlinkSync_error H w' p = None) ->
  let staged := stageReports H files noLocals (atStaging files w) in
  let o := upload H P configService files noLocals w in
  (forall p, In p (tempFilePaths (loc staged)) -> fs (wld o) !! p = None) /\
  match res staged with
  | Normal _ => forall file, In file (reportFiles files) ->
                             fs (wld o) !! stagedPath H file = None
  | Throw _ => True
  end.
Proof.
  intros Hcfg Hne Hdisk staged o.
  assert (Hgone : forall p, In p (tempFilePaths (loc staged)) -> fs (wld o) !! p = None).
  { intros p Hp. unfold o.
    destruct (upload_wld H P configService files w settings Hcfg Hne) as (last & _ & ->).
    destruct (batch_wld H P files (pickConfig settings) noLocals (atStaging files w))
      as (v & e & _ & ->).
    cbn [record fs]. apply removeStaged_removes; [exact Hdisk | exact Hp]. }
  split; [exact Hgone|].
  destruct (res staged) as [[]|e] eqn:E; [|exact I].
  intros file Hin. apply Hgone.
  pose proof (stageReports_Normal H files noLocals (atStaging files w) E) as Hpaths.
  fold staged in Hpaths. rewrite Hpaths. cbn [noLocals tempFilePaths app].
  apply in_map, Hin.
Qed.

(** X13. A failure while staging (a disk that refuses the write as much
    as a file without data) never leaves [upload] as an exception: every
    report file is answered success:false with the message of what was
    thrown, every other file is skipped, and the portal is never
    contacted: the call only logs and touches the disk. *)
Theorem staging_error_fails_batch files w settings e :
  configService "mediaShuttle" = Some settings ->
  res (stageReports H files noLocals (atStaging files w)) = Throw e ->
  let o := upload H P configService files noLocals w in
  res o = Normal (map (failedResult (messageOf e)) (reportFiles files)
                  ++ map skippedResult (skippedFiles files)) /\
  exists evs, trace (wld o) = trace w ++ evs /\ forallb isLogOrDisk evs = true.
Proof.
  intros Hcfg Hstaged o.
  assert (Hne : reportFiles files <> []).
  { intros Hnone. unfold stageReports in Hstaged. rewrite Hnone in Hstaged.
    cbn in Hstaged. discriminate. }
  split.
  - unfold o. rewrite (upload_results H P configService files w settings Hcfg Hne).
    unfold verdict. rewrite Hstaged. reflexivity.
  - destruct (upload_trace H P configService files w settings Hcfg Hne)
      as (evs1 & evs2 & evs3 & E & F1 & F3 & E2).
    rewrite Hstaged in E2. subst evs2.
    exists (evs1 ++ evs3). split; [exact E|].
    rewrite forallb_app, F1, F3. reflexivity.
Qed.

(** X14. When staging went through and the try block of
    uploadToMediaShuttle completes for the staged batch, every report file
    is answered success:true without a skipped mark or an error message,
    and every other file is skipped. *)
Theorem accepted_batch_uploads_every_report files w settings answer :
  configService "mediaShuttle" = Some settings ->
  reportFiles files <> [] ->
  let staged := stageReports H files noLocals (atStaging files w) in
  res staged = Normal tt ->
  res (MediaShuttleService.uploadAttempt
         H P (map (stagedPath H) (reportFiles files)) (pickConfig settings) None
         (wld staged)) = Normal answer ->
  res (upload H P configService files noLocals w) =
  Normal (map uploadedResult (reportFiles files) ++ map skippedResult (skippedFiles files)).
Proof.
  intros Hcfg Hne staged Hstaged Hattempt.
  rewrite (upload_results H P configService files w settings Hcfg Hne).
  unfold verdict. fold staged. rewrite Hstaged.
  pose proof (stageReports_Normal H files noLocals (atStaging files w) Hstaged) as Hpaths.
  fold staged in Hpaths. cbn [noLocals tempFilePaths app] in Hpaths. rewrite Hpaths.
  rewrite uploadToMediaShuttle_res, Hattempt. reflexivity.
Qed.
End CoordinatorOutcomes.

Section CoordinatorSession.
Import MediaShuttleConfigFactory.
Variable H : Host.
Variable P : Playwright.

Lemma uploadToMediaShuttle_attaches filePaths config :
  emits (attaches filePaths)
        (MediaShuttleService.uploadToMediaShuttle H P filePaths config).
Proof.
  unfold_service. emits_go;
    try (apply emits_waitForFunction; intros; reflexivity).
  apply emits_external. cbn [attaches]. apply bool_decide_eq_true. reflexivity.
Qed.

Lemma uploadToMediaShuttle_setsTimeout filePaths config :
  emits (setsTimeout (default 30000%Z (MediaShuttleService.timeout config)))
        (MediaShuttleService.uploadToMediaShuttle H P filePaths config).
Proof.
  unfold_service. emits_go;
    try (apply emits_waitForFunction; intros; reflexivity).
  apply emits_emit. cbn [setsTimeout]. apply Z.eqb_refl.
Qed.

Lemma uploadToMediaShuttle_launches filePaths config l w :
  exists evs,
    trace (wld (MediaShuttleService.uploadToMediaShuttle H P filePaths config l w)) =
      trace w ++ evs /\
    launches evs = if allExist w filePaths then 1 else 0.
Proof.
  destruct (uploadAttempt_launches H P filePaths config l w) as (evs1 & E1 & F1).
  rewrite uploadToMediaShuttle_wld, tryCatch_wld.
  destruct (res (MediaShuttleService.uploadAttempt H P filePaths config l w)) as [r|e].
  - destruct (cleanup_closing P tt
                (wld (MediaShuttleService.uploadAttempt H P filePaths config l w)))
      as (closing & E3 & F3).
    exists (evs1 ++ EvEnter MCleanup :: closing). rewrite E3, E1, <- app_assoc.
    split; [reflexivity|].
    rewrite launches_app, F1, (closing_no_launch _ F3). apply Nat.add_0_r.
  - destruct (uploadFailed_no_launch H P e
                (loc (MediaShuttleService.uploadAttempt H P filePaths config l w))
                (wld (MediaShuttleService.uploadAttempt H P filePaths config l w)))
      as (evs2 & E2 & F2).
    destruct (cleanup_closing P tt
                (wld (MediaShuttleService.uploadFailed H P e
                        (loc (MediaShuttleService.uploadAttempt H P filePaths config l w))
                        (wld (MediaShuttleService.uploadAttempt H P filePaths config l w)))))
      as (closing & E3 & F3).
    exists (evs1 ++ evs2 ++ EvEnter MCleanup :: closing).
    rewrite E3, E2, E1, <- !app_assoc. split; [reflexivity|].
    rewrite !launches_app, F1, (launches_none _ F2), (closing_no_launch _ F3).
    apply Nat.add_0_r.
Qed.

Lemma launches_quiet evs : forallb isLogOrDisk evs = true -> launches evs = 0.
Proof.
  intros F. apply launches_none. eapply forallb_weaken; [|exact F].
  intros [] E; try discriminate E; reflexivity.
Qed.

(** X15. The report files travel as one batch: whatever [upload] hands
    to a file chooser is the list of the temporary paths of all the report
    files, in their order, never one file at a time and never a file that
    is not a report. *)
Theorem batch_is_attached_whole configService files w settings :
  configService "mediaShuttle" = Some settings ->
  exists evs,
    trace (wld (upload H P configService files noLocals w)) = trace w ++ evs /\
    forallb (attaches (map (stagedPath H) (reportFiles files))) evs = true.
Proof.
  intros Hcfg. apply (upload_emits H P configService _ files w settings Hcfg).
  - intros [] E; try discriminate E; reflexivity.
  - apply uploadToMediaShuttle_attaches.
Qed.

(** X16. One call of [upload] starts at most one browser, however many
    report files it is given, and none at all when there is no report file
    or when staging fails. *)
Theorem one_browser_per_batch configService files w settings :
  configService "mediaShuttle" = Some settings ->
  exists evs,
    trace (wld (upload H P configService files noLocals w)) = trace w ++ evs /\
    launches evs <= 1 /\
    match reportFiles files with
    | [] => launches evs = 0
    | _ :: _ =>
        match res (stageReports H files noLocals (atStaging files w)) with
        | Normal _ => True
        | Throw _ => launches evs = 0
        end
    end.
Proof.
  intros Hcfg. destruct (reportFiles files) as [|x xs] eqn:Hreports.
  - rewrite (upload_nothing H P configService files noLocals w Hreports).
    destruct (announce_world files noLocals w) as (logs & -> & F).
    eexists (logs ++ [_]). cbn [wld record trace]. rewrite <- app_assoc.
    split; [reflexivity|].
    assert (Hnone : launches (logs ++ [EvLog LLog ["[MAYO] No files ending with '_Report.docx' found. Skipping upload."]]) = 0).
    { apply launches_quiet. rewrite forallb_app, (logOrDisk_of_log _ F). reflexivity. }
    rewrite Hnone. split; [lia | reflexivity].
  - assert (Hne : reportFiles files <> []) by (rewrite Hreports; discriminate).
    destruct (upload_trace H P configService files w settings Hcfg Hne)
      as (evs1 & evs2 & evs3 & E & F1 & F3 & E2).
    exists (evs1 ++ evs2 ++ evs3). split; [exact E|].
    rewrite !launches_app, (launches_quiet _ F1), (launches_quiet _ F3).
    destruct (res (stageReports H files noLocals (atStaging files w))).
    + destruct (uploadToMediaShuttle_launches
                  (map (stagedPath H) (reportFiles files)) (pickConfig settings) None
                  (wld (stageReports H files noLocals (atStaging files w))))
        as (evs2' & E2' & F2).
      rewrite E2 in E2'. apply app_inv_head in E2'. subst evs2'. rewrite F2.
      split; [|exact I]. destruct (allExist _ _); cbn; lia.
    + subst evs2. split; [cbn; lia | reflexivity].
Qed.

(** X17. With the configuration loaded from process.env, the default
    timeout [upload] sets on a page is Number(MEDIA_SHUTTLE_TIMEOUT) when
    that is a number other than 0, and 30000 otherwise (variable unset,
    not a number, or 0): it is never 0, so the timeouts of the page are
    never switched off from the environment. *)
Theorem default_timeout_from_environment p files w :
  factoryTimeout p <> 0%Z /\
  factoryTimeout p =
    match Number p (env p "MEDIA_SHUTTLE_TIMEOUT") with
    | Some ms => if Z.eqb ms 0 then 30000%Z else ms
    | None => 30000%Z
    end /\
  exists evs,
    trace (wld (upload H P (forRoot p) files noLocals w)) = trace w ++ evs /\
    forallb (setsTimeout (factoryTimeout p)) evs = true.
Proof.
  split; [|split].
  - unfold factoryTimeout, numberOr.
    destruct (Number p (env p "MEDIA_SHUTTLE_TIMEOUT")) as [ms|]; [|discriminate].
    destruct (Z.eqb ms 0) eqn:E; [discriminate|]. apply Z.eqb_neq, E.
  - reflexivity.
  - apply (upload_emits H P (forRoot p) _ files w (factory p) eq_refl).
    + intros [] E; try discriminate E; reflexivity.
    + apply (uploadToMediaShuttle_setsTimeout
               (map (stagedPath H) (reportFiles files)) (pickConfig (factory p))).
Qed.

Lemma pickConfig_unused name v p :
  name = "MEDIA_SHUTTLE_MAX_RETRIES" \/ name = "MEDIA_SHUTTLE_SCREENSHOT_ON_ERROR" ->
  pickConfig (factory (withEnv name v p)) = pickConfig (factory p).
Proof. intros [-> | ->]; reflexivity. Qed.

(** X18. MEDIA_SHUTTLE_MAX_RETRIES and MEDIA_SHUTTLE_SCREENSHOT_ON_ERROR
    are read into the configuration and never used: whatever value either
    has (or none), [upload] does exactly the same. Nothing is retried, and
    the screenshot of a failure cannot be switched off. *)
Theorem retries_and_screenshot_flag_unused p v files w :
  upload H P (forRoot (withEnv "MEDIA_SHUTTLE_MAX_RETRIES" v p)) files noLocals w =
    upload H P (forRoot p) files noLocals w /\
  upload H P (forRoot (withEnv "MEDIA_SHUTTLE_SCREENSHOT_ON_ERROR" v p)) files noLocals w =
    upload H P (forRoot p) files noLocals w.
Proof.
  assert (Hsame : forall name,
            name = "MEDIA_SHUTTLE_MAX_RETRIES" \/ name = "MEDIA_SHUTTLE_SCREENSHOT_ON_ERROR" ->
            upload H P (forRoot (withEnv name v p)) files noLocals w =
            upload H P (forRoot p) files noLocals w).
  { intros name Hname. unfold upload, getMediaShuttleConfig.
    change (forRoot (withEnv name v p) "mediaShuttle")
      with (Some (factory (withEnv name v p))).
    change (forRoot p "mediaShuttle") with (Some (factory p)).
    cbv iota. rewrite (pickConfig_unused name v p Hname). reflexivity. }
  split; apply Hsame; [left | right]; reflexivity.
Qed.
End CoordinatorSession.

Section CoordinatorDisk.
Variable H : Host.
Variable P : Playwright.
Variable configService : MediaShuttleConfigFactory.ConfigService.

Lemma stage_Throw file l w e :
  res (stage H file l w) = Throw e -> tempFilePaths (loc (stage H file l w)) = tempFilePaths l.
Proof.
  unfold stage, writeFileSync. destruct (data file); [|reflexivity].
  repeat step; try discriminate. reflexivity.
Qed.

Lemma stage_loop_paths xs l w q :
  In q (tempFilePaths (loc (forOf xs (stage H) l w))) ->
  In q (tempFilePaths l) \/ In q (map (stagedPath H) xs).
Proof.
  revert l w. induction xs as [|x xs IH]; intros l w; [left; assumption|].
  cbn [forOf map]. rewrite bind_unfold.
  destruct (res (stage H x l w)) as [[]|e] eqn:E.
  - intros Hq. apply IH in Hq. rewrite (stage_Normal H x l w E) in Hq.
    destruct Hq as [Hq|Hq]; [|right; right; exact Hq].
    apply in_app_or in Hq as [Hq|[<-|[]]]; [left; exact Hq | right; left; reflexivity].
  - cbn [loc]. rewrite (stage_Throw x l w e E). left. assumption.
Qed.

Lemma stageReports_paths files l w q :
  In q (tempFilePaths (loc (stageReports H files l w))) ->
  In q (tempFilePaths l) \/ In q (map (stagedPath H) (reportFiles files)).
Proof.
  unfold stageReports. rewrite bind_unfold.
  destruct (res (forOf _ _ l w)) as [[]|e] eqn:E; cbn [loc].
  - repeat step. apply stage_loop_paths.
  - apply stage_loop_paths.
Qed.

Lemma stageReports_noFileLost files : keeps noFileLost (stageReports H files).
Proof.
  unfold_uploader. unfold writeFileSync.
  keeps_go noFileLost_refl noFileLost_trans noFileLost_record noFileLost_leaf.
Qed.

Lemma unstage_loop_spares ps p l w :
  ~ In p ps -> stillThere p w (wld (forOf ps (unstage H) l w)).
Proof.
  revert w. induction ps as [|p' ps IH]; intros w Hp Hw; [exact Hw|].
  cbn [forOf]. rewrite bind_unfold, unstage_run. cbn [res loc wld].
  apply IH; [intros Hin; apply Hp; right; exact Hin|].
  destruct (fs w !! p'); [|exact Hw]. cbv zeta.
  destruct (unlinkSync_error H _ p'); cbn [record set_fs fs]; [exact Hw|].
  rewrite lookup_delete_ne; [exact Hw|]. intros ->. apply Hp. left. reflexivity.
Qed.

(** X19. [upload] removes nothing but what it staged: a file that is on
    the disk before the call, at a path other than the temporary paths of
    the report files, is still there after it. *)
Theorem upload_spares_other_files files w settings p :
  configService "mediaShuttle" = Some settings ->
  ~ In p (map (stagedPath H) (reportFiles files)) ->
  is_Some (fs w !! p) ->
  is_Some (fs (wld (upload H P configService files noLocals w)) !! p).
Proof.
  intros Hcfg Hp Hw. destruct (reportFiles files) as [|x xs] eqn:Hreports.
  - rewrite (upload_nothing H P configService files noLocals w Hreports).
    destruct (announce_world files noLocals w) as (logs & -> & _). exact Hw.
  - assert (Hne : reportFiles files <> []) by (rewrite Hreports; discriminate).
    rewrite <- Hreports in Hp.
    destruct (upload_wld H P configService files w settings Hcfg Hne) as (last & _ & ->).
    destruct (batch_wld H P files (pickConfig settings) noLocals (atStaging files w))
      as (v & e & _ & ->).
    cbn [record fs]. unfold removeStaged. rewrite bind_unfold. leaf.
    apply unstage_loop_spares.
    + intros Hin. apply stageReports_paths in Hin as [[]|Hin]. exact (Hp Hin).
    + cbn [record fs].
      assert (Hstaged : is_Some (fs (wld (stageReports H files noLocals (atStaging files w)))
                                 !! p)).
      { apply stageReports_noFileLost. rewrite atStaging_eq. unfold announceReports. leaf.
        destruct (announce_world files noLocals w) as (logs & -> & _). exact Hw. }
      destruct (res (stageReports H files noLocals (atStaging files w))); [|exact Hstaged].
      apply uploadToMediaShuttle_noFileLost, Hstaged.
Qed.
End CoordinatorDisk.

(* ===================================================================== *)
(** ** Further properties: the downloader *)
(* ===================================================================== *)

Section Downloader.
Import MayoDownloaderService.
Variable H : Host.
Variable P : Playwright.
Variable isoText : Z -> string.

Lemma download_run t l w :
  download H isoText (Some t) l w =
  let w1 := record (EvLog LLog ["[MAYO] Downloading files updated after " +:+ isoText t]) w in
  mkOut (Normal (mockFiles (Date_now H w1))) l
        (record (EvLog LLog ["[MAYO] Downloaded 1 files"]) w1).
Proof. reflexivity. Qed.

(** X20. download does not look at lastSyncTime beyond printing it: for
    every valid date, also one later than the time stamp of the file, it
    returns the one mock file 'mayo_file_01.txt', stamped 3 600 000 ms
    before the clock as read after the first log line, and logs that line
    and the count, nothing else. Its catch block never runs. With an
    Invalid Date it throws 'Invalid time value' before the try block is
    entered, so nothing is logged at all. *)
Theorem download_ignores_lastSyncTime lastSyncTime w :
  let o := download H isoText lastSyncTime tt w in
  match lastSyncTime with
  | Some t =>
      let started :=
        record (EvLog LLog ["[MAYO] Downloading files updated after " +:+ isoText t]) w in
      res o = Normal [ {| fileName := "mayo_file_01.txt";
                          filePath := "mayo/input/mayo_file_01.txt";
                          type := "MAYO";
                          data := Some (list_byte_of_string "Mock MAYO file content");
                          updatedAt := (Date_now H started - 3600000)%Z |} ] /\
      wld o = record (EvLog LLog ["[MAYO] Downloaded 1 files"]) started
  | None =>
      res o = Throw (Error "Invalid time value") /\ wld o = w
  end.
Proof.
  destruct lastSyncTime as [t|]; cbv zeta.
  - rewrite download_run. cbv zeta. split; reflexivity.
  - split; reflexivity.
Qed.

(** X21. What download returns is never uploaded: given to [upload], its
    files are all answered as skipped, and [upload] only logs; no file is
    staged, no configuration is read and no browser is started. *)
Theorem downloaded_files_are_skipped configService lastSyncTime w files w' :
  res (download H isoText lastSyncTime tt w) = Normal files ->
  let o := upload H P configService files noLocals w' in
  res o = Normal (map skippedResult files) /\
  sameState w' (wld o) /\
  exists logs, trace (wld o) = trace w' ++ logs /\ forallb isLog logs = true.
Proof.
  intros Hfiles o.
  assert (Hreports : reportFiles files = []).
  { destruct lastSyncTime as [t|]; [|discriminate].
    rewrite download_run in Hfiles. cbv zeta in Hfiles. cbn [res] in Hfiles.
    injection Hfiles as <-. reflexivity. }
  unfold o. rewrite (upload_nothing H P configService files noLocals w' Hreports).
  cbn [res wld]. split; [reflexivity|].
  destruct (announce_world files noLocals w') as (logs & -> & F).
  split; [repeat split|].
  eexists (logs ++ [_]). cbn [record trace]. rewrite <- app_assoc. split; [reflexivity|].
  rewrite forallb_app, F. reflexivity.
Qed.
End Downloader.

(* ===================================================================== *)
(** ** Further properties: the life of the browser *)
(* ===================================================================== *)

Lemma browserCloses_app evs1 evs2 :
  browserCloses (evs1 ++ evs2) = browserCloses evs1 + browserCloses evs2.
Proof. unfold browserCloses. rewrite List.filter_app, length_app. reflexivity. Qed.

Lemma browserCloses_none evs :
  forallb (fun e => match e with EvBrowserClose => false | _ => true end) evs = true ->
  browserCloses evs = 0.
Proof.
  unfold browserCloses. induction evs as [|e evs IH]; cbn [forallb List.filter]; [reflexivity|].
  intros Hq. apply andb_prop in Hq as [He Hevs].
  destruct e; try discriminate He; auto.
Qed.

Section BrowserLifetime.
Import MediaShuttleService.
Variable H : Host.
Variable P : Playwright.

Lemma sameBrowser_refl w : sameBrowser w w.
Proof. reflexivity. Qed.

Lemma sameBrowser_trans w1 w2 w3 : sameBrowser w1 w2 -> sameBrowser w2 w3 -> sameBrowser w1 w3.
Proof. unfold sameBrowser. congruence. Qed.

Lemma sameBrowser_record e w : sameBrowser w (record e w).
Proof. reflexivity. Qed.

Ltac sameBrowser_go :=
  keeps_go sameBrowser_refl sameBrowser_trans sameBrowser_record
           ltac:(cbv beta; first [reflexivity | match goal with
                                               | |- sameBrowser _ (set_fs (match ?x with _ => _ end) _) =>
                                                   destruct x; reflexivity
                                               end]).

(** The browser handle after initializeBrowser: the browser just launched,
    or what it was when the launch fails. *)
Lemma initializeBrowser_browser config l w :
  this_browser (wld (initializeBrowser P config l w)) =
  match pw_launch P (after [EvEnter MInitializeBrowser; EvLog LLog ["Initializing browser..."];
                            EvLaunch launchOptions] w) launchOptions with
  | Normal b => Some b
  | Throw _ => this_browser w
  end.
Proof.
  cbn [after fold_left]. unfold initializeBrowser.
  do 3 (rewrite bind_unfold; leaf).
  destruct (pw_launch P _ launchOptions) as [b|e]; [|reflexivity].
  rewrite bind_unfold. leaf.
  match goal with
  | |- this_browser (wld (?m l ?w')) = _ =>
      assert (Hk : keeps (L := unit) sameBrowser m) by sameBrowser_go;
      rewrite (Hk l w')
  end.
  reflexivity.
Qed.

Lemma session_steps_keep_browser page filePaths config e :
  keeps (L := unit) sameBrowser (login P page config) /\
  keeps (L := unit) sameBrowser (performUpload P page filePaths config) /\
  keeps (L := option Page) sameBrowser (uploadFailed H P e).
Proof.
  split; [|split]; unfold_service; sameBrowser_go.
Qed.

(** The browser handle when cleanup is reached. *)
Lemma attempted_browser filePaths config w :
  this_browser (wld (tryCatch (uploadAttempt H P filePaths config) (uploadFailed H P) None w)) =
  match launched P filePaths w with
  | Some b => Some b
  | None => this_browser w
  end.
Proof.
  rewrite tryCatch_wld.
  assert (Hattempt :
    this_browser (wld (uploadAttempt H P filePaths config None w)) =
    match launched P filePaths w with
    | Some b => Some b
    | None => this_browser w
    end).
  { unfold launched, launchSteps, uploadAttempt, allExist. cbn [after fold_left].
    rewrite bind_unfold. leaf.
    destruct (forallb _ filePaths); cbn [negb].
    - do 2 (rewrite bind_unfold; leaf). rewrite bind_unfold, call_res, call_wld, call_loc.
      pose proof (initializeBrowser_browser config tt
                    (record (EvLog LLog ["Starting Media Shuttle upload for files: "
                                         +:+ join ", " filePaths]) w)) as Hinit.
      cbn [after fold_left] in Hinit.
      destruct (res (initializeBrowser P config tt _)) as [page|e].
      + match goal with
        | |- this_browser (wld (?m None ?w')) = _ =>
            assert (Hk : keeps (L := option Page) sameBrowser m)
              by (unfold_service; sameBrowser_go);
            rewrite (Hk None w')
        end.
        rewrite Hinit. destruct (pw_launch P _ launchOptions); reflexivity.
      + cbn [wld]. rewrite Hinit. destruct (pw_launch P _ launchOptions); reflexivity.
    - rewrite bind_unfold. leaf. reflexivity. }
  destruct (res (uploadAttempt H P filePaths config None w)) as [r|e]; [exact Hattempt|].
  rewrite (proj2 (proj2 (session_steps_keep_browser {| page_id := 0 |} filePaths config e))).
  exact Hattempt.
Qed.

Lemma attempt_closes_nothing filePaths config :
  emits (fun e => match e with EvBrowserClose => false | _ => true end)
        (tryCatch (uploadAttempt H P filePaths config) (uploadFailed H P)).
Proof. emits_service. Qed.

(** What cleanup closes when closing the context does not fail. *)
Lemma cleanup_closes l w :
  (forall w' c, pw_closeContext P w' c = Normal tt) ->
  exists evs,
    trace (wld (cleanup P l w)) = trace w ++ evs /\
    browserCloses evs = match this_browser w with Some _ => 1 | None => 0 end.
Proof.
  intros Hc. unfold cleanup, closeSession. run.
  destruct (this_context w) as [c|]; run; try (rewrite Hc; run);
    destruct (this_browser w) as [b|]; run; try case_answer;
    rewrite <- ?app_assoc; eexists; (split; [reflexivity|]); reflexivity.
Qed.

(** X22. No browser is left running: called on a service that holds no
    browser, uploadToMediaShuttle asks the browser to close exactly once
    when it launched one (whatever failed afterwards: the context, the
    page, the login, the transfer, the screenshot) and never when it
    launched none, provided closing the context does not fail. *)
Theorem launched_browser_is_closed filePaths config w :
  this_browser w = None ->
  (forall w' c, pw_closeContext P w' c = Normal tt) ->
  exists evs,
    trace (wld (uploadToMediaShuttle H P filePaths config None w)) = trace w ++ evs /\
    browserCloses evs = match launched P filePaths w with Some _ => 1 | None => 0 end.
Proof.
  intros Hnone Hc. rewrite uploadToMediaShuttle_wld.
  destruct (attempt_closes_nothing filePaths config None w) as (evs1 & E1 & F1).
  destruct (cleanup_closes tt
              (wld (tryCatch (uploadAttempt H P filePaths config) (uploadFailed H P) None w))
              Hc) as (evs2 & E2 & F2).
  exists (evs1 ++ evs2). rewrite E2, E1, <- app_assoc. split; [reflexivity|].
  rewrite browserCloses_app, (browserCloses_none _ F1), F2, attempted_browser, Hnone.
  destruct (launched P filePaths w); reflexivity.
Qed.
End BrowserLifetime.

(* ===================================================================== *)
(** ** Further concrete runs *)
(* ===================================================================== *)

Import MoreScenarios.

(** On a portal whose upload form shows none of its controls, and whose
    progress panel and error element never show either, the transfer is
    reported as a success although no file was ever given to the portal. *)
Example success_without_attaching :
  let o := MediaShuttleService.uploadToMediaShuttle
             posix bareForm ["/tmp/x_Report.docx"] config None stagedWorld in
  MediaShuttleService.success <$> res_value (res o) = Some true /\
  List.filter isSetFiles (trace (wld o)) = [].
Proof. vm_compute. split; reflexivity. Qed.

Lemma performUpload_without_controls_witness :
  let page := {| page_id := 1 |} in
  let o := MediaShuttleService.performUpload
             bareForm page ["/tmp/x_Report.docx"] config tt emptyWorld in
  (forall w' target, pw_isVisible bareForm w' page target <> Normal true) /\
  res o = Normal tt /\
  exists evs, trace (wld o) = visibilityChecks ++ evs /\
              forallb (fun e => negb (isFormInput e)) (visibilityChecks ++ evs) = true.
Proof.
  intros page o.
  assert (H1 : forall w' target, pw_isVisible bareForm w' page target <> Normal true)
    by (intros w' target; discriminate).
  split; [exact H1|].
  destruct (performUpload_without_controls bareForm page ["/tmp/x_Report.docx"] config
              emptyWorld H1) as (Hrun & evs & E & F).
  split.
  - unfold o. rewrite Hrun. vm_compute. reflexivity.
  - exists evs. split; [exact E | exact F].
Defined.

Lemma session_is_released_witness :
  let o := MediaShuttleService.uploadToMediaShuttle
             posix loginRefused ["/tmp/x_Report.docx"] config None stagedWorld in
  (forall w' c, pw_closeContext loginRefused w' c = Normal tt) /\
  (forall w' b, pw_closeBrowser loginRefused w' b = Normal tt) /\
  this_browser (wld o) = None /\ this_context (wld o) = None.
Proof.
  intros o.
  assert (H1 : forall w' c, pw_closeContext loginRefused w' c = Normal tt)
    by (intros; reflexivity).
  assert (H2 : forall w' b, pw_closeBrowser loginRefused w' b = Normal tt)
    by (intros; reflexivity).
  split; [exact H1|]. split; [exact H2|].
  exact (session_is_released posix loginRefused ["/tmp/x_Report.docx"] config None
           stagedWorld H1 H2).
Defined.

Lemma stuck_context_keeps_browser_open_witness :
  let c := {| context_id := 1 |} in
  let e := Error "browserContext.close: Target closed" in
  let o := MediaShuttleService.cleanup contextStuck tt openSession in
  this_context openSession = Some c /\
  pw_closeContext contextStuck (after [EvEnter MCleanup; EvContextClose] openSession) c
    = Throw e /\
  res o = Normal tt /\
  this_browser (wld o) = Some {| browser_id := 1 |} /\
  List.filter (fun ev => match ev with EvBrowserClose => true | _ => false end)
              (trace (wld o)) = [].
Proof.
  intros c e o.
  assert (H1 : this_context openSession = Some c) by reflexivity.
  assert (H2 : pw_closeContext contextStuck
                 (after [EvEnter MCleanup; EvContextClose] openSession) c = Throw e)
    by reflexivity.
  split; [exact H1|]. split; [exact H2|].
  destruct (stuck_context_keeps_browser_open contextStuck tt openSession c e H1 H2)
    as (Hres & Htrace & Hbrowser & _).
  split; [exact Hres|]. split; [exact Hbrowser|].
  fold o in Htrace. rewrite Htrace. reflexivity.
Defined.

Lemma screenshot_lands_in_logs_witness :
  let page := {| page_id := 1 |} in
  let shot := screenshotPath posix (record (EvEnter MCaptureErrorScreenshot) emptyWorld) in
  let o := MediaShuttleService.captureErrorScreenshot posix portalUp page tt emptyWorld in
  (forall w' p, mkdirSync_error posix w' p = None) /\
  (forall w', pw_screenshot portalUp w' page shot true = Normal []) /\
  shot = "/app/logs/media-shuttle-error-1700000000000.png" /\
  fs (wld o) !! shot = Some (File []) /\
  is_Some (fs (wld o) !! path_dirname posix shot).
Proof.
  intros page shot o.
  assert (H1 : forall w' p, mkdirSync_error posix w' p = None) by (intros; reflexivity).
  assert (H2 : forall w', pw_screenshot portalUp w' page shot true = Normal [])
    by (intros; reflexivity).
  split; [exact H1|]. split; [exact H2|]. split; [vm_compute; reflexivity|].
  destruct (screenshot_lands_in_logs posix portalUp page emptyWorld [] H1 H2)
    as (Hfile & Hdir & _).
  split; [exact Hfile | exact Hdir].
Defined.

Lemma upload_without_configuration_witness :
  unconfigured "mediaShuttle" = None /\
  reportFiles [report; notes] <> [] /\
  res (upload posix portalUp unconfigured [report; notes] noLocals emptyWorld) =
    Throw (Error "Media Shuttle configuration not found").
Proof.
  assert (H1 : unconfigured "mediaShuttle" = None) by reflexivity.
  assert (H2 : reportFiles [report; notes] <> []) by (vm_compute; discriminate).
  split; [exact H1|]. split; [exact H2|].
  exact (proj1 (upload_without_configuration posix portalUp unconfigured [report; notes]
                  emptyWorld H1 H2)).
Defined.

Lemma staged_files_are_removed_witness :
  let settings := MediaShuttleConfigFactory.factory process in
  let o := upload posix loginRefused configured [report; notes] noLocals stagedWorld in
  configured "mediaShuttle" = Some settings /\
  reportFiles [report; notes] <> [] /\
  (forall w' p, unlinkSync_error posix w' p = None) /\
  fs stagedWorld !! "/tmp/x_Report.docx" = Some (File [Byte.x50; Byte.x4b]) /\
  fs (wld o) !! "/tmp/x_Report.docx" = None.
Proof.
  intros settings o.
  assert (H1 : configured "mediaShuttle" = Some settings) by reflexivity.
  assert (H2 : reportFiles [report; notes] <> []) by (vm_compute; discriminate).
  assert (H3 : forall w' p, unlinkSync_error posix w' p = None) by (intros; reflexivity).
  split; [exact H1|]. split; [exact H2|]. split; [exact H3|].
  split; [vm_compute; reflexivity|].
  apply (proj1 (staged_files_are_removed posix loginRefused configured [report; notes]
                  stagedWorld settings H1 H2 H3)).
  vm_compute. left. reflexivity.
Defined.

Lemma staging_error_fails_batch_witness :
  let settings := MediaShuttleConfigFactory.factory process in
  let e := Error "ENOSPC: no space left on device, write" in
  let o := upload diskFull portalUp configured [report; notes] noLocals emptyWorld in
  configured "mediaShuttle" = Some settings /\
  res (stageReports diskFull [report; notes] noLocals (atStaging [report; notes] emptyWorld))
    = Throw e /\
  res o = Normal [ failedResult "ENOSPC: no space left on device, write" report;
                   skippedResult notes ].
Proof.
  intros settings e o.
  assert (H1 : configured "mediaShuttle" = Some settings) by reflexivity.
  assert (H2 : res (stageReports diskFull [report; notes] noLocals
                      (atStaging [report; notes] emptyWorld)) = Throw e)
    by (vm_compute; reflexivity).
  split; [exact H1|]. split; [exact H2|].
  exact (proj1 (staging_error_fails_batch diskFull portalUp configured [report; notes]
                  emptyWorld settings e H1 H2)).
Defined.

Lemma accepted_batch_uploads_every_report_witness :
  let settings := MediaShuttleConfigFactory.factory process in
  let files := [report; notes] in
  let staged := stageReports posix files noLocals (atStaging files emptyWorld) in
  let answer := succeeded posix ["/tmp/x_Report.docx"] in
  configured "mediaShuttle" = Some settings /\
  reportFiles files <> [] /\
  res staged = Normal tt /\
  res (MediaShuttleService.uploadAttempt
         posix portalUp (map (stagedPath posix) (reportFiles files)) (pickConfig settings)
         None (wld staged)) = Normal answer /\
  res (upload posix portalUp configured files noLocals emptyWorld) =
    Normal [uploadedResult report; skippedResult notes].
Proof.
  intros settings files staged answer.
  assert (H1 : configured "mediaShuttle" = Some settings) by reflexivity.
  assert (H2 : reportFiles files <> []) by (vm_compute; discriminate).
  assert (H3 : res staged = Normal tt) by (vm_compute; reflexivity).
  assert (H4 : res (MediaShuttleService.uploadAttempt
                      posix portalUp (map (stagedPath posix) (reportFiles files))
                      (pickConfig settings) None (wld staged)) = Normal answer)
    by (vm_compute; reflexivity).
  split; [exact H1|]. split; [exact H2|]. split; [exact H3|]. split; [exact H4|].
  exact (accepted_batch_uploads_every_report posix portalUp configured files emptyWorld
           settings answer H1 H2 H3 H4).
Defined.

Lemma batch_is_attached_whole_witness :
  let settings := MediaShuttleConfigFactory.factory process in
  let files := [report; notes; file "z_Report.docx" (Some [Byte.x50])] in
  configured "mediaShuttle" = Some settings /\
  forallb (attaches ["/tmp/x_Report.docx"; "/tmp/z_Report.docx"])
          (trace (wld (upload posix portalUp configured files noLocals emptyWorld))) = true.
Proof.
  intros settings files.
  assert (H1 : configured "mediaShuttle" = Some settings) by reflexivity.
  split; [exact H1|].
  destruct (batch_is_attached_whole posix portalUp configured files emptyWorld settings H1)
    as (evs & E & F).
  rewrite E. exact F.
Defined.

Lemma one_browser_per_batch_witness :
  let settings := MediaShuttleConfigFactory.factory process in
  let files := [report; notes; file "z_Report.docx" (Some [Byte.x50])] in
  configured "mediaShuttle" = Some settings /\
  launches (trace (wld (upload posix portalUp configured files noLocals emptyWorld))) <= 1.
Proof.
  intros settings files.
  assert (H1 : configured "mediaShuttle" = Some settings) by reflexivity.
  split; [exact H1|].
  destruct (one_browser_per_batch posix portalUp configured files emptyWorld settings H1)
    as (evs & E & F & _).
  rewrite E. exact F.
Defined.

Lemma upload_spares_other_files_witness :
  let settings := MediaShuttleConfigFactory.factory process in
  let files := [file "z_Report.docx" (Some [Byte.x50]); notes] in
  let p := "/tmp/x_Report.docx" in
  configured "mediaShuttle" = Some settings /\
  ~ In p (map (stagedPath posix) (reportFiles files)) /\
  is_Some (fs stagedWorld !! p) /\
  is_Some (fs (wld (upload posix loginRefused configured files noLocals stagedWorld)) !! p).
Proof.
  intros settings files p.
  assert (H1 : configured "mediaShuttle" = Some settings) by reflexivity.
  assert (H2 : ~ In p (map (stagedPath posix) (reportFiles files))).
  { vm_compute. intros [E|[]]. discriminate E. }
  assert (H3 : is_Some (fs stagedWorld !! p)) by (vm_compute; eauto).
  split; [exact H1|]. split; [exact H2|]. split; [exact H3|].
  exact (upload_spares_other_files posix loginRefused configured files stagedWorld
           settings p H1 H2 H3).
Defined.

Lemma downloaded_files_are_skipped_witness :
  let files := MayoDownloaderService.mockFiles 1700000000000 in
  res (MayoDownloaderService.download posix (fun _ => "2023-11-14T22:13:20.000Z")
         (Some 1700000000000%Z) tt emptyWorld) = Normal files /\
  res (upload posix portalUp unconfigured files noLocals emptyWorld) =
    Normal (map skippedResult files).
Proof.
  intros files.
  assert (H1 : res (MayoDownloaderService.download posix
                      (fun _ => "2023-11-14T22:13:20.000Z")
                      (Some 1700000000000%Z) tt emptyWorld) = Normal files)
    by reflexivity.
  split; [exact H1|].
  exact (proj1 (downloaded_files_are_skipped posix portalUp
                  (fun _ => "2023-11-14T22:13:20.000Z") unconfigured
                  (Some 1700000000000%Z) emptyWorld files emptyWorld H1)).
Defined.

Lemma launched_browser_is_closed_witness :
  let o := MediaShuttleService.uploadToMediaShuttle
             posix loginRefused ["/tmp/x_Report.docx"] config None stagedWorld in
  this_browser stagedWorld = None /\
  (forall w' c, pw_closeContext loginRefused w' c = Normal tt) /\
  launched loginRefused ["/tmp/x_Report.docx"] stagedWorld = Some {| browser_id := 1 |} /\
  browserCloses (trace (wld o)) = 1.
Proof.
  intros o.
  assert (H1 : this_browser stagedWorld = None) by reflexivity.
  assert (H2 : forall w' c, pw_closeContext loginRefused w' c = Normal tt)
    by (intros; reflexivity).
  split; [exact H1|]. split; [exact H2|]. split; [vm_compute; reflexivity|].
  destruct (launched_browser_is_closed posix loginRefused ["/tmp/x_Report.docx"] config
              stagedWorld H1 H2) as (evs & E & F).
  fold o in E. rewrite E. exact F.
Defined.
